(** * Similarity-and-clustering engine of find_similar_documents.py

    A shallow embedding of the chunker, the pair scanner, the union-find
    clustering and the report builder, with the properties the
    specification states about them.

    Modelling conventions.
    - Python [str] is [string]; texts are taken over ASCII whitespace
      (the characters for which [str.isspace] holds below code point 128).
      Byte-wise lexicographic order of [string] is the code-point order
      Python uses to compare [str].
    - Python [int] is [Z].
    - Similarity scores (Python [float]) are rationals [Q]; rounding error of
      binary floating point is not part of the model.
    - A [dict] whose iteration order is observed is an association list in
      insertion order; a [dict] that is only looked up is a [gmap].
    - A [set] that is iterated has no order of its own: the iteration order
      is an explicit argument, constrained only to enumerate the set.
    - Loops that may not terminate take fuel and return [None] when it runs
      out; a missing key ([KeyError]) is [None] as well.
    - Recursion is bounded: [find] takes the recursion depth left to it and
      returns [None] ([RecursionError]) when it is used up. A run takes it
      from its run-time environment.
    - A call into the environment that can raise (reading a file, the
      console, the embedding provider, writing the report) raises when the
      environment says so; the run then ends with that exception. *)

From Stdlib Require Import Ascii ZArith QArith Qround Lia Lqa Permutation Sorted.
From Stdlib Require Import OrderedTypeEx Relation_Operators.
From stdpp Require Import base gmap strings list sorting.

Local Open Scope Z_scope.

(** ** Python built-ins used by the program *)

Module Py.

(** [str.isspace] on one ASCII character: TAB, LF, VT, FF, CR, FS, GS, RS, US
    and SPACE. *)
Definition isspace (c : ascii) : bool :=
  let n := N_of_ascii c in
  ((9 <=? n)%N && (n <=? 13)%N) || ((28 <=? n)%N && (n <=? 32)%N).

Definition snoc (s : string) (c : ascii) : string := s +:+ String c EmptyString.

(** [s.split()] scanning left to right, [cur] being the word under
    construction. *)
Fixpoint split_from (cur : string) (s : string) : list string :=
  match s with
  | EmptyString => if decide (cur = EmptyString) then [] else [cur]
  | String c s' =>
      if isspace c
      then (if decide (cur = EmptyString) then split_from EmptyString s'
            else cur :: split_from EmptyString s')
      else split_from (snoc cur c) s'
  end.

(** [text.split()] *)
Definition split (s : string) : list string := split_from EmptyString s.

(** [sep.join(l)] *)
Fixpoint join (sep : string) (l : list string) : string :=
  match l with
  | [] => EmptyString
  | [w] => w
  | w :: l' => w +:+ sep +:+ join sep l'
  end.

(** [len(l)] *)
Definition len {A} (l : list A) : Z := Z.of_nat (length l).

(** A slice bound [i] brought into [0..n] the way [l[a:b]] does it. *)
Definition clamp (n i : Z) : Z :=
  if i <? 0 then Z.max (i + n) 0 else Z.min i n.

(** [l[a:b]] *)
Definition slice {A} (l : list A) (a b : Z) : list A :=
  let a' := clamp (len l) a in
  let b' := clamp (len l) b in
  take (Z.to_nat (b' - a')) (drop (Z.to_nat a') l).

(** [s[:n]] on a string, for [0 <= n]; a character is a byte here. *)
Definition prefix_str (n : nat) (s : string) : string := String.substring 0 n s.

(** [s.split(sep)] for a one-character separator: never empty. *)
Fixpoint split_on_from (sep : ascii) (cur : string) (s : string) : list string :=
  match s with
  | EmptyString => [cur]
  | String c s' =>
      if decide (c = sep) then cur :: split_on_from sep EmptyString s'
      else split_on_from sep (snoc cur c) s'
  end.

Definition split_on (sep : ascii) (s : string) : list string :=
  split_on_from sep EmptyString s.

Fixpoint lstrip (s : string) : string :=
  match s with
  | EmptyString => EmptyString
  | String c s' => if isspace c then lstrip s' else s
  end.

(** Drops trailing whitespace: a character is kept when it is not a space or
    something is kept after it. *)
Fixpoint rstrip (s : string) : string :=
  match s with
  | EmptyString => EmptyString
  | String c s' =>
      match rstrip s' with
      | EmptyString => if isspace c then EmptyString else String c EmptyString
      | r => String c r
      end
  end.

(** [s.strip()] *)
Definition strip (s : string) : string := rstrip (lstrip s).

(** [s.endswith(suf)] *)
Definition endswith (s suf : string) : bool :=
  let n := String.length s in
  let k := String.length suf in
  (k <=? n)%nat && bool_decide (String.substring (n - k) k s = suf).

(** Position of the last occurrence of [c] in [s], [-1] when absent
    ([s.rfind(c)]). *)
Fixpoint rfind_from (c : ascii) (s : string) (i : Z) (last : Z) : Z :=
  match s with
  | EmptyString => last
  | String d s' => rfind_from c s' (i + 1) (if decide (d = c) then i else last)
  end.

Definition rfind (c : ascii) (s : string) : Z := rfind_from c s 0 (-1).

(** The loop of [genericpath._splitext] that skips leading dots of the last
    path component: is there a character other than the extension separator
    in [p[filenameIndex:dotIndex]]? *)
Fixpoint has_non_dot (p : string) (from upto : nat) : bool :=
  match upto with
  | O => false
  | S k =>
      if (from <=? k)%nat
      then (match String.get k p with
            | Some d => negb (bool_decide (d = "."%char))
            | None => false
            end) || has_non_dot p from k
      else false
  end.

(** [os.path.splitext(p)[0]] (POSIX). *)
Definition splitext_root (p : string) : string :=
  let sepIndex := rfind "/"%char p in
  let dotIndex := rfind "."%char p in
  if (sepIndex <? dotIndex) && has_non_dot p (Z.to_nat (sepIndex + 1)) (Z.to_nat dotIndex)
  then String.substring 0 (Z.to_nat dotIndex) p
  else p.

(** A stable sort by a "goes first" test, as [sorted] and [list.sort] are
    stable: [x] is put before the first element it may precede, and elements
    that compare equal keep their order. *)
Section Sort.
Context {A : Type} (first : A -> A -> bool).

Fixpoint insert_sorted (x : A) (l : list A) : list A :=
  match l with
  | [] => [x]
  | y :: l' => if first x y then x :: y :: l' else y :: insert_sorted x l'
  end.

Fixpoint sort_by (l : list A) : list A :=
  match l with
  | [] => []
  | x :: l' => insert_sorted x (sort_by l')
  end.
End Sort.

(** [sorted(l)] on strings. *)
Definition sorted (l : list string) : list string := sort_by String.leb l.

End Py.

(** ** Chunker *)

(** The [while start < len(words)] loop of [chunk_text]; the list built by
    [chunks.append] is returned front to back. *)
Fixpoint chunk_loop (fuel : nat) (words : list string)
    (chunk_size overlap start : Z) : option (list string) :=
  if start <? Py.len words then
    match fuel with
    | O => None
    | S fuel' =>
        let end_ := start + chunk_size in
        let chunk := Py.join " " (Py.slice words start end_) in
        match chunk_loop fuel' words chunk_size overlap
                (start + (chunk_size - overlap)) with
        | Some chunks => Some (chunk :: chunks)
        | None => None
        end
    end
  else Some [].

Definition chunk_text (fuel : nat) (text : string) (chunk_size overlap : Z)
    : option (list string) :=
  let words := Py.split text in
  if Py.len words <=? chunk_size then Some [text]
  else chunk_loop fuel words chunk_size overlap 0.

(** The word positions [start, min(end, len(words))) that the loop's windows
    take, for non-negative [start] and [chunk_size]: the same loop, returning
    the spans instead of the joined words. *)
Fixpoint span_loop (fuel : nat) (n : Z) (chunk_size overlap start : Z)
    : option (list (Z * Z)) :=
  if start <? n then
    match fuel with
    | O => None
    | S fuel' =>
        match span_loop fuel' n chunk_size overlap
                (start + (chunk_size - overlap)) with
        | Some spans => Some ((start, Z.min (start + chunk_size) n) :: spans)
        | None => None
        end
    end
  else Some [].

Definition chunk_spans (fuel : nat) (text : string) (chunk_size overlap : Z)
    : option (list (Z * Z)) :=
  let n := Py.len (Py.split text) in
  if n <=? chunk_size then Some [(0, n)]
  else span_loop fuel n chunk_size overlap 0.

(** ** Data model *)

(** A loaded document: [{"text": ..., "type": ...}]. *)
Record document := Document { doc_text : string; doc_type : string }.

(** An entry of [similar_pairs]. *)
Record pair := Pair {
  doc1 : string;
  doc2 : string;
  type1 : string;
  type2 : string;
  similarity : Q;
  preview1 : string;
  preview2 : string;
}.

(** An entry of the list [group_similar_documents] returns. *)
Record cluster := Cluster {
  members : list string;
  size : Z;
  avg_similarity : Q;
  max_similarity : Q;
}.

(** A [dict] in insertion order. [documents] is one: its keys are distinct,
    and [documents[name]] for a [name] taken from [documents.keys()] is the
    entry the key came with. *)
Definition dict (V : Type) : Type := list (string * V).

Definition dict_get {V} (d : dict V) (k : string) : option V :=
  snd <$> List.find (fun e => bool_decide (fst e = k)) d.

(** [d[k] = v]: an existing key keeps its position. *)
Fixpoint dict_set {V} (d : dict V) (k : string) (v : V) : dict V :=
  match d with
  | [] => [(k, v)]
  | (k', v') :: d' =>
      if decide (k' = k) then (k, v) :: d' else (k', v') :: dict_set d' k v
  end.

(** ** Source types *)

(** The file system as the program sees it: [listdir folder] is [None] when
    the folder does not exist (a path that exists is a folder that can be
    listed); [read_text path] is the text [open(path, 'r',
    encoding='utf-8')] and [read()] return, [None] when either raises. *)
Record filesystem := Filesystem {
  listdir : string -> option (list string);
  read_text : string -> option string;
}.

Definition SOURCE_FOLDERS : dict string :=
  [("word_files", "docx"); ("pdf_files", "pdf");
   ("pptx_files", "pptx"); ("xlsx_files", "xlsx")].

Fixpoint get_source_type_in (fs : filesystem) (base_name : string)
    (folders : dict string) : string :=
  match folders with
  | [] => "unknown"
  | (folder, file_type) :: rest =>
      match listdir fs folder with
      | Some files =>
          if existsb (fun f => bool_decide (Py.splitext_root f = base_name)) files
          then file_type
          else get_source_type_in fs base_name rest
      | None => get_source_type_in fs base_name rest
      end
  end.

Definition get_source_type (fs : filesystem) (filename : string) : string :=
  get_source_type_in fs (Py.splitext_root filename) SOURCE_FOLDERS.

(** The loop of [load_all_documents] over the listing; [None] is the
    exception of a file that cannot be opened or decoded. *)
Fixpoint load_loop (fs : filesystem) (folder_path : string)
    (documents : dict document) (files : list string) : option (dict document) :=
  match files with
  | [] => Some documents
  | filename :: rest =>
      if Py.endswith filename ".txt"
      then
        match read_text fs (folder_path +:+ "/" +:+ filename) with
        | None => None
        | Some text =>
            load_loop fs folder_path
              (dict_set documents filename
                 (Document text (get_source_type fs filename)))
              rest
        end
      else load_loop fs folder_path documents rest
  end.

Definition load_all_documents (fs : filesystem) (folder_path : string)
    : option (dict document) :=
  match listdir fs folder_path with
  | None => None
  | Some files => load_loop fs folder_path [] files
  end.

(** ** Pair filter and scanner *)

(** Truth value of [selected_types]: [None] and the empty list are false. *)
Definition truthy (selected_types : option (list string)) : bool :=
  match selected_types with
  | Some (_ :: _) => true
  | _ => false
  end.

Definition selected (selected_types : option (list string)) : list string :=
  default [] selected_types.

(** The mode filter at the head of the inner loop: [false] where the loop
    body hits [continue]. *)
Definition candidate (mode : string) (selected_types : option (list string))
    (type_i type_j : string) : bool :=
  if bool_decide (mode = "same_type") && negb (bool_decide (type_i = type_j))
  then false
  else if bool_decide (mode = "select") && truthy selected_types
  then
    if negb (bool_decide (type_i ∈ selected selected_types))
       || negb (bool_decide (type_j ∈ selected selected_types))
    then false
    else if bool_decide (type_i = type_j) then false
    else true
  else true.

Section Scanner.
(** Chunk embeddings of a document, and the maximum entry of the cosine
    similarity matrix of two of them ([np.max(cosine_similarity(a, b))]):
    the external collaborators. On the arrays the provider returns the
    maximum is a function of the two arrays, and is taken to return. *)
Context {Emb : Type} (chunk_max_sim : Emb -> Emb -> Q).

(** One iteration of the inner loop: [None] is a [KeyError] on
    [doc_embeddings], [Some None] no pair, [Some (Some p)] a retained
    pair. *)
Definition compare_docs (doc_embeddings : gmap string Emb) (threshold : Q)
    (mode : string) (selected_types : option (list string))
    (di dj : string * document) : option (option pair) :=
  let '(name_i, doc_i) := di in
  let '(name_j, doc_j) := dj in
  let type_i := doc_type doc_i in
  let type_j := doc_type doc_j in
  if candidate mode selected_types type_i type_j then
    match doc_embeddings !! name_i, doc_embeddings !! name_j with
    | Some ei, Some ej =>
        let max_sim := chunk_max_sim ei ej in
        if Qle_bool threshold max_sim
        then Some (Some (Pair name_i name_j type_i type_j max_sim
                           (Py.prefix_str 100 (doc_text doc_i))
                           (Py.prefix_str 100 (doc_text doc_j))))
        else Some None
    | _, _ => None
    end
  else Some None.

(** The inner loop, [j] running over the documents after [di]. *)
Fixpoint scan_row (doc_embeddings : gmap string Emb) (threshold : Q)
    (mode : string) (selected_types : option (list string))
    (di : string * document) (rest : dict document) : option (list pair) :=
  match rest with
  | [] => Some []
  | dj :: rest' =>
      match compare_docs doc_embeddings threshold mode selected_types di dj with
      | None => None
      | Some r =>
          match scan_row doc_embeddings threshold mode selected_types di rest' with
          | None => None
          | Some ps => Some (match r with Some p => p :: ps | None => ps end)
          end
      end
  end.

(** The outer loop of [find_similar_pairs]. *)
Fixpoint find_similar_pairs (doc_embeddings : gmap string Emb)
    (documents : dict document) (threshold : Q) (mode : string)
    (selected_types : option (list string)) : option (list pair) :=
  match documents with
  | [] => Some []
  | di :: rest =>
      match scan_row doc_embeddings threshold mode selected_types di rest with
      | None => None
      | Some row =>
          match find_similar_pairs doc_embeddings rest threshold mode selected_types with
          | None => None
          | Some ps => Some (row ++ ps)
          end
      end
  end.
End Scanner.

(** ** Clustering engine *)

(** [find(x)] with path compression on the [parent] dict. [depth] is the
    recursion depth available; [None] is a [KeyError] on [parent] or a
    recursion deeper than [depth]. The result is the value returned and the
    dict as the call leaves it. *)
Fixpoint find (depth : nat) (parent : gmap string string) (x : string)
    : option (string * gmap string string) :=
  match depth with
  | O => None
  | S depth' =>
      match parent !! x with
      | None => None
      | Some px =>
          if decide (px = x) then Some (x, parent)
          else
            match find depth' parent px with
            | None => None
            | Some (r, parent') => Some (r, <[x := r]> parent')
            end
      end
  end.

(** [union(a, b)] *)
Definition union (depth : nat) (parent : gmap string string) (a b : string)
    : option (gmap string string) :=
  match find depth parent a with
  | None => None
  | Some (root_a, parent1) =>
      match find depth parent1 b with
      | None => None
      | Some (root_b, parent2) =>
          Some (if decide (root_a = root_b) then parent2
                else <[root_b := root_a]> parent2)
      end
  end.

(** The elements added to [all_docs], in the order they are added. *)
Definition endpoints (similar_pairs : list pair) : list string :=
  flat_map (fun p => [doc1 p; doc2 p]) similar_pairs.

(** An iteration order of the set holding the elements of [l]. *)
Definition enumerates (order l : list string) : Prop :=
  NoDup order /\ forall d, d ∈ order <-> d ∈ l.

(** [for doc in all_docs: parent[doc] = doc] *)
Definition init_parent (all_docs : list string) : gmap string string :=
  foldl (fun parent doc => <[doc := doc]> parent) ∅ all_docs.

(** [for pair in similar_pairs: union(pair['doc1'], pair['doc2'])] *)
Fixpoint merge_pairs (depth : nat) (parent : gmap string string)
    (similar_pairs : list pair) : option (gmap string string) :=
  match similar_pairs with
  | [] => Some parent
  | p :: ps =>
      match union depth parent (doc1 p) (doc2 p) with
      | None => None
      | Some parent' => merge_pairs depth parent' ps
      end
  end.

(** [if root not in clusters: clusters[root] = []] followed by
    [clusters[root].append(doc)]. *)
Fixpoint cluster_append (clusters : dict (list string)) (root doc : string)
    : dict (list string) :=
  match clusters with
  | [] => [(root, [doc])]
  | (r, ms) :: cs =>
      if decide (r = root) then (r, ms ++ [doc]) :: cs
      else (r, ms) :: cluster_append cs root doc
  end.

(** The loop that builds [clusters]; [find] keeps compressing [parent]. *)
Fixpoint build_clusters (depth : nat) (parent : gmap string string)
    (clusters : dict (list string)) (docs : list string)
    : option (dict (list string)) :=
  match docs with
  | [] => Some clusters
  | doc :: docs' =>
      match find depth parent doc with
      | None => None
      | Some (root, parent') =>
          build_clusters depth parent' (cluster_append clusters root doc) docs'
      end
  end.

(** [tuple(sorted([a, b]))] *)
Definition pair_key (a b : string) : string * string :=
  if String.leb a b then (a, b) else (b, a).

(** [pair_lookup]: a later pair with the same key overwrites an earlier
    one. *)
Definition pair_lookup (similar_pairs : list pair) : gmap (string * string) Q :=
  foldl (fun lookup p => <[pair_key (doc1 p) (doc2 p) := similarity p]> lookup)
        ∅ similar_pairs.

(** The inner loop over [j] that fills [sims] for one [members[i]]. *)
Fixpoint sims_row (lookup : gmap (string * string) Q) (m : string)
    (rest : list string) : list Q :=
  match rest with
  | [] => []
  | m' :: rest' =>
      match lookup !! pair_key m m' with
      | Some s => s :: sims_row lookup m rest'
      | None => sims_row lookup m rest'
      end
  end.

(** [sims] of one cluster. *)
Fixpoint cluster_sims (lookup : gmap (string * string) Q) (members : list string)
    : list Q :=
  match members with
  | [] => []
  | m :: rest => sims_row lookup m rest ++ cluster_sims lookup rest
  end.

(** [sum(sims)] *)
Definition py_sum (sims : list Q) : Q := foldl Qplus 0%Q sims.

(** [max(sims)] for a non-empty list: the running maximum is replaced by a
    strictly larger item. *)
Definition py_max (first : Q) (rest : list Q) : Q :=
  foldl (fun m x => if Qle_bool x m then m else x) first rest.

(** [sum(sims) / len(sims) if sims else 0] *)
Definition avg_of (sims : list Q) : Q :=
  match sims with
  | [] => 0%Q
  | _ :: _ => (py_sum sims / inject_Z (Py.len sims))%Q
  end.

(** [max(sims) if sims else 0] *)
Definition max_of (sims : list Q) : Q :=
  match sims with
  | [] => 0%Q
  | s :: rest => py_max s rest
  end.

Definition cluster_info (lookup : gmap (string * string) Q) (ms : list string)
    : cluster :=
  let sims := cluster_sims lookup ms in
  Cluster (Py.sorted ms) (Py.len ms) (avg_of sims) (max_of sims).

(** The loop over [clusters.items()] that fills [result]. *)
Fixpoint format_clusters (lookup : gmap (string * string) Q)
    (clusters : dict (list string)) : list cluster :=
  match clusters with
  | [] => []
  | (root, ms) :: cs =>
      if Py.len ms <? 2 then format_clusters lookup cs
      else cluster_info lookup ms :: format_clusters lookup cs
  end.

(** [(size, avg_similarity)] of [x] is less than that of [y], as tuples. *)
Definition cluster_key_lt (x y : cluster) : bool :=
  if size x =? size y
  then negb (Qle_bool (avg_similarity y) (avg_similarity x))
  else size x <? size y.

(** [result.sort(key=..., reverse=True)]: [x] may precede [y] unless its
    key is smaller. *)
Definition cluster_first (x y : cluster) : bool := negb (cluster_key_lt x y).

Section Clustering.
(** The order in which a [set] built by adding the elements of a list is
    iterated. *)
Variable set_iter : list string -> list string.

Definition all_docs (similar_pairs : list pair) : list string :=
  set_iter (endpoints similar_pairs).

(** The dict [clusters] as the grouping loop leaves it. *)
Definition clusters_of (depth : nat) (similar_pairs : list pair)
    : option (dict (list string)) :=
  match merge_pairs depth (init_parent (all_docs similar_pairs)) similar_pairs with
  | None => None
  | Some parent =>
      build_clusters depth parent [] (all_docs similar_pairs)
  end.

Definition group_similar_documents (depth : nat) (similar_pairs : list pair)
    : option (list cluster) :=
  match clusters_of depth similar_pairs with
  | None => None
  | Some clusters =>
      Some (Py.sort_by cluster_first
              (format_clusters (pair_lookup similar_pairs) clusters))
  end.
End Clustering.

(** ** Report builder and the run *)

(** A metadata record of [metadata.json]; [{}] is the empty list. *)
Definition meta : Type := list (string * string).

Record settings_data := Settings {
  st_threshold : Q;
  st_mode : string;
  st_selected_types : option (list string);
  st_total_documents : Z;
}.

Record pair_data := PairData {
  pd_doc1 : string;
  pd_doc2 : string;
  pd_type1 : string;
  pd_type2 : string;
  pd_similarity : Q;
  pd_level : string;
  pd_cross_format : bool;
  pd_doc1_metadata : meta;
  pd_doc2_metadata : meta;
}.

Record member_data := MemberData {
  md_filename : string;
  md_type : string;
  md_metadata : meta;
}.

Record cluster_data := ClusterData {
  cd_cluster_id : Z;
  cd_size : Z;
  cd_avg_similarity : Q;
  cd_max_similarity : Q;
  cd_level : string;
  cd_members : list member_data;
}.

(** The object written to [results.json]. *)
Record results := Results {
  r_settings : settings_data;
  r_pairs : list pair_data;
  r_clusters : list cluster_data;
}.

(** What a run leaves behind: nothing (an early [return]), an uncaught
    exception or a computation that does not end, or the report. *)
Inductive outcome :=
  | NoReport
  | Raised
  | Report (r : results).

(** [round(x)] to the nearest integer, ties to even. *)
Definition round_half_even (y : Q) : Z :=
  let f := Qfloor y in
  match ((y - inject_Z f) ?= (1 # 2))%Q with
  | Lt => f
  | Gt => f + 1
  | Eq => if Z.even f then f else f + 1
  end.

(** [round(x, 4)] *)
Definition round4 (x : Q) : Q :=
  (inject_Z (round_half_even (x * inject_Z 10000)) / inject_Z 10000)%Q.

(** The [level] of a pair in the report. *)
Definition pair_level (s : Q) : string :=
  if Qle_bool (95 # 100) s then "very_high"
  else if Qle_bool (85 # 100) s then "high"
  else if Qle_bool (7 # 10) s then "medium"
  else "low".

(** The [level] of a cluster in the report. *)
Definition cluster_level (avg : Q) : string :=
  if Qle_bool (85 # 100) avg then "high"
  else if Qle_bool (7 # 10) avg then "medium"
  else "low".

(** [metadata.get(name, {})] *)
Definition metadata_get (metadata : gmap string meta) (name : string) : meta :=
  default [] (metadata !! name).

Definition make_pair_data (metadata : gmap string meta) (p : pair) : pair_data :=
  PairData (doc1 p) (doc2 p) (type1 p) (type2 p)
    (round4 (similarity p))
    (pair_level (similarity p))
    (negb (bool_decide (type1 p = type2 p)))
    (metadata_get metadata (doc1 p))
    (metadata_get metadata (doc2 p)).

(** The member entries of one cluster; [documents[member]] may raise. *)
Fixpoint make_members (documents : dict document) (metadata : gmap string meta)
    (ms : list string) : option (list member_data) :=
  match ms with
  | [] => Some []
  | member :: ms' =>
      match dict_get documents member with
      | None => None
      | Some d =>
          match make_members documents metadata ms' with
          | None => None
          | Some rest =>
              Some (MemberData member (doc_type d) (metadata_get metadata member) :: rest)
          end
      end
  end.

(** [for i, cluster in enumerate(clusters, 1)], [i] being the next id. *)
Fixpoint make_clusters (documents : dict document) (metadata : gmap string meta)
    (i : Z) (clusters : list cluster) : option (list cluster_data) :=
  match clusters with
  | [] => Some []
  | c :: cs =>
      match make_members documents metadata (members c) with
      | None => None
      | Some mds =>
          match make_clusters documents metadata (i + 1) cs with
          | None => None
          | Some rest =>
              Some (ClusterData i (size c)
                      (round4 (avg_similarity c)) (round4 (max_similarity c))
                      (cluster_level (avg_similarity c)) mds :: rest)
          end
      end
  end.

(** [similar_pairs.sort(key=lambda x: x['similarity'], reverse=True)] *)
Definition sort_pairs (similar_pairs : list pair) : list pair :=
  Py.sort_by (fun x y => Qle_bool (similarity y) (similarity x)) similar_pairs.

(** The defaults of [chunk_text]. *)
Definition default_chunk_size : Z := 500.
Definition default_overlap : Z := 100.

(** The default of [find_similar_pairs], also set in [main]. *)
Definition default_threshold : Q := 6 # 10.

(** The calls of [main] into its environment that can raise. *)
Inductive external_call :=
  | MakeResultsFolder         (* os.makedirs(results_folder, exist_ok=True) *)
  | LoadMetadata              (* open and json.load of metadata/metadata.json *)
  | ReadChoice                (* input() for the comparison mode *)
  | ReadTypes                 (* input() for the types of mode 3 *)
  | LoadModel                 (* SentenceTransformer('all-MiniLM-L6-v2') *)
  | Encode (name : string)    (* model.encode(chunks) for the document [name] *)
  | WriteReport.              (* open and json.dump of results/results.json *)

(** The run-time environment of a run: the external calls that raise, and
    the recursion depth left to [find] when the clustering calls it. *)
Record runtime := Runtime {
  raises : external_call -> bool;
  recursion_limit : nat;
}.

Section Run.
Context {Emb : Type}.
(** [model.encode]: one embedding set per chunk list. *)
Variable encode : list string -> Emb.
Variable chunk_max_sim : Emb -> Emb -> Q.
Variable set_iter : list string -> list string.
Variable rt : runtime.

(** The chunk-and-embed loop of [main]: [chunk_text] is called with its
    defaults; the fuel given is the number of words, which is enough for
    them. [None] is the exception of the provider. *)
Fixpoint embed_all (documents : dict document) (doc_embeddings : gmap string Emb)
    : option (gmap string Emb) :=
  match documents with
  | [] => Some doc_embeddings
  | (name, d) :: rest =>
      match chunk_text (length (Py.split (doc_text d))) (doc_text d)
              default_chunk_size default_overlap with
      | None => None
      | Some chunks =>
          if raises rt (Encode name) then None
          else embed_all rest (<[name := encode chunks]> doc_embeddings)
      end
  end.

(** The choice of comparison mode from the two lines read from the
    user. *)
Definition choose_mode (choice_line types_line : string)
    : string * option (list string) :=
  let choice := Py.strip choice_line in
  if decide (choice = "2") then ("same_type", None)
  else if decide (choice = "3")
  then ("select", Some (map Py.strip (Py.split_on "," (Py.strip types_line))))
  else ("all", None).

(** [main] from the loaded documents on. The second line is read for
    choice 3 only. *)
Definition run_documents (metadata : gmap string meta)
    (documents : dict document) (choice_line types_line : string) : outcome :=
  if Py.len documents <? 2 then NoReport
  else if raises rt ReadChoice then Raised
  else if bool_decide (Py.strip choice_line = "3") && raises rt ReadTypes then Raised
  else
    let '(mode, selected_types) := choose_mode choice_line types_line in
    if raises rt LoadModel then Raised
    else
    match embed_all documents ∅ with
    | None => Raised
    | Some doc_embeddings =>
        let threshold := default_threshold in
        match find_similar_pairs chunk_max_sim doc_embeddings documents
                threshold mode selected_types with
        | None => Raised
        | Some found =>
            let similar_pairs := sort_pairs found in
            match
              (match similar_pairs with
               | [] => Some []
               | _ :: _ =>
                   match group_similar_documents set_iter
                           (recursion_limit rt) similar_pairs with
                   | None => None
                   | Some clusters => make_clusters documents metadata 1 clusters
                   end
               end)
            with
            | None => Raised
            | Some cds =>
                if raises rt WriteReport then Raised
                else
                Report (Results
                          (Settings threshold mode selected_types (Py.len documents))
                          (map (make_pair_data metadata) similar_pairs)
                          cds)
            end
        end
    end.

(** [main]: [metadata_json] is the content of [metadata/metadata.json]
    when that file exists. *)
Definition main (fs : filesystem) (metadata_json : option (gmap string meta))
    (choice_line types_line : string) : outcome :=
  match listdir fs "extracted_text" with
  | None => NoReport
  | Some _ =>
      if raises rt MakeResultsFolder then Raised
      else if bool_decide (is_Some metadata_json) && raises rt LoadMetadata
      then Raised
      else
      let metadata := default ∅ metadata_json in
      match load_all_documents fs "extracted_text" with
      | None => Raised
      | Some documents => run_documents metadata documents choice_line types_line
      end
  end.
End Run.


(** ** Definitions used to state and prove the properties *)

(** *** Retained pairs *)

(** The retained-pair set is well formed: a pair relates two distinct
    documents and no two pairs relate the same two documents. *)
Definition wf_pairs (similar_pairs : list pair) : Prop :=
  (forall p, p ∈ similar_pairs -> doc1 p <> doc2 p) /\
  NoDup (map (fun p => pair_key (doc1 p) (doc2 p)) similar_pairs).

(** Both endpoints of [p] are among [ms]. *)
Definition inside (ms : list string) (p : pair) : Prop :=
  doc1 p ∈ ms /\ doc2 p ∈ ms.

(** The scores of the retained pairs with both endpoints among [ms]. *)
Definition internal_scores (similar_pairs : list pair) (ms : list string) : list Q :=
  map similarity (filter (inside ms) similar_pairs).

(** The key of a pair in [pair_lookup], and the step that files it. *)
Definition key_of (p : pair) : string * string := pair_key (doc1 p) (doc2 p).

Definition insert_pair (lookup : gmap (string * string) Q) (p : pair)
    : gmap (string * string) Q :=
  <[pair_key (doc1 p) (doc2 p) := similarity p]> lookup.

(** The keys [cluster_sims] looks up, in the order it does. *)
Fixpoint keys_row (m : string) (rest : list string) : list (string * string) :=
  match rest with
  | [] => []
  | m' :: rest' => pair_key m m' :: keys_row m rest'
  end.

Fixpoint member_keys (ms : list string) : list (string * string) :=
  match ms with
  | [] => []
  | m :: rest => keys_row m rest ++ member_keys rest
  end.

(** *** The graph of retained pairs *)

(** [a] and [b] are the endpoints of a retained pair. *)
Definition edge (similar_pairs : list pair) (a b : string) : Prop :=
  exists p, p ∈ similar_pairs /\ doc1 p = a /\ doc2 p = b.

(** [a] and [b] are linked by a chain of retained pairs. *)
Definition connected (similar_pairs : list pair) : string -> string -> Prop :=
  rtsc (edge similar_pairs).

(** [l] is the sorted list of a class of at least two linked documents. *)
Definition class_list (similar_pairs : list pair) (l : list string) : Prop :=
  Sorted String.le l /\ NoDup l /\ (2 <= length l)%nat /\
  exists x, x ∈ l /\
    forall d, d ∈ l <-> d ∈ endpoints similar_pairs /\ connected similar_pairs x d.

(** *** Union-find forests *)

(** [r] is the representative [x] leads to by following [parent]. *)
Inductive root_of (parent : gmap string string) : string -> string -> Prop :=
  | root_self x : parent !! x = Some x -> root_of parent x x
  | root_step x y r :
      parent !! x = Some y -> y <> x -> root_of parent y r -> root_of parent x r.

(** [x] and [y] have the same representative. *)
Definition same_set (parent : gmap string string) (x y : string) : Prop :=
  exists r, root_of parent x r /\ root_of parent y r.

(** [h] grows along every parent link of [parent], is at most [n], and
    [parent] maps keys to keys. *)
Definition ranked (parent : gmap string string) (h : string -> nat) (n : nat) : Prop :=
  (forall x y, parent !! x = Some y -> is_Some (parent !! y)) /\
  (forall x y, parent !! x = Some y -> y <> x -> (h x < h y)%nat) /\
  (forall x, (h x <= n)%nat).

(** The partition [parent] stands for is the one the pairs [done] induce on
    the documents [docs]. *)
Definition represents (parent : gmap string string) (docs : list string)
    (done : list pair) : Prop :=
  (forall x, is_Some (parent !! x) <-> x ∈ docs) /\
  (forall x y, x ∈ docs -> y ∈ docs ->
     (same_set parent x y <-> connected done x y)).

(** Every member list in [clusters] is filed under the representative of
    its members. *)
Definition filed (parent : gmap string string) (clusters : dict (list string))
    : Prop :=
  NoDup (map fst clusters) /\
  forall r ms, (r, ms) ∈ clusters ->
    ms <> [] /\ forall d, d ∈ ms -> root_of parent d r.

(** *** Clusters *)

(** The documents placed in the clusters of [clusters], cluster by
    cluster. *)
Fixpoint cluster_docs (clusters : dict (list string)) : list string :=
  match clusters with
  | [] => []
  | (_, ms) :: cs => ms ++ cluster_docs cs
  end.

(** The member lists that [format_clusters] keeps. *)
Fixpoint kept_members (clusters : dict (list string)) : list (list string) :=
  match clusters with
  | [] => []
  | (_, ms) :: cs =>
      if Py.len ms <? 2 then kept_members cs else ms :: kept_members cs
  end.

(** The clusters are the classes of the documents that are endpoints of a
    pair, under being linked by a chain of pairs. *)
Definition well_clustered (similar_pairs : list pair)
    (clusters : dict (list string)) : Prop :=
  NoDup (cluster_docs clusters) /\
  (forall d, d ∈ cluster_docs clusters <-> d ∈ endpoints similar_pairs) /\
  (forall r ms, (r, ms) ∈ clusters ->
     ms <> [] /\
     forall x d, x ∈ ms ->
       (d ∈ ms <-> d ∈ endpoints similar_pairs /\ connected similar_pairs x d)).

(** *** Report tiers *)

(** The tier of a score by the four breakpoints of the report. *)
Definition tier4 (s : Q) (level : string) : Prop :=
  ((95 # 100 <= s)%Q -> level = "very_high") /\
  ((85 # 100 <= s)%Q -> (s < 95 # 100)%Q -> level = "high") /\
  ((7 # 10 <= s)%Q -> (s < 85 # 100)%Q -> level = "medium") /\
  ((s < 7 # 10)%Q -> level = "low").

(** The tier of a score by the three breakpoints used for clusters. *)
Definition tier3 (s : Q) (level : string) : Prop :=
  ((85 # 100 <= s)%Q -> level = "high") /\
  ((7 # 10 <= s)%Q -> (s < 85 # 100)%Q -> level = "medium") /\
  ((s < 7 # 10)%Q -> level = "low").

(** *** Words and spans *)

(** A word as [split] returns it: not empty and free of whitespace. *)
Definition is_word (w : string) : Prop :=
  w <> EmptyString /\
  Forall (fun c => Py.isspace c = false) (String.list_ascii_of_string w).

(** Word positions two spans share. *)
Definition span_overlap (s1 s2 : Z * Z) : Z :=
  Z.max 0 (Z.min (snd s1) (snd s2) - Z.max (fst s1) (fst s2)).

(** *** Source folders *)

(** The source folder [folder] exists and holds a file with the base name
    of [filename]. *)
Definition has_source (fs : filesystem) (folder filename : string) : Prop :=
  exists files f,
    listdir fs folder = Some files /\ f ∈ files /\
    Py.splitext_root f = Py.splitext_root filename.

(** *** External calls of a run *)

(** The external calls of a run on [documents], from the choice of the
    mode on, return. *)
Definition run_calls_return (rt : runtime) (documents : dict document)
    (choice_line : string) : Prop :=
  raises rt ReadChoice = false /\
  (Py.strip choice_line = "3" -> raises rt ReadTypes = false) /\
  raises rt LoadModel = false /\
  (forall name, name ∈ map fst documents -> raises rt (Encode name) = false) /\
  raises rt WriteReport = false.

(** All external calls of a run that loads [documents] return. *)
Definition calls_return (rt : runtime) (metadata_json : option (gmap string meta))
    (documents : dict document) (choice_line : string) : Prop :=
  raises rt MakeResultsFolder = false /\
  (is_Some metadata_json -> raises rt LoadMetadata = false) /\
  run_calls_return rt documents choice_line.

(** *** A chain of retained pairs *)

(** Documents d, xd, xxd, ... and the retained pairs that link each to the
    next, the similarity falling along the chain from 1 towards 0.6: the
    scanner emits them for documents listed from the far end of the chain,
    and sorting puts them in the order of the chain. *)
Fixpoint chain_name (k : nat) : string :=
  match k with
  | O => "d"
  | S k' => String "x" (chain_name k')
  end.

Definition chain_sim (k : nat) : Q :=
  Qmake (Z.of_nat (6 * k + 10)) (Pos.of_succ_nat (10 * k + 9)).

Definition chain_pair (k : nat) : pair :=
  Pair (chain_name (S k)) (chain_name k) "docx" "docx" (chain_sim k)
    (Py.prefix_str 100 (chain_name (S k))) (Py.prefix_str 100 (chain_name k)).

Definition chain_pairs (n : nat) : list pair := map chain_pair (seq 0 n).

(** The first [j] documents of the chain of [n] pairs point at the next
    one, the others at themselves. *)
Definition chain_linked (n j : nat) (parent : gmap string string) : Prop :=
  (forall k, (k < j)%nat -> parent !! chain_name k = Some (chain_name (S k))) /\
  (forall k, (j <= k <= n)%nat -> parent !! chain_name k = Some (chain_name k)).

(** An iteration order of the documents of the chain. *)
Definition chain_order (n : nat) : list string := map chain_name (seq 0 (S n)).

(** The documents of the chain, loaded from its far end on, each holding
    its own name as text. *)
Definition chain_document (k : nat) : string * document :=
  (chain_name k, Document (chain_name k) "docx").

Fixpoint chain_documents (n : nat) : dict document :=
  match n with
  | O => [chain_document 0]
  | S n' => chain_document (S n') :: chain_documents n'
  end.

(** A similarity of embeddings that are the texts themselves: a document
    of the chain is similar to the next one only. *)
Definition chain_max_sim (a b : string) : Q :=
  if decide (a = String "x" b) then chain_sim (String.length b - 1) else 0%Q.

(** ** Concrete inputs *)

Module Fixture.
(** A stand-in embedding provider: a document's embedding is its first
    chunk, and the similarity of two embeddings is read from a table. *)
Definition emb : Type := string.

Definition encode (chunks : list string) : emb := default "" (head chunks).

Definition table : list (string * string * Q) :=
  [("alpha", "beta", 9 # 10); ("beta", "gamma", 8 # 10);
   ("alpha", "gamma", 3 # 10); ("alpha", "alpha", 1);
   ("delta", "delta", 96 # 100)]%Q.

Fixpoint lookup_sim (t : list (string * string * Q)) (a b : string) : Q :=
  match t with
  | [] => 0%Q
  | (x, y, s) :: t' =>
      if bool_decide (x = a /\ y = b) || bool_decide (x = b /\ y = a) then s
      else lookup_sim t' a b
  end.

Definition chunk_max_sim (a b : emb) : Q := lookup_sim table a b.

(** Iteration in insertion order. *)
Definition set_iter (l : list string) : list string := remove_dups l.

Definition docs_abc : dict document :=
  [("a.txt", Document "alpha" "docx");
   ("b.txt", Document "beta" "pdf");
   ("c.txt", Document "gamma" "docx")].

Definition docs_unknown : dict document :=
  [("u1.txt", Document "alpha" "unknown");
   ("u2.txt", Document "alpha" "unknown")].

Definition docs_same : dict document :=
  [("d1.txt", Document "delta" "docx");
   ("d2.txt", Document "delta" "docx")].

Definition embeddings (documents : dict document) : gmap string emb :=
  list_to_map (map (fun e => (fst e, encode [doc_text (snd e)])) documents).

Definition pair_xy : pair := Pair "X" "Y" "docx" "pdf" (9 # 10) "" "".

(** A folder of extracted text with two text files, one of which has a
    Word source. *)
Definition fs : filesystem :=
  Filesystem
    (fun folder =>
       if bool_decide (folder = "extracted_text")
       then Some ["a.txt"; "b.txt"; "notes.md"]
       else if bool_decide (folder = "word_files") then Some ["a.docx"; "z.docx"]
       else None)
    (fun path => Some "alpha").

(** The same with a single text file. *)
Definition fs_one : filesystem :=
  Filesystem
    (fun folder =>
       if bool_decide (folder = "extracted_text") then Some ["a.txt"] else None)
    (fun path => Some "alpha").

(** Three text files, each holding its own name as text, listed so that
    the retained pairs form a chain. *)
Definition fs_chain : filesystem :=
  Filesystem
    (fun folder =>
       if bool_decide (folder = "extracted_text")
       then Some ["gamma.txt"; "beta.txt"; "alpha.txt"]
       else None)
    (fun path =>
       if bool_decide (path = "extracted_text/gamma.txt") then Some "gamma"
       else if bool_decide (path = "extracted_text/beta.txt") then Some "beta"
       else if bool_decide (path = "extracted_text/alpha.txt") then Some "alpha"
       else None).

(** An environment in which no external call raises, with the recursion
    depth given. *)
Definition quiet (depth : nat) : runtime := Runtime (fun _ => false) depth.

(** The same with a provider that fails on the document [name]. *)
Definition provider_fails (name : string) (depth : nat) : runtime :=
  Runtime (fun c => match c with
                    | Encode n => bool_decide (n = name)
                    | _ => false
                    end) depth.
End Fixture.

(** A forest with the chain a, b, c under the representative c, and d on
    its own. *)
Module Forest.
Definition parent : gmap string string :=
  list_to_map [("a", "b"); ("b", "c"); ("c", "c"); ("d", "d")].

(** The height of a document above the leaves of the forest. *)
Definition height (x : string) : nat :=
  if decide (x = "a") then 0%nat else if decide (x = "b") then 1%nat else 2%nat.
End Forest.

(** ** Tactics *)

(** Case analysis on the comparisons of rationals in the goal. *)
Ltac case_Qle_bool :=
  repeat match goal with
         | |- context [Qle_bool ?a ?b] =>
             let H := fresh "Hq" in
             destruct (Qle_bool a b) eqn:H;
             [apply Qle_bool_iff in H
             |apply not_true_iff_false in H; rewrite Qle_bool_iff in H]
         end.

(** Case analysis on the comparisons of integers in the goal and the
    hypotheses. *)
Ltac case_ltb :=
  repeat match goal with
         | |- context [?a <? ?b] => destruct (Z.ltb_spec a b)
         | H : context [?a <? ?b] |- _ => destruct (Z.ltb_spec a b)
         end.

(** * Properties *)

(** ** The model on concrete inputs *)

Example chunk_text_ex1 :
  chunk_text 8 "a b c d e f g h" 5 4 =
  Some ["a b c d e"; "b c d e f"; "c d e f g"; "d e f g h"; "e f g h"; "f g h"; "g h"; "h"].
Proof. reflexivity. Qed.

Example chunk_text_ex2 : chunk_text 0 "  a  b " 5 4 = Some ["  a  b "].
Proof. reflexivity. Qed.

(** A negative overlap makes the window skip words. *)
Example chunk_text_ex3 : chunk_text 5 "a b c d e" 2 (-1) = Some ["a b"; "d e"].
Proof. reflexivity. Qed.

Example split_ex : Py.split "  hello   wide world " = ["hello"; "wide"; "world"].
Proof. reflexivity. Qed.

Example splitext_ex :
  Py.splitext_root "report.final.txt" = "report.final" /\
  Py.splitext_root ".hidden" = ".hidden" /\
  Py.splitext_root "notes" = "notes".
Proof. repeat split; reflexivity. Qed.

Example strip_ex : Py.strip "  docx " = "docx" /\ Py.split_on "," "docx, pdf" = ["docx"; " pdf"].
Proof. split; reflexivity. Qed.

Example pair_key_ex :
  pair_key "b" "a" = ("a", "b") /\ Py.sorted ["b"; "a"] = ["a"; "b"] /\
  Py.sorted ["a"; "b"] = ["a"; "b"].
Proof. repeat split; reflexivity. Qed.

Example round4_ex :
  (round4 (123456 # 100000) == 12346 # 10000)%Q /\
  (round4 (94996 # 100000) == 95 # 100)%Q.
Proof. split; reflexivity. Qed.

(** The level of a pair is the tier of the similarity before rounding. *)
Example pair_level_unrounded_ex :
  let pd := make_pair_data ∅ (Pair "a" "b" "docx" "pdf" (94996 # 100000) "" "") in
  (pd_similarity pd == 95 # 100)%Q /\ pd_level pd = "high".
Proof. split; reflexivity. Qed.

Example find_similar_pairs_ex :
  find_similar_pairs Fixture.chunk_max_sim (Fixture.embeddings Fixture.docs_abc)
    Fixture.docs_abc default_threshold "all" None =
  Some [Pair "a.txt" "b.txt" "docx" "pdf" (9 # 10) "alpha" "beta";
        Pair "b.txt" "c.txt" "pdf" "docx" (8 # 10) "beta" "gamma"].
Proof. vm_compute. reflexivity. Qed.

(** Documents A, B, C with sim(A,B) = 0.9, sim(B,C) = 0.8, sim(A,C) = 0.3:
    one cluster of the three, the average taken over the two retained
    pairs. *)
Example scenario_2 :
  exists c,
    (found ← find_similar_pairs Fixture.chunk_max_sim
               (Fixture.embeddings Fixture.docs_abc) Fixture.docs_abc
               default_threshold "all" None;
     group_similar_documents Fixture.set_iter 3 (sort_pairs found)) = Some [c] /\
    members c = ["a.txt"; "b.txt"; "c.txt"] /\ size c = 3 /\
    (avg_similarity c == 85 # 100)%Q /\ (max_similarity c == 9 # 10)%Q.
Proof. eexists. vm_compute. repeat split; try reflexivity; discriminate. Qed.

Example load_all_documents_ex :
  load_all_documents Fixture.fs "extracted_text" =
  Some [("a.txt", Document "alpha" "docx"); ("b.txt", Document "alpha" "unknown")].
Proof. reflexivity. Qed.

(** A run from the file system on: the two files hold the same text, one is
    of unknown type, and the report holds their pair and their cluster. *)
Example main_ex :
  exists sim avg mx,
    main Fixture.encode Fixture.chunk_max_sim Fixture.set_iter (Fixture.quiet 1000) Fixture.fs None "1" "" =
    Report (Results (Settings default_threshold "all" None 2)
              [PairData "a.txt" "b.txt" "docx" "unknown" sim "very_high" true [] []]
              [ClusterData 1 2 avg mx "high"
                 [MemberData "a.txt" "docx" []; MemberData "b.txt" "unknown" []]]) /\
    (sim == 1)%Q /\ (avg == 1)%Q /\ (mx == 1)%Q.
Proof. eexists _, _, _. split; [vm_compute; reflexivity|]. repeat split. Qed.

Example main_no_folder_ex :
  main Fixture.encode Fixture.chunk_max_sim Fixture.set_iter
    (Fixture.quiet 1000) (Filesystem (fun _ => None) (fun _ => None)) None "1" "" = NoReport.
Proof. reflexivity. Qed.

(** ** Pair filter and scanner *)

Section ScannerFacts.
Context {Emb : Type} (chunk_max_sim : Emb -> Emb -> Q).
Implicit Types (doc_embeddings : gmap string Emb) (documents : dict document).

(** A pair the inner loop retains comes from one iteration that did. *)
Lemma scan_row_elem doc_embeddings threshold mode sel di rest ps p :
  scan_row chunk_max_sim doc_embeddings threshold mode sel di rest = Some ps ->
  p ∈ ps ->
  exists dj, dj ∈ rest /\
    compare_docs chunk_max_sim doc_embeddings threshold mode sel di dj = Some (Some p).
Proof.
  revert ps. induction rest as [|dj rest IH]; simpl; intros ps Hs Hp.
  - inversion Hs; subst. by apply not_elem_of_nil in Hp.
  - destruct (compare_docs _ _ _ _ _ di dj) as [r|] eqn:Hc; [|done].
    destruct (scan_row _ _ _ _ _ di rest) as [ps'|] eqn:Hr; [|done].
    inversion Hs; subst; clear Hs.
    destruct r as [q|].
    + apply elem_of_cons in Hp as [->|Hp].
      * exists dj. split; [left|done].
      * destruct (IH ps' eq_refl Hp) as (dk & ? & ?). exists dk. split; [by right|done].
    + destruct (IH ps' eq_refl Hp) as (dk & ? & ?). exists dk. split; [by right|done].
Qed.

(** A retained pair comes from two documents of the set, the first
    listed before the second. *)
Lemma find_similar_pairs_elem doc_embeddings documents threshold mode sel ps p :
  find_similar_pairs chunk_max_sim doc_embeddings documents threshold mode sel = Some ps ->
  p ∈ ps ->
  exists l1 di l2 dj l3, documents = l1 ++ di :: l2 ++ dj :: l3 /\
    compare_docs chunk_max_sim doc_embeddings threshold mode sel di dj = Some (Some p).
Proof.
  revert ps. induction documents as [|di rest IH]; simpl; intros ps Hs Hp.
  - inversion Hs; subst. by apply not_elem_of_nil in Hp.
  - destruct (scan_row _ _ _ _ _ di rest) as [row|] eqn:Hr; [|done].
    destruct (find_similar_pairs _ _ rest _ _ _) as [ps'|] eqn:Hf; [|done].
    inversion Hs; subst; clear Hs.
    apply elem_of_app in Hp as [Hp|Hp].
    + destruct (scan_row_elem _ _ _ _ _ _ _ _ Hr Hp) as (dj & Hin & Hc).
      apply list_elem_of_split in Hin as (l2 & l3 & ->).
      by exists [], di, l2, dj, l3.
    + destruct (IH ps' eq_refl Hp) as (l1 & dk & l2 & dj & l3 & -> & Hc).
      by exists (di :: l1), dk, l2, dj, l3.
Qed.

(** What one iteration retains. *)
Lemma compare_docs_some doc_embeddings threshold mode sel di dj p :
  compare_docs chunk_max_sim doc_embeddings threshold mode sel di dj = Some (Some p) ->
  candidate mode sel (doc_type (snd di)) (doc_type (snd dj)) = true /\
  doc1 p = fst di /\ doc2 p = fst dj /\
  type1 p = doc_type (snd di) /\ type2 p = doc_type (snd dj) /\
  (threshold <= similarity p)%Q /\
  exists ei ej, doc_embeddings !! fst di = Some ei /\
                doc_embeddings !! fst dj = Some ej /\
                similarity p = chunk_max_sim ei ej.
Proof.
  destruct di as [ni di], dj as [nj dj]; simpl.
  destruct (candidate _ _ _ _); [|done].
  destruct (doc_embeddings !! ni) as [ei|] eqn:Hi; [|done].
  destruct (doc_embeddings !! nj) as [ej|] eqn:Hj; [|done].
  destruct (Qle_bool threshold (chunk_max_sim ei ej)) eqn:Hq; [|done].
  intros [= <-]; simpl. apply Qle_bool_iff in Hq.
  repeat split; try done. by exists ei, ej.
Qed.

(** With every embedding present the scan raises nothing. *)
Lemma scan_row_total doc_embeddings threshold mode sel di rest :
  is_Some (doc_embeddings !! fst di) ->
  (forall dj, dj ∈ rest -> is_Some (doc_embeddings !! fst dj)) ->
  is_Some (scan_row chunk_max_sim doc_embeddings threshold mode sel di rest).
Proof.
  intros [ei Hi]. induction rest as [|dj rest IH]; simpl; intros Hall; [done|].
  destruct (Hall dj) as [ej Hj]; [left|].
  destruct IH as [ps ->]; [intros; apply Hall; by right|].
  destruct di as [ni di], dj as [nj dj]; simpl in *.
  destruct (candidate _ _ _ _); [|done].
  rewrite Hi, Hj. by destruct (Qle_bool _ _).
Qed.

Lemma find_similar_pairs_total doc_embeddings documents threshold mode sel :
  (forall d, d ∈ documents -> is_Some (doc_embeddings !! fst d)) ->
  is_Some (find_similar_pairs chunk_max_sim doc_embeddings documents threshold mode sel).
Proof.
  induction documents as [|di rest IH]; simpl; intros Hall; [done|].
  destruct (scan_row_total doc_embeddings threshold mode sel di rest) as [row ->].
  { apply Hall. left. } { intros; apply Hall; by right. }
  destruct IH as [ps ->]; [intros; apply Hall; by right|]. done.
Qed.

(** A pair of documents that passes the filter and reaches the threshold
    is retained. *)
Lemma scan_row_retains doc_embeddings threshold mode sel di rest ps dj p :
  scan_row chunk_max_sim doc_embeddings threshold mode sel di rest = Some ps ->
  dj ∈ rest ->
  compare_docs chunk_max_sim doc_embeddings threshold mode sel di dj = Some (Some p) ->
  p ∈ ps.
Proof.
  revert ps. induction rest as [|dk rest IH]; simpl; intros ps Hs Hin Hc.
  - by apply not_elem_of_nil in Hin.
  - destruct (compare_docs _ _ _ _ _ di dk) as [r|] eqn:Hk; [|done].
    destruct (scan_row _ _ _ _ _ di rest) as [ps'|] eqn:Hr; [|done].
    inversion Hs; subst; clear Hs.
    apply elem_of_cons in Hin as [->|Hin].
    + rewrite Hc in Hk. inversion Hk; subst. left.
    + specialize (IH ps' eq_refl Hin Hc). destruct r; [by right|done].
Qed.

Lemma find_similar_pairs_retains doc_embeddings threshold mode sel l1 di l2 dj l3 ps p :
  find_similar_pairs chunk_max_sim doc_embeddings (l1 ++ di :: l2 ++ dj :: l3)
    threshold mode sel = Some ps ->
  compare_docs chunk_max_sim doc_embeddings threshold mode sel di dj = Some (Some p) ->
  p ∈ ps.
Proof.
  revert ps. induction l1 as [|d l1 IH]; simpl; intros ps Hs Hc.
  - destruct (scan_row _ _ _ _ _ di _) as [row|] eqn:Hr; [|done].
    destruct (find_similar_pairs _ _ _ _ _ _) as [ps'|]; [|done].
    inversion Hs; subst. apply elem_of_app. left.
    eapply scan_row_retains; [exact Hr| |exact Hc].
    apply elem_of_app. right. left.
  - destruct (scan_row _ _ _ _ _ d _) as [row|]; [|done].
    destruct (find_similar_pairs _ _ _ _ _ _) as [ps'|] eqn:Hf; [|done].
    inversion Hs; subst. apply elem_of_app. right. by apply IH.
Qed.

Lemma candidate_all sel t1 t2 : candidate "all" sel t1 t2 = true.
Proof. reflexivity. Qed.
End ScannerFacts.

Section ScannerClaims.
Context {Emb : Type} (chunk_max_sim : Emb -> Emb -> Q).
Implicit Types (doc_embeddings : gmap string Emb) (documents : dict document).

Lemma candidate_same_type sel t1 t2 :
  candidate "same_type" sel t1 t2 = true -> t1 = t2.
Proof.
  unfold candidate. simpl. case_bool_decide as Ht; simpl; [done|discriminate].
Qed.

Lemma candidate_select s t1 t2 :
  s <> [] -> candidate "select" (Some s) t1 t2 = true ->
  t1 ∈ s /\ t2 ∈ s /\ t1 <> t2.
Proof.
  intros Hs. unfold candidate. simpl.
  destruct s as [|t s]; [done|]. simpl.
  repeat case_bool_decide; simpl; try discriminate. done.
Qed.

Lemma compare_docs_mode_eq doc_embeddings threshold mode sel mode' sel' di dj :
  candidate mode sel (doc_type (snd di)) (doc_type (snd dj)) =
  candidate mode' sel' (doc_type (snd di)) (doc_type (snd dj)) ->
  compare_docs chunk_max_sim doc_embeddings threshold mode sel di dj =
  compare_docs chunk_max_sim doc_embeddings threshold mode' sel' di dj.
Proof. destruct di, dj; simpl. by intros ->. Qed.

Lemma scan_row_mode_eq doc_embeddings threshold mode sel mode' sel' di rest :
  (forall t1 t2, candidate mode sel t1 t2 = candidate mode' sel' t1 t2) ->
  scan_row chunk_max_sim doc_embeddings threshold mode sel di rest =
  scan_row chunk_max_sim doc_embeddings threshold mode' sel' di rest.
Proof.
  intros Hc. induction rest as [|dj rest IH]; simpl; [done|].
  rewrite (compare_docs_mode_eq _ _ mode sel mode' sel') by apply Hc.
  by rewrite IH.
Qed.

Lemma find_similar_pairs_mode_eq doc_embeddings documents threshold mode sel mode' sel' :
  (forall t1 t2, candidate mode sel t1 t2 = candidate mode' sel' t1 t2) ->
  find_similar_pairs chunk_max_sim doc_embeddings documents threshold mode sel =
  find_similar_pairs chunk_max_sim doc_embeddings documents threshold mode' sel'.
Proof.
  intros Hc. induction documents as [|di rest IH]; simpl; [done|].
  rewrite (scan_row_mode_eq _ _ mode sel mode' sel') by apply Hc.
  by rewrite IH.
Qed.

(** Two documents that pass the mode filter, have embeddings and reach
    the threshold give a retained pair. *)
Lemma candidate_retained doc_embeddings threshold mode sel
    l1 ni di l2 nj dj l3 ei ej ps :
  candidate mode sel (doc_type di) (doc_type dj) = true ->
  doc_embeddings !! ni = Some ei -> doc_embeddings !! nj = Some ej ->
  (threshold <= chunk_max_sim ei ej)%Q ->
  find_similar_pairs chunk_max_sim doc_embeddings
    (l1 ++ (ni, di) :: l2 ++ (nj, dj) :: l3) threshold mode sel = Some ps ->
  Pair ni nj (doc_type di) (doc_type dj) (chunk_max_sim ei ej)
       (Py.prefix_str 100 (doc_text di)) (Py.prefix_str 100 (doc_text dj)) ∈ ps.
Proof.
  intros Hc Hi Hj Hq Hf.
  eapply find_similar_pairs_retains; [exact Hf|].
  simpl. rewrite Hc, Hi, Hj.
  apply Qle_bool_iff in Hq. by rewrite Hq.
Qed.

(** C4, as amended. Under mode [same_type] every retained pair has equal
    types. Under mode [select] with a non-empty list of selected types
    every retained pair has both types in the list and the two types
    differ; so when the selected types are exactly docx and pdf, a
    retained pair has one docx and one pdf member. *)
Theorem C4_mode_filtering doc_embeddings documents threshold mode sel ps p :
  find_similar_pairs chunk_max_sim doc_embeddings documents threshold mode sel
    = Some ps ->
  p ∈ ps ->
  (mode = "same_type" -> type1 p = type2 p) /\
  (forall s, mode = "select" -> sel = Some s -> s <> [] ->
     type1 p ∈ s /\ type2 p ∈ s /\ type1 p <> type2 p) /\
  (forall s, mode = "select" -> sel = Some s ->
     (forall t, t ∈ s <-> t = "docx" \/ t = "pdf") ->
     (type1 p = "docx" /\ type2 p = "pdf") \/
     (type1 p = "pdf" /\ type2 p = "docx")).
Proof.
  intros Hf Hp.
  destruct (find_similar_pairs_elem _ _ _ _ _ _ _ _ Hf Hp)
    as (l1 & di & l2 & dj & l3 & _ & Hc).
  apply compare_docs_some in Hc as (Hcand & _ & _ & -> & -> & _).
  assert (Hsel : forall s, mode = "select" -> sel = Some s -> s <> [] ->
            doc_type (snd di) ∈ s /\ doc_type (snd dj) ∈ s /\
            doc_type (snd di) <> doc_type (snd dj)).
  { intros s -> -> Hs. by apply candidate_select. }
  split; [|split].
  - intros ->. by eapply candidate_same_type.
  - exact Hsel.
  - intros s Hm Hs Hdp.
    destruct (Hsel s Hm Hs) as (H1 & H2 & Hne).
    { intros ->. specialize (Hdp "docx"). rewrite elem_of_nil in Hdp.
      apply Hdp. by left. }
    apply Hdp in H1. apply Hdp in H2.
    destruct H1 as [E1|E1], H2 as [E2|E2]; rewrite E1, E2 in Hne |- *; auto; done.
Qed.

(** C8, as amended. A document typed "unknown" is a candidate in an
    [all]-mode comparison with any other document, and under [same_type]
    two documents both typed "unknown" are a candidate pair like any two
    documents of one type: in both cases the pair is retained when its
    similarity reaches the threshold. *)
Theorem C8_unknown_documents doc_embeddings threshold mode sel
    l1 ni di l2 nj dj l3 ei ej ps :
  (mode = "all" /\ (doc_type di = "unknown" \/ doc_type dj = "unknown")) \/
  (mode = "same_type" /\ doc_type di = "unknown" /\ doc_type dj = "unknown") ->
  doc_embeddings !! ni = Some ei -> doc_embeddings !! nj = Some ej ->
  (threshold <= chunk_max_sim ei ej)%Q ->
  find_similar_pairs chunk_max_sim doc_embeddings
    (l1 ++ (ni, di) :: l2 ++ (nj, dj) :: l3) threshold mode sel = Some ps ->
  exists p, p ∈ ps /\ doc1 p = ni /\ doc2 p = nj /\
    type1 p = doc_type di /\ type2 p = doc_type dj /\
    similarity p = chunk_max_sim ei ej.
Proof.
  intros Hm Hi Hj Hq Hf.
  eexists. split.
  - eapply candidate_retained; [|exact Hi|exact Hj|exact Hq|exact Hf].
    destruct Hm as [[-> _]|(-> & -> & ->)]; reflexivity.
  - done.
Qed.

(** C10. Under mode [select] with the selected types [None] or empty no
    type filter is applied: the retained pairs are those of mode [all] for
    the same documents, embeddings and threshold. *)
Theorem C10_select_without_types doc_embeddings documents threshold sel sel' :
  sel = None \/ sel = Some [] ->
  find_similar_pairs chunk_max_sim doc_embeddings documents threshold "select" sel =
  find_similar_pairs chunk_max_sim doc_embeddings documents threshold "all" sel'.
Proof.
  intros Hs. apply find_similar_pairs_mode_eq. intros t1 t2.
  rewrite candidate_all. destruct Hs as [-> | ->]; reflexivity.
Qed.
End ScannerClaims.

(** C4 as stated fails for an empty selection: the two docx documents are
    retained under [select] although no type is selected. *)
Lemma C4_counterexample :
  exists p,
    find_similar_pairs Fixture.chunk_max_sim (Fixture.embeddings Fixture.docs_same)
      Fixture.docs_same default_threshold "select" (Some []) = Some [p] /\
    ~ (type1 p ∈ @nil string /\ type2 p ∈ @nil string /\ type1 p <> type2 p).
Proof.
  eexists. split; [vm_compute; reflexivity|].
  intros (H & _). by apply not_elem_of_nil in H.
Qed.

Lemma C4_witness :
  let p := Pair "a.txt" "b.txt" "docx" "pdf" (9 # 10) "alpha" "beta" in
  let q := Pair "b.txt" "c.txt" "pdf" "docx" (8 # 10) "beta" "gamma" in
  find_similar_pairs Fixture.chunk_max_sim (Fixture.embeddings Fixture.docs_abc)
    Fixture.docs_abc default_threshold "select" (Some ["docx"; "pdf"]) = Some [p; q] /\
  ((type1 p = "docx" /\ type2 p = "pdf") \/ (type1 p = "pdf" /\ type2 p = "docx")).
Proof.
  intros p q.
  assert (Hf : find_similar_pairs Fixture.chunk_max_sim
                 (Fixture.embeddings Fixture.docs_abc) Fixture.docs_abc
                 default_threshold "select" (Some ["docx"; "pdf"]) = Some [p; q])
    by (vm_compute; reflexivity).
  split; [exact Hf|].
  refine (proj2 (proj2 (C4_mode_filtering _ _ _ _ _ _ _ p Hf _)) ["docx"; "pdf"]
            eq_refl eq_refl _).
  - left.
  - intros t. rewrite !elem_of_cons, elem_of_nil. tauto.
Defined.

(** C8 as stated fails: under [same_type] two documents both typed
    "unknown" are compared and retained. *)
Lemma C8_counterexample :
  exists p,
    find_similar_pairs Fixture.chunk_max_sim (Fixture.embeddings Fixture.docs_unknown)
      Fixture.docs_unknown default_threshold "same_type" None = Some [p] /\
    type1 p = "unknown" /\ type2 p = "unknown".
Proof. eexists. split; [vm_compute; reflexivity|]. done. Qed.

Lemma C8_witness :
  exists p,
    p ∈ [Pair "u1.txt" "u2.txt" "unknown" "unknown" 1 "alpha" "alpha"] /\
    doc1 p = "u1.txt" /\ doc2 p = "u2.txt" /\
    type1 p = "unknown" /\ type2 p = "unknown" /\ similarity p = 1%Q.
Proof.
  apply (C8_unknown_documents Fixture.chunk_max_sim
           (Fixture.embeddings Fixture.docs_unknown) default_threshold
           "same_type" None
           [] "u1.txt" (Document "alpha" "unknown")
           [] "u2.txt" (Document "alpha" "unknown") [] "alpha" "alpha").
  - right. done.
  - reflexivity.
  - reflexivity.
  - vm_compute. discriminate.
  - vm_compute. reflexivity.
Defined.

Lemma C10_witness :
  find_similar_pairs Fixture.chunk_max_sim (Fixture.embeddings Fixture.docs_abc)
    Fixture.docs_abc default_threshold "select" None =
  find_similar_pairs Fixture.chunk_max_sim (Fixture.embeddings Fixture.docs_abc)
    Fixture.docs_abc default_threshold "all" None.
Proof.
  apply (C10_select_without_types Fixture.chunk_max_sim
           (Fixture.embeddings Fixture.docs_abc) Fixture.docs_abc
           default_threshold None None).
  left. reflexivity.
Defined.

(** ** The number of retained pairs *)

Section ScannerCount.
Context {Emb : Type} (chunk_max_sim : Emb -> Emb -> Q).
Implicit Types (doc_embeddings : gmap string Emb) (documents : dict document).

Lemma scan_row_length doc_embeddings threshold mode sel di rest row :
  scan_row chunk_max_sim doc_embeddings threshold mode sel di rest = Some row ->
  (length row <= length rest)%nat /\
  (mode = "all" -> (forall e1 e2, (threshold <= chunk_max_sim e1 e2)%Q) ->
   length row = length rest).
Proof.
  revert row. induction rest as [|[nj dj] rest IH]; intros row; simpl.
  - intros [= <-]. done.
  - destruct di as [ni di].
    destruct (compare_docs _ _ _ _ _ (ni, di) (nj, dj)) as [r|] eqn:Hc; [|done].
    destruct (scan_row _ _ _ _ _ (ni, di) rest) as [row'|] eqn:Hr; [|done].
    destruct (IH row' eq_refl) as [Hle Heq]. intros [= <-]. split.
    + destruct r; simpl; lia.
    + intros -> Hall. specialize (Heq eq_refl Hall). destruct r; simpl; [lia|].
      exfalso. simpl in Hc.
      destruct (doc_embeddings !! ni) as [ei|]; [|done].
      destruct (doc_embeddings !! nj) as [ej|]; [|done].
      specialize (Hall ei ej). apply Qle_bool_iff in Hall. by rewrite Hall in Hc.
Qed.

(** Every two documents are compared once. *)
Lemma find_similar_pairs_length doc_embeddings documents threshold mode sel ps :
  find_similar_pairs chunk_max_sim doc_embeddings documents threshold mode sel
    = Some ps ->
  (2 * length ps <= length documents * (length documents - 1))%nat.
Proof.
  revert ps. induction documents as [|di rest IH]; intros ps; simpl.
  - intros [= <-]. simpl. lia.
  - destruct (scan_row _ _ _ _ _ di rest) as [row|] eqn:Hr; [|done].
    destruct (find_similar_pairs _ _ rest _ _ _) as [ps'|] eqn:Hf; [|done].
    pose proof (IH ps' eq_refl) as Hle.
    destruct (scan_row_length _ _ _ _ _ _ _ Hr) as [Hrle _].
    intros [= <-]. rewrite length_app, Nat.sub_0_r. nia.
Qed.
End ScannerCount.

(** ** Report builder *)

Lemma pair_level_tier4 s : tier4 s (pair_level s).
Proof.
  unfold tier4, pair_level. case_Qle_bool; repeat split; intros;
    try reflexivity; exfalso; lra.
Qed.

Lemma cluster_level_tier3 s : tier3 s (cluster_level s).
Proof.
  unfold tier3, cluster_level. case_Qle_bool; repeat split; intros;
    try reflexivity; exfalso; lra.
Qed.

(** The cluster entries of the report follow the clusters one by one. *)
Lemma make_clusters_levels documents metadata i clusters cds :
  make_clusters documents metadata i clusters = Some cds ->
  Forall2 (fun c cd =>
             cd_size cd = size c /\
             map md_filename (cd_members cd) = members c /\
             cd_avg_similarity cd = round4 (avg_similarity c) /\
             cd_max_similarity cd = round4 (max_similarity c) /\
             cd_level cd = cluster_level (avg_similarity c))
          clusters cds.
Proof.
  revert i cds. induction clusters as [|c cs IH]; simpl; intros i cds H.
  - inversion H. constructor.
  - destruct (make_members documents metadata (members c)) as [mds|] eqn:Hm; [|done].
    destruct (make_clusters documents metadata (i + 1) cs) as [rest|] eqn:Hr; [|done].
    inversion H; subst; clear H. constructor; [|by eapply IH].
    simpl. repeat split; try done.
    clear -Hm. revert mds Hm. induction (members c) as [|m ms IHm]; simpl; intros mds Hm.
    + by inversion Hm.
    + destruct (dict_get documents m); [|done].
      destruct (make_members documents metadata ms) as [r|]; [|done].
      inversion Hm; subst; simpl. f_equal. by apply IHm.
Qed.

Section ReportFacts.
Context {Emb : Type}.
Variable encode : list string -> Emb.
Variable chunk_max_sim : Emb -> Emb -> Q.
Variable set_iter : list string -> list string.
Variable rt : runtime.

(** The parts a report is assembled from. *)
Lemma run_documents_report metadata documents choice_line types_line r :
  run_documents encode chunk_max_sim set_iter rt metadata documents
    choice_line types_line = Report r ->
  exists doc_embeddings found clusters,
    2 <= Py.len documents /\
    embed_all encode rt documents ∅ = Some doc_embeddings /\
    find_similar_pairs chunk_max_sim doc_embeddings documents default_threshold
      (fst (choose_mode choice_line types_line))
      (snd (choose_mode choice_line types_line)) = Some found /\
    (sort_pairs found = [] /\ clusters = [] \/
     sort_pairs found <> [] /\
     group_similar_documents set_iter (recursion_limit rt)
       (sort_pairs found) = Some clusters) /\
    r_pairs r = map (make_pair_data metadata) (sort_pairs found) /\
    make_clusters documents metadata 1 clusters = Some (r_clusters r).
Proof.
  unfold run_documents.
  destruct (Py.len documents <? 2) eqn:Hlen; [done|].
  apply Z.ltb_ge in Hlen.
  destruct (raises rt ReadChoice); [done|].
  destruct (bool_decide (Py.strip choice_line = "3") && raises rt ReadTypes); [done|].
  destruct (choose_mode choice_line types_line) as [mode sel]; simpl.
  destruct (raises rt LoadModel); [done|].
  destruct (embed_all encode rt documents ∅) as [emb|] eqn:He; [|done].
  destruct (find_similar_pairs _ _ _ _ _ _) as [found|] eqn:Hf; [|done].
  destruct (sort_pairs found) as [|p ps] eqn:Hs.
  - destruct (raises rt WriteReport); [done|].
    intros [= <-]; simpl. exists emb, found, [].
    do 3 (split; [assumption || done|]). rewrite Hs. split; [by left|]. done.
  - destruct (group_similar_documents _ _ _) as [clusters|] eqn:Hg; [|done].
    destruct (make_clusters _ _ _ _) as [cds|] eqn:Hm; [|done].
    destruct (raises rt WriteReport); [done|].
    intros [= <-]; simpl. exists emb, found, clusters.
    do 3 (split; [assumption || done|]). rewrite Hs.
    split; [right; split; [done|exact Hg]|]. done.
Qed.

(** A run that made its results folder and loaded its metadata and its
    documents is the rest of the run on them. *)
Lemma main_loaded fs metadata_json choice_line types_line documents :
  load_all_documents fs "extracted_text" = Some documents ->
  raises rt MakeResultsFolder = false ->
  (is_Some metadata_json -> raises rt LoadMetadata = false) ->
  main encode chunk_max_sim set_iter rt fs metadata_json choice_line types_line =
  run_documents encode chunk_max_sim set_iter rt (default ∅ metadata_json) documents
    choice_line types_line.
Proof.
  unfold main. intros Hl Hmk Hmd. rewrite Hl, Hmk.
  unfold load_all_documents in Hl.
  destruct (listdir fs "extracted_text"); [|done].
  case_bool_decide as Hs; simpl; [|done]. by rewrite (Hmd Hs).
Qed.

Lemma main_report fs metadata_json choice_line types_line r :
  main encode chunk_max_sim set_iter rt fs metadata_json choice_line types_line
    = Report r ->
  exists documents,
    load_all_documents fs "extracted_text" = Some documents /\
    run_documents encode chunk_max_sim set_iter rt (default ∅ metadata_json) documents
      choice_line types_line = Report r.
Proof.
  unfold main. destruct (listdir fs "extracted_text"); [|done].
  destruct (raises rt MakeResultsFolder); [done|].
  destruct (bool_decide (is_Some metadata_json) && raises rt LoadMetadata); [done|].
  destruct (load_all_documents fs "extracted_text") as [documents|]; [|done].
  intros H. by exists documents.
Qed.

(** C5, as amended. In the report every pair carries the tier of its
    similarity, as the scanner computed it and before it is rounded, by
    the four breakpoints: "very_high" from 0.95, "high" from 0.85,
    "medium" from 0.7, else "low". Every cluster carries the tier of its
    average similarity, as the clustering computed it, by three
    breakpoints: "high" from 0.85, "medium" from 0.7, else "low"; a
    cluster is never "very_high". The pairs are those the scanner retained
    on the loaded documents, sorted, and the clusters those the clustering
    returned on them. *)
Theorem C5_report_tiers fs metadata_json choice_line types_line r :
  main encode chunk_max_sim set_iter rt fs metadata_json choice_line types_line
    = Report r ->
  exists documents doc_embeddings found clusters,
    load_all_documents fs "extracted_text" = Some documents /\
    embed_all encode rt documents ∅ = Some doc_embeddings /\
    find_similar_pairs chunk_max_sim doc_embeddings documents default_threshold
      (fst (choose_mode choice_line types_line))
      (snd (choose_mode choice_line types_line)) = Some found /\
    (sort_pairs found = [] /\ clusters = [] \/
     sort_pairs found <> [] /\
     group_similar_documents set_iter (recursion_limit rt)
       (sort_pairs found) = Some clusters) /\
    Forall2 (fun p pd =>
               pd_doc1 pd = doc1 p /\ pd_doc2 pd = doc2 p /\
               pd_similarity pd = round4 (similarity p) /\
               tier4 (similarity p) (pd_level pd))
            (sort_pairs found) (r_pairs r) /\
    Forall2 (fun c cd =>
               map md_filename (cd_members cd) = members c /\
               cd_avg_similarity cd = round4 (avg_similarity c) /\
               tier3 (avg_similarity c) (cd_level cd) /\
               cd_level cd <> "very_high")
            clusters (r_clusters r).
Proof.
  intros (documents & Hload & H)%main_report.
  apply run_documents_report in H
    as (emb & found & clusters & _ & He & Hf & Hg & Hp & Hc).
  exists documents, emb, found, clusters.
  do 4 (split; [done|]). split.
  - rewrite Hp. apply Forall2_fmap_r, Forall_Forall2_diag, Forall_forall.
    intros p _. simpl. do 3 (split; [done|]). apply pair_level_tier4.
  - apply make_clusters_levels in Hc.
    eapply Forall2_impl; [exact Hc|]. simpl.
    intros c cd (_ & Hm & Ha & _ & Hl). do 2 (split; [done|]). split.
    + rewrite Hl. apply cluster_level_tier3.
    + rewrite Hl. unfold cluster_level.
      destruct (Qle_bool _ _); [done|]. by destruct (Qle_bool _ _).
Qed.
End ReportFacts.

(** C5 as stated fails for clusters: two documents with the same text have
    similarity 1 and form a cluster whose average is 1, and its tier in the
    report is "high". *)
Lemma C5_counterexample :
  exists r cd,
    main Fixture.encode Fixture.chunk_max_sim Fixture.set_iter (Fixture.quiet 1000)
      Fixture.fs None "1" "" = Report r /\
    r_clusters r = [cd] /\
    (95 # 100 <= cd_avg_similarity cd)%Q /\
    cd_level cd = "high" /\ cd_level cd <> "very_high".
Proof.
  eexists _, _. split; [vm_compute; reflexivity|].
  split; [reflexivity|]. split; [|split]; [discriminate|reflexivity|discriminate].
Qed.

Lemma C5_witness :
  exists r documents doc_embeddings found clusters,
    main Fixture.encode Fixture.chunk_max_sim Fixture.set_iter (Fixture.quiet 1000)
      Fixture.fs None "1" "" = Report r /\
    load_all_documents Fixture.fs "extracted_text" = Some documents /\
    embed_all Fixture.encode (Fixture.quiet 1000) documents ∅ = Some doc_embeddings /\
    find_similar_pairs Fixture.chunk_max_sim doc_embeddings documents
      default_threshold "all" None = Some found /\
    length (r_pairs r) = 1%nat /\ length (r_clusters r) = 1%nat /\
    Forall2 (fun p pd =>
               pd_doc1 pd = doc1 p /\ pd_doc2 pd = doc2 p /\
               pd_similarity pd = round4 (similarity p) /\
               tier4 (similarity p) (pd_level pd))
            (sort_pairs found) (r_pairs r) /\
    Forall2 (fun c cd =>
               map md_filename (cd_members cd) = members c /\
               cd_avg_similarity cd = round4 (avg_similarity c) /\
               tier3 (avg_similarity c) (cd_level cd) /\
               cd_level cd <> "very_high")
            clusters (r_clusters r).
Proof.
  assert (Hm : exists r,
            main Fixture.encode Fixture.chunk_max_sim Fixture.set_iter
              (Fixture.quiet 1000) Fixture.fs None "1" "" = Report r /\
            length (r_pairs r) = 1%nat /\ length (r_clusters r) = 1%nat).
  { eexists. split; [vm_compute; reflexivity|]. split; reflexivity. }
  destruct Hm as (r & Hm & Hp & Hc).
  destruct (C5_report_tiers Fixture.encode Fixture.chunk_max_sim Fixture.set_iter
              (Fixture.quiet 1000) Fixture.fs None "1" "" r Hm)
    as (documents & emb & found & clusters & Hl & He & Hf & _ & H1 & H2).
  exists r, documents, emb, found, clusters.
  split; [exact Hm|]. split; [exact Hl|]. split; [exact He|]. split; [exact Hf|].
  split; [exact Hp|]. split; [exact Hc|]. split; [exact H1|exact H2].
Defined.

(** ** Chunker *)

(** *** Words and their round trip through [join] and [split] *)

Lemma append_cons c (a b : string) : String c a +:+ b = String c (a +:+ b).
Proof. reflexivity. Qed.

Lemma append_nil_l (s : string) : EmptyString +:+ s = s.
Proof. reflexivity. Qed.

Lemma snoc_not_empty cur c : Py.snoc cur c <> EmptyString.
Proof. destruct cur; unfold Py.snoc; [rewrite append_nil_l|rewrite append_cons]; discriminate. Qed.

Lemma append_empty_r (s : string) : s +:+ EmptyString = s.
Proof.
  induction s as [|c s IH]; [done|]. rewrite append_cons. f_equal. exact IH.
Qed.

Lemma append_assoc_str (a b c : string) : (a +:+ b) +:+ c = a +:+ (b +:+ c).
Proof.
  induction a as [|x a IH]; [done|]. rewrite !append_cons. f_equal. exact IH.
Qed.

Lemma split_from_word cur w s :
  Forall (fun c => Py.isspace c = false) (String.list_ascii_of_string w) ->
  Py.split_from cur (w +:+ s) = Py.split_from (cur +:+ w) s.
Proof.
  revert cur. induction w as [|c w IH]; intros cur Hw.
  - by rewrite append_nil_l, append_empty_r.
  - simpl in Hw. inversion Hw as [|? ? Hc Hw']; subst.
    rewrite append_cons. simpl. rewrite Hc, IH by done.
    unfold Py.snoc. rewrite append_assoc_str. by rewrite append_cons, append_nil_l.
Qed.

Lemma split_from_space cur s :
  cur <> EmptyString ->
  Py.split_from cur (String " " s) = cur :: Py.split_from EmptyString s.
Proof. intros Hc. simpl. by destruct (decide (cur = EmptyString)). Qed.

Lemma list_ascii_snoc cur c :
  String.list_ascii_of_string (Py.snoc cur c) = String.list_ascii_of_string cur ++ [c].
Proof.
  unfold Py.snoc. induction cur as [|x cur IH]; [done|].
  rewrite append_cons. simpl. by rewrite IH.
Qed.

Lemma split_from_words cur s :
  Forall (fun c => Py.isspace c = false) (String.list_ascii_of_string cur) ->
  Forall is_word (Py.split_from cur s).
Proof.
  revert cur. induction s as [|c s IH]; simpl; intros cur Hcur.
  - destruct (decide (cur = EmptyString)); [constructor|].
    constructor; [by split|constructor].
  - destruct (Py.isspace c) eqn:Hc.
    + destruct (decide (cur = EmptyString)).
      * apply IH. constructor.
      * constructor; [by split|]. apply IH. constructor.
    + apply IH. rewrite list_ascii_snoc. apply Forall_app. split; [done|].
      by constructor.
Qed.

Lemma split_words text : Forall is_word (Py.split text).
Proof. apply split_from_words. constructor. Qed.

(** Joining words with single spaces and splitting again gives the words
    back. *)
Lemma split_join ws : Forall is_word ws -> Py.split (Py.join " " ws) = ws.
Proof.
  unfold Py.split. induction ws as [|w ws IH]; intros Hws; [done|].
  inversion Hws as [|? ? [Hne Hw] Hws']; subst.
  destruct ws as [|w' ws].
  - simpl. rewrite <- (append_empty_r w) at 1.
    rewrite split_from_word by done. rewrite append_nil_l. simpl.
    by destruct (decide (w = EmptyString)).
  - change (Py.join " " (w :: w' :: ws))
      with (w +:+ String " " (Py.join " " (w' :: ws))).
    rewrite split_from_word by done. rewrite append_nil_l.
    rewrite split_from_space by done. f_equal. by apply IH.
Qed.

(** *** Slices *)

Lemma slice_all {A} (l : list A) : Py.slice l 0 (Py.len l) = l.
Proof.
  unfold Py.slice, Py.clamp, Py.len. case_ltb; try lia.
  replace (Z.to_nat (Z.min 0 (Z.of_nat (length l)))) with 0%nat by lia.
  rewrite drop_0. apply take_ge. lia.
Qed.

(** The window [words[start:start+chunk_size]] ends where the words end. *)
Lemma slice_window {A} (l : list A) start chunk_size :
  0 <= start -> 0 <= chunk_size ->
  Py.slice l start (start + chunk_size) =
  Py.slice l start (Z.min (start + chunk_size) (Py.len l)).
Proof.
  intros Hs Hc. unfold Py.slice, Py.clamp, Py.len. case_ltb; try lia.
  f_equal. f_equal. lia.
Qed.

Lemma slice_sub {A} (l : list A) a b :
  0 <= a <= b -> b <= Py.len l ->
  Py.slice l a b = take (Z.to_nat (b - a)) (drop (Z.to_nat a) l).
Proof.
  intros Ha Hb. unfold Py.slice, Py.clamp, Py.len in *. case_ltb; try lia.
  f_equal; [|f_equal]; lia.
Qed.

Lemma slice_lookup {A} (l : list A) a b (i : nat) :
  0 <= a -> b <= Py.len l -> a <= Z.of_nat i < b ->
  Py.slice l a b !! Z.to_nat (Z.of_nat i - a) = l !! i.
Proof.
  intros Ha Hb Hi. rewrite slice_sub by lia.
  rewrite lookup_take_lt by lia. rewrite lookup_drop. f_equal. lia.
Qed.

Lemma slice_words_are_words text a b :
  Forall is_word (Py.slice (Py.split text) a b).
Proof.
  unfold Py.slice. apply Forall_take, Forall_drop, split_words.
Qed.

(** *** The loop *)

Section Loop.
Variables (chunk_size overlap : Z).

(** The loop ends once [start] has reached the number of words, which
    takes at most as many rounds as there are words left when every
    round advances. *)
Lemma span_loop_terminates fuel n start :
  overlap < chunk_size ->
  (Z.to_nat (n - start) <= fuel)%nat ->
  is_Some (span_loop fuel n chunk_size overlap start).
Proof.
  intros Hstep. revert start. induction fuel as [|fuel IH]; intros start Hf; simpl.
  - destruct (Z.ltb_spec start n); [lia|done].
  - destruct (Z.ltb_spec start n); [|done].
    destruct (IH (start + (chunk_size - overlap))) as [spans ->]; [lia|done].
Qed.

(** The chunks are the words of the spans, joined. *)
Lemma chunk_loop_spans fuel words start :
  0 <= start -> 0 <= chunk_size - overlap -> 0 <= chunk_size ->
  chunk_loop fuel words chunk_size overlap start =
  (map (fun s => Py.join " " (Py.slice words (fst s) (snd s))))
    <$> span_loop fuel (Py.len words) chunk_size overlap start.
Proof.
  intros Hs Hstep Hc. revert start Hs.
  induction fuel as [|fuel IH]; intros start Hs; simpl.
  - by destruct (start <? Py.len words).
  - destruct (start <? Py.len words); [|done].
    rewrite IH by lia.
    destruct (span_loop fuel _ _ _ _); simpl; [|done].
    by rewrite slice_window.
Qed.

(** Span number [k] starts [k] steps after the first and is cut at the
    last word. *)
Lemma span_loop_lookup fuel n start spans (k : nat) s :
  span_loop fuel n chunk_size overlap start = Some spans ->
  spans !! k = Some s ->
  fst s = start + Z.of_nat k * (chunk_size - overlap) /\
  snd s = Z.min (fst s + chunk_size) n /\ fst s < n.
Proof.
  revert start spans k. induction fuel as [|fuel IH]; intros start spans k; simpl.
  - destruct (start <? n); [done|]. intros [= <-]. by rewrite lookup_nil.
  - destruct (Z.ltb_spec start n) as [Hlt|Hlt]; [|intros [= <-]; by rewrite lookup_nil].
    destruct (span_loop fuel n _ _ _) as [rest|] eqn:Hr; [|done].
    intros [= <-]. destruct k as [|k]; simpl.
    + intros [= <-]. simpl. lia.
    + intros Hk. destruct (IH _ _ _ Hr Hk) as (H1 & H2 & H3). lia.
Qed.

(** Every word position from [start] on lies in a span. *)
Lemma span_loop_covers fuel n start spans i :
  0 <= overlap < chunk_size ->
  span_loop fuel n chunk_size overlap start = Some spans ->
  start <= i < n ->
  exists s, s ∈ spans /\ fst s <= i < snd s.
Proof.
  intros Ho. revert start spans. induction fuel as [|fuel IH]; intros start spans; simpl.
  - destruct (Z.ltb_spec start n) as [Hlt|Hlt]; [done|]. lia.
  - destruct (Z.ltb_spec start n) as [Hlt|Hlt]; [|lia].
    destruct (span_loop fuel n _ _ _) as [rest|] eqn:Hr; [|done].
    intros [= <-] Hi.
    destruct (decide (i < start + chunk_size)) as [Hin|Hout].
    + exists (start, Z.min (start + chunk_size) n). split; [left|simpl; lia].
    + destruct (IH _ _ Hr) as (s & Hs & Hi'); [lia|].
      exists s. split; [by right|done].
Qed.
End Loop.

Lemma chunk_text_small text chunk_size overlap fuel :
  Py.len (Py.split text) <= chunk_size ->
  chunk_text fuel text chunk_size overlap = Some [text].
Proof.
  intros H. unfold chunk_text.
  destruct (Z.leb_spec (Py.len (Py.split text)) chunk_size); [done|lia].
Qed.

Lemma chunk_spans_small text chunk_size overlap fuel :
  Py.len (Py.split text) <= chunk_size ->
  chunk_spans fuel text chunk_size overlap = Some [(0, Py.len (Py.split text))].
Proof.
  intros H. unfold chunk_spans.
  destruct (Z.leb_spec (Py.len (Py.split text)) chunk_size); [done|lia].
Qed.

(** With an advancing window the chunker returns, given the number of
    words as fuel. *)
Lemma chunk_text_terminates text chunk_size overlap fuel :
  overlap < chunk_size ->
  (length (Py.split text) <= fuel)%nat ->
  is_Some (chunk_text fuel text chunk_size overlap).
Proof.
  intros Hstep Hfuel. unfold chunk_text.
  destruct (Z.leb_spec (Py.len (Py.split text)) chunk_size) as [Hle|Hgt]; [done|].
  assert (Hgen : forall f start, (Z.to_nat (Py.len (Py.split text) - start) <= f)%nat ->
            is_Some (chunk_loop f (Py.split text) chunk_size overlap start)).
  { induction f as [|f IH]; intros start Hf; simpl.
    - destruct (Z.ltb_spec start (Py.len (Py.split text))); [lia|done].
    - destruct (Z.ltb_spec start (Py.len (Py.split text))); [|done].
      destruct (IH (start + (chunk_size - overlap))) as [cs ->]; [lia|done]. }
  apply Hgen. unfold Py.len. lia.
Qed.

(** Without an advance, on a text that has words and more of them than the
    chunk size, the chunker never returns. *)
Lemma chunk_text_diverges text chunk_size overlap fuel :
  chunk_size <= overlap ->
  chunk_size < Py.len (Py.split text) ->
  0 < Py.len (Py.split text) ->
  chunk_text fuel text chunk_size overlap = None.
Proof.
  intros Hstep Hlong Hwords. unfold chunk_text.
  destruct (Z.leb_spec (Py.len (Py.split text)) chunk_size) as [Hle|Hgt]; [lia|].
  assert (Hgen : forall f start, start <= 0 ->
            chunk_loop f (Py.split text) chunk_size overlap start = None).
  { induction f as [|f IH]; intros start Hs; simpl.
    - destruct (Z.ltb_spec start (Py.len (Py.split text))); [done|unfold Py.len in *; lia].
    - destruct (Z.ltb_spec start (Py.len (Py.split text))); [|unfold Py.len in *; lia].
      rewrite IH; [done|lia]. }
  by apply Hgen.
Qed.

(** C3, as amended. For a text of W words, a chunk size S and an overlap O
    with 0 <= O < S the chunker returns chunks whose words are those of
    word spans that together cover all W words; two consecutive chunks
    share exactly O word positions whenever the earlier one is a full
    window of S words, which is the case for every consecutive two but
    possibly the last when 2 * O <= S; and when W <= S the result is the
    one chunk equal to the text. *)
Theorem C3_chunk_coverage text chunk_size overlap :
  0 <= overlap < chunk_size ->
  exists chunks spans,
    chunk_text (length (Py.split text)) text chunk_size overlap = Some chunks /\
    chunk_spans (length (Py.split text)) text chunk_size overlap = Some spans /\
    Forall2 (fun chunk s =>
               0 <= fst s /\ snd s <= Py.len (Py.split text) /\
               Py.split chunk = Py.slice (Py.split text) (fst s) (snd s))
            chunks spans /\
    (forall i : nat, (i < length (Py.split text))%nat ->
       exists (k : nat) chunk s,
         chunks !! k = Some chunk /\ spans !! k = Some s /\
         fst s <= Z.of_nat i < snd s /\
         Py.split chunk !! Z.to_nat (Z.of_nat i - fst s) = Py.split text !! i) /\
    (forall (k : nat) s1 s2,
       spans !! k = Some s1 -> spans !! S k = Some s2 ->
       snd s1 - fst s1 = chunk_size \/
       (2 * overlap <= chunk_size /\ (S (S k) < length spans)%nat) ->
       span_overlap s1 s2 = overlap) /\
    (Py.len (Py.split text) <= chunk_size -> chunks = [text]).
Proof.
  intros Ho. set (words := Py.split text).
  destruct (Z.leb_spec (Py.len words) chunk_size) as [Hle|Hgt].
  - exists [text], [(0, Py.len words)].
    split; [by apply chunk_text_small|]. split; [by apply chunk_spans_small|].
    assert (Hsl : Py.split text = Py.slice words 0 (Py.len words))
      by (by rewrite slice_all).
    split; [|split; [|split]].
    + constructor; [|constructor]. simpl. split; [lia|]. split; [lia|exact Hsl].
    + intros i Hi. exists 0%nat, text, (0, Py.len words). simpl.
      split; [done|]. split; [done|]. split; [unfold Py.len; lia|].
      f_equal. lia.
    + intros k s1 s2 _ H2. destruct k; simpl in H2; by rewrite ?lookup_nil in H2.
    + done.
  - assert (Hs : is_Some (span_loop (length words) (Py.len words) chunk_size overlap 0)).
    { apply span_loop_terminates; [lia|]. unfold Py.len. lia. }
    destruct Hs as [spans Hspans].
    assert (Hchunks : chunk_text (length words) text chunk_size overlap =
              Some (map (fun s => Py.join " " (Py.slice words (fst s) (snd s))) spans)).
    { unfold chunk_text. fold words.
      destruct (Z.leb_spec (Py.len words) chunk_size); [lia|].
      rewrite chunk_loop_spans by lia. by rewrite Hspans. }
    assert (Hsp : chunk_spans (length words) text chunk_size overlap = Some spans).
    { unfold chunk_spans. fold words.
      by destruct (Z.leb_spec (Py.len words) chunk_size); [lia|]. }
    assert (Hshape : forall (k : nat) s, spans !! k = Some s ->
              fst s = Z.of_nat k * (chunk_size - overlap) /\
              snd s = Z.min (fst s + chunk_size) (Py.len words) /\
              fst s < Py.len words).
    { intros k s Hk.
      destruct (span_loop_lookup _ _ _ _ _ _ k s Hspans Hk) as (H1 & H2 & H3).
      split; [lia|done]. }
    eexists _, spans. split; [exact Hchunks|]. split; [exact Hsp|].
    split; [|split; [|split]].
    + apply Forall2_fmap_l, Forall_Forall2_diag, Forall_lookup.
      intros k s Hk. destruct (Hshape k s Hk) as (H1 & H2 & H3). simpl.
      split; [nia|]. split; [lia|].
      apply split_join, slice_words_are_words.
    + intros i Hi.
      destruct (span_loop_covers chunk_size overlap _ _ _ _ (Z.of_nat i) Ho Hspans)
        as (s & Hs & Hin); [unfold Py.len; lia|].
      apply list_elem_of_lookup in Hs as [k Hk].
      destruct (Hshape k s Hk) as (H1 & H2 & H3).
      eexists k, _, s. rewrite list_lookup_fmap, Hk. simpl.
      split; [done|]. split; [done|]. split; [done|].
      rewrite split_join by apply slice_words_are_words.
      apply slice_lookup; [nia|lia|done].
    + intros k s1 s2 Hk1 Hk2 Hfull.
      destruct (Hshape k s1 Hk1) as (H1 & H2 & H3).
      destruct (Hshape (S k) s2 Hk2) as (H4 & H5 & H6).
      assert (Hnext : fst s2 = fst s1 + (chunk_size - overlap)) by lia.
      assert (Hf : fst s1 + chunk_size <= Py.len words).
      { destruct Hfull as [Hfull|[Hhalf Hlen]]; [lia|].
        destruct (lookup_lt_is_Some_2 spans (S (S k)) Hlen) as [s3 Hk3].
        destruct (Hshape (S (S k)) s3 Hk3) as (H7 & _ & H9).
        assert (fst s3 = fst s2 + (chunk_size - overlap)) by lia. lia. }
      unfold span_overlap. lia.
    + lia.
Qed.

(** C3 as stated fails when the overlap is more than half the chunk size:
    of 8 words with chunk size 5 and overlap 4, chunks number 4 and 5 (of
    8, neither the last) share 3 word positions. *)
Lemma C3_counterexample :
  exists spans s1 s2,
    chunk_text 8 "a b c d e f g h" 5 4 =
      Some ["a b c d e"; "b c d e f"; "c d e f g"; "d e f g h";
            "e f g h"; "f g h"; "g h"; "h"] /\
    chunk_spans 8 "a b c d e f g h" 5 4 = Some spans /\
    spans !! 4%nat = Some s1 /\ spans !! 5%nat = Some s2 /\
    (6 < length spans)%nat /\
    span_overlap s1 s2 = 3 /\ span_overlap s1 s2 <> 4.
Proof.
  eexists _, _, _. split; [reflexivity|]. split; [reflexivity|].
  split; [reflexivity|]. split; [reflexivity|].
  split; [simpl; lia|]. split; [reflexivity|discriminate].
Qed.

Lemma C3_witness :
  exists chunks spans,
    chunk_text 8 "a b c d e f g h" 5 2 = Some chunks /\
    chunk_spans 8 "a b c d e f g h" 5 2 = Some spans /\
    (forall (k : nat) s1 s2,
       spans !! k = Some s1 -> spans !! S k = Some s2 ->
       snd s1 - fst s1 = 5 \/ (2 * 2 <= 5 /\ (S (S k) < length spans)%nat) ->
       span_overlap s1 s2 = 2).
Proof.
  destruct (C3_chunk_coverage "a b c d e f g h" 5 2) as
    (chunks & spans & H1 & H2 & _ & _ & H5 & _); [lia|].
  exists chunks, spans. split; [exact H1|]. split; [exact H2|exact H5].
Defined.

(** ** Sorting *)

Section SortFacts.
Context {A : Type} (first : A -> A -> bool).

Lemma insert_sorted_Permutation x l : Py.insert_sorted first x l ≡ₚ x :: l.
Proof.
  induction l as [|y l IH]; simpl; [done|].
  destruct (first x y); [done|]. rewrite IH. apply perm_swap.
Qed.

Lemma sort_by_Permutation l : Py.sort_by first l ≡ₚ l.
Proof.
  induction l as [|x l IH]; simpl; [done|].
  by rewrite insert_sorted_Permutation, IH.
Qed.

End SortFacts.

Lemma insert_sorted_Sorted x l :
  Sorted String.le l -> Sorted String.le (Py.insert_sorted String.leb x l).
Proof.
  induction l as [|y l IH]; simpl; intros Hl.
  - by repeat constructor.
  - destruct (String.leb x y) eqn:Hxy.
    + constructor; [done|]. constructor. unfold String.le. by rewrite Hxy.
    + apply Sorted_inv in Hl as [Hl Hy].
      assert (Hyx : String.le y x).
      { unfold String.le. destruct (String.leb_total x y) as [H|H]; [congruence|].
        by rewrite H. }
      constructor; [by apply IH|].
      destruct l as [|z l]; simpl.
      * by constructor.
      * destruct (String.leb x z); constructor; [done|].
        by inversion Hy.
  Qed.

Lemma sorted_Sorted l : Sorted String.le (Py.sorted l).
Proof.
  unfold Py.sorted. induction l as [|x l IH]; simpl; [constructor|].
  by apply insert_sorted_Sorted.
Qed.

Lemma sorted_Permutation l : Py.sorted l ≡ₚ l.
Proof. apply sort_by_Permutation. Qed.

(** The sorted member list depends on the members only, not on the order
    they were collected in. *)
Lemma sorted_unique l1 l2 : l1 ≡ₚ l2 -> Py.sorted l1 = Py.sorted l2.
Proof.
  intros H. apply (Sorted_unique String.le); try apply sorted_Sorted.
  by rewrite !sorted_Permutation.
Qed.

Lemma sorted_of_Sorted l : Sorted String.le l -> Py.sorted l = l.
Proof.
  intros H. apply (Sorted_unique String.le); [apply sorted_Sorted|done|].
  apply sorted_Permutation.
Qed.

(** [tuple(sorted([a, b]))] does not depend on the order of [a] and [b],
    and tells the two apart from any other two. *)
Lemma pair_key_comm a b : pair_key a b = pair_key b a.
Proof.
  unfold pair_key.
  destruct (String.leb a b) eqn:Hab, (String.leb b a) eqn:Hba; try done.
  - by rewrite (String.leb_antisym a b Hab Hba).
  - destruct (String.leb_total a b); congruence.
Qed.

Lemma pair_key_inv a b c d :
  pair_key a b = pair_key c d -> (a = c /\ b = d) \/ (a = d /\ b = c).
Proof.
  unfold pair_key.
  destruct (String.leb a b), (String.leb c d); intros [= -> ->]; auto.
Qed.

(** ** Union-find *)

Lemma root_of_is_root parent x r : root_of parent x r -> parent !! r = Some r.
Proof. induction 1; auto. Qed.

Lemma root_of_functional parent x r1 r2 :
  root_of parent x r1 -> root_of parent x r2 -> r1 = r2.
Proof.
  intros H1. revert r2. induction H1 as [x Hx|x y r Hx Hne _ IH]; intros r2 H2.
  - inversion H2; subst; [done|congruence].
  - inversion H2; subst; [congruence|].
    apply IH. congruence.
Qed.

Lemma root_of_root parent r : parent !! r = Some r -> root_of parent r r.
Proof. by constructor. Qed.

(** Pointing [x] at its own representative changes no representative. *)
Lemma root_of_compress parent x r :
  root_of parent x r ->
  forall z r', root_of (<[x := r]> parent) z r' <-> root_of parent z r'.
Proof.
  intros Hx z r'. pose proof (root_of_is_root _ _ _ Hx) as Hr. split.
  - induction 1 as [z Hz|z y r' Hz Hne _ IH].
    + destruct (decide (z = x)) as [->|Hzx].
      * rewrite lookup_insert_eq in Hz. by inversion Hz; subst.
      * rewrite lookup_insert_ne in Hz by done. by constructor.
    + destruct (decide (z = x)) as [->|Hzx].
      * rewrite lookup_insert_eq in Hz. inversion Hz; subst.
        assert (r' = y) as ->
          by (eapply root_of_functional; [exact IH|by apply root_of_root]).
        done.
      * rewrite lookup_insert_ne in Hz by done. by econstructor.
  - induction 1 as [z Hz|z y r' Hz Hne H' IH].
    + destruct (decide (z = x)) as [->|Hzx].
      * assert (r = x) as -> by (eapply root_of_functional; [exact Hx|by constructor]).
        constructor. by rewrite lookup_insert_eq.
      * constructor. by rewrite lookup_insert_ne.
    + destruct (decide (z = x)) as [->|Hzx].
      * assert (r = r') as <-
          by (eapply root_of_functional; [exact Hx|by econstructor]).
        assert (r <> x) by (intros ->; congruence).
        apply (root_step _ x r r); [by rewrite lookup_insert_eq|done|].
        constructor. by rewrite lookup_insert_ne.
      * apply (root_step _ z y r'); [by rewrite lookup_insert_ne|done|done].
Qed.

(** Hanging the root [rb] under another root [ra] moves the documents of
    [rb] to [ra] and leaves the others where they are. *)
Lemma root_of_link parent ra rb :
  parent !! ra = Some ra -> parent !! rb = Some rb -> ra <> rb ->
  forall z r, root_of (<[rb := ra]> parent) z r <->
    (root_of parent z r /\ r <> rb) \/ (root_of parent z rb /\ r = ra).
Proof.
  intros Hra Hrb Hne z r. split.
  - induction 1 as [z Hz|z y r Hz Hzy _ IH].
    + destruct (decide (z = rb)) as [->|Hzb].
      * rewrite lookup_insert_eq in Hz. congruence.
      * rewrite lookup_insert_ne in Hz by done. left. split; [by constructor|done].
    + destruct (decide (z = rb)) as [->|Hzb].
      * rewrite lookup_insert_eq in Hz. inversion Hz; subst.
        right. split; [by constructor|].
        destruct IH as [[H _]|[H _]].
        -- eapply root_of_functional; [exact H|by constructor].
        -- exfalso. apply Hne.
           eapply root_of_functional; [by apply root_of_root|exact H].
      * rewrite lookup_insert_ne in Hz by done.
        destruct IH as [[H ?]|[H ?]]; [left|right]; (split; [by econstructor|done]).
  - intros [[H Hr]|[H ->]].
    + induction H as [z Hz|z y r Hz Hzy _ IH].
      * constructor. rewrite lookup_insert_ne; [done|congruence].
      * assert (z <> rb) by congruence.
        apply (root_step _ z y r); [by rewrite lookup_insert_ne|done|by apply IH].
    + remember rb as rb' eqn:Hb in H.
      induction H as [z Hz|z y r Hz Hzy _ IH]; subst.
      * apply (root_step _ rb ra ra); [by rewrite lookup_insert_eq|done|].
        constructor. by rewrite lookup_insert_ne.
      * assert (z <> rb) by congruence.
        apply (root_step _ z y ra); [by rewrite lookup_insert_ne|done|by apply IH].
Qed.

Lemma ranked_root parent h n x r :
  ranked parent h n -> root_of parent x r ->
  (h x <= h r)%nat /\ (x <> r -> (h x < h r)%nat).
Proof.
  intros (_ & Hh & _). induction 1 as [x Hx|x y r Hx Hne _ IH]; [split; [lia|done]|].
  specialize (Hh x y Hx Hne). split; [lia|intros _; lia].
Qed.

Lemma ranked_bound parent h n m :
  ranked parent h n -> (n <= m)%nat -> ranked parent h m.
Proof.
  intros (H1 & H2 & H3) Hnm. split; [done|]. split; [done|].
  intros x. specialize (H3 x). lia.
Qed.

(** [find] returns the representative, keeps the forest a forest over the
    same keys and changes no representative, given the recursion depth the
    height of the forest asks for. *)
Lemma find_spec depth parent h n x :
  ranked parent h n -> is_Some (parent !! x) -> (n < depth + h x)%nat ->
  exists r parent',
    find depth parent x = Some (r, parent') /\
    root_of parent x r /\
    ranked parent' h n /\
    (forall z, is_Some (parent' !! z) <-> is_Some (parent !! z)) /\
    (forall z r', root_of parent' z r' <-> root_of parent z r').
Proof.
  intros Hrk. revert x. induction depth as [|depth IH]; intros x [px Hx] Hd.
  - destruct Hrk as (_ & _ & Hb). specialize (Hb x). lia.
  - simpl. rewrite Hx. destruct (decide (px = x)) as [->|Hne].
    + exists x, parent. split; [done|]. split; [by constructor|]. done.
    + destruct (IH px) as (r & p' & Hf & Hr & Hrk' & Hk & Hroots).
      { destruct Hrk as (Hc & _). eauto. }
      { destruct Hrk as (_ & Hh & _). specialize (Hh x px Hx Hne). lia. }
      rewrite Hf. exists r, (<[x := r]> p').
      assert (Hxr : root_of parent x r) by (by econstructor).
      assert (Hxr' : root_of p' x r) by (by apply Hroots).
      split; [done|]. split; [done|]. split; [|split].
      * destruct Hrk' as (Hc & Hh & Hb). split; [|split; [|done]].
        -- intros z y Hz. apply lookup_insert_is_Some'. 
           destruct (decide (x = y)); [by left|right].
           destruct (decide (z = x)) as [->|Hzx].
           ++ rewrite lookup_insert_eq in Hz. inversion Hz; subst.
              rewrite (root_of_is_root _ _ _ Hxr'). eauto.
           ++ rewrite lookup_insert_ne in Hz by done. eauto.
        -- intros z y Hz Hzy. destruct (decide (z = x)) as [->|Hzx].
           ++ rewrite lookup_insert_eq in Hz. inversion Hz; subst.
              eapply ranked_root; [exact Hrk|exact Hxr|done].
           ++ rewrite lookup_insert_ne in Hz by done. eauto.
      * intros z. rewrite lookup_insert_is_Some', <- Hk.
        split; [intros [->|?]; [|done]|by right].
        apply Hk. eauto.
      * intros z r'. by rewrite root_of_compress, Hroots.
Qed.

(** More depth changes nothing for a [find] that returned. *)
Lemma find_mono depth depth' parent x res :
  find depth parent x = Some res -> (depth <= depth')%nat ->
  find depth' parent x = Some res.
Proof.
  revert depth' x res. induction depth as [|depth IH]; intros depth' x res; [done|].
  intros H Hle. destruct depth' as [|depth']; [lia|]. simpl in *.
  destruct (parent !! x) as [px|]; [|done].
  destruct (decide (px = x)); [done|].
  destruct (find depth parent px) as [[r p']|] eqn:Hf; [|done].
  rewrite (IH depth' px (r, p') Hf) by lia. done.
Qed.

Lemma union_mono depth depth' parent a b res :
  union depth parent a b = Some res -> (depth <= depth')%nat ->
  union depth' parent a b = Some res.
Proof.
  unfold union. intros H Hle.
  destruct (find depth parent a) as [[ra p1]|] eqn:Ha; [|done].
  rewrite (find_mono _ depth' _ _ _ Ha Hle).
  destruct (find depth p1 b) as [[rb p2]|] eqn:Hb; [|done].
  by rewrite (find_mono _ depth' _ _ _ Hb Hle).
Qed.

Lemma merge_pairs_mono depth depth' parent ps res :
  merge_pairs depth parent ps = Some res -> (depth <= depth')%nat ->
  merge_pairs depth' parent ps = Some res.
Proof.
  intros H Hle. revert parent H. induction ps as [|p ps IH]; intros parent H; [done|].
  simpl in *. destruct (union depth parent _ _) as [p'|] eqn:Hu; [|done].
  rewrite (union_mono _ depth' _ _ _ _ Hu Hle). by apply IH.
Qed.

Lemma build_clusters_mono depth depth' parent clusters docs res :
  build_clusters depth parent clusters docs = Some res -> (depth <= depth')%nat ->
  build_clusters depth' parent clusters docs = Some res.
Proof.
  intros H Hle. revert parent clusters H.
  induction docs as [|d docs IH]; intros parent clusters H; [done|].
  simpl in *. destruct (find depth parent d) as [[r p']|] eqn:Hf; [|done].
  rewrite (find_mono _ depth' _ _ _ Hf Hle). by apply IH.
Qed.

(** *** The partition a forest stands for *)

Lemma same_set_sym parent x y : same_set parent x y -> same_set parent y x.
Proof. intros (r & ? & ?). by exists r. Qed.

Lemma same_set_trans parent x y z :
  same_set parent x y -> same_set parent y z -> same_set parent x z.
Proof.
  intros (r & Hx & Hy) (r' & Hy' & Hz).
  rewrite (root_of_functional _ _ _ _ Hy Hy') in Hx. by exists r'.
Qed.

(** [union] returns, keeps a forest over the same keys, one level higher at
    most, and merges the sets of [a] and [b]. *)
Lemma union_spec depth parent h n a b :
  ranked parent h n -> is_Some (parent !! a) -> is_Some (parent !! b) ->
  (n < depth)%nat ->
  exists parent' h',
    union depth parent a b = Some parent' /\
    ranked parent' h' (S n) /\
    (forall z, is_Some (parent' !! z) <-> is_Some (parent !! z)) /\
    (forall x y, same_set parent' x y <->
       same_set parent x y \/
       (same_set parent x a /\ same_set parent b y) \/
       (same_set parent x b /\ same_set parent a y)).
Proof.
  intros Hrk Ha Hb Hd. unfold union.
  destruct (find_spec depth parent h n a Hrk Ha) as (ra & p1 & -> & Hra & Hrk1 & Hk1 & Hr1);
    [lia|].
  destruct (find_spec depth p1 h n b Hrk1) as (rb & p2 & -> & Hrb & Hrk2 & Hk2 & Hr2);
    [by apply Hk1|lia|].
  assert (Hroots : forall z r, root_of p2 z r <-> root_of parent z r)
    by (intros; by rewrite Hr2, Hr1).
  assert (Hkeys : forall z, is_Some (p2 !! z) <-> is_Some (parent !! z))
    by (intros; by rewrite Hk2, Hk1).
  apply Hr1 in Hrb.
  destruct (decide (ra = rb)) as [<-|Hne].
  - exists p2, h. split; [done|]. split; [apply (ranked_bound _ _ n); [done|lia]|].
    split; [done|]. intros x y.
    assert (Hab : same_set parent a b) by (by exists ra).
    assert (Hs : same_set p2 x y <-> same_set parent x y).
    { unfold same_set. by setoid_rewrite Hroots. }
    rewrite Hs. split; [by left|].
    intros [H|[[H1 H2]|[H1 H2]]]; [done| |].
    + eapply same_set_trans; [exact H1|]. eapply same_set_trans; [exact Hab|done].
    + eapply same_set_trans; [exact H1|].
      eapply same_set_trans; [apply same_set_sym, Hab|done].
  - pose proof (root_of_is_root _ _ _ Hra) as Hpa.
    pose proof (root_of_is_root _ _ _ Hrb) as Hpb.
    assert (Hpa2 : p2 !! ra = Some ra)
      by (apply (root_of_is_root p2 ra), Hroots; by constructor).
    assert (Hpb2 : p2 !! rb = Some rb)
      by (apply (root_of_is_root p2 rb), Hroots; by constructor).
    exists (<[rb := ra]> p2),
           (fun z => if decide (z = ra) then Nat.max (h ra) (S (h rb)) else h z).
    split; [done|]. split; [|split].
    + destruct Hrk2 as (Hc & Hh & Hbd). split; [|split].
      * intros z y Hz. apply lookup_insert_is_Some'.
        destruct (decide (rb = y)); [by left|right].
        destruct (decide (z = rb)) as [->|Hzb].
        -- rewrite lookup_insert_eq in Hz. inversion Hz; subst. eauto.
        -- rewrite lookup_insert_ne in Hz by done. eauto.
      * intros z y Hz Hzy. destruct (decide (z = rb)) as [->|Hzb].
        -- rewrite lookup_insert_eq in Hz. inversion Hz; subst.
           rewrite decide_False by done. rewrite decide_True by done. lia.
        -- rewrite lookup_insert_ne in Hz by done.
           assert (z <> ra) by (intros ->; congruence).
           rewrite (decide_False (P := z = ra)) by done.
           specialize (Hh z y Hz Hzy). destruct (decide (y = ra)) as [->|]; lia.
      * intros z. pose proof (Hbd ra). pose proof (Hbd rb). pose proof (Hbd z).
        destruct (decide (z = ra)); lia.
    + intros z. rewrite lookup_insert_is_Some', <- Hkeys.
      split; [intros [<-|?]; [eauto|done]|by right].
    + intros x y. unfold same_set.
      setoid_rewrite (root_of_link p2 ra rb Hpa2 Hpb2 Hne).
      setoid_rewrite Hroots.
      split.
      * intros (r & [[Hx Hxr]|[Hx Hxr]] & [[Hy Hyr]|[Hy Hyr]]).
        -- left. by exists r.
        -- subst r. right. left. split; [by exists ra|by exists rb].
        -- subst r. right. right. split; [by exists rb|by exists ra].
        -- left. by exists rb.
      * intros [(r & Hx & Hy)|[[(r & Hx & Ha') (r' & Hb' & Hy)]|[(r & Hx & Hb') (r' & Ha' & Hy)]]].
        -- destruct (decide (r = rb)) as [->|Hrr].
           ++ exists ra. split; by right.
           ++ exists r. split; by left.
        -- assert (r = ra) as -> by exact (root_of_functional _ _ _ _ Ha' Hra).
           assert (r' = rb) as -> by exact (root_of_functional _ _ _ _ Hb' Hrb).
           exists ra. split; [by left|by right].
        -- assert (r = rb) as -> by exact (root_of_functional _ _ _ _ Hb' Hrb).
           assert (r' = ra) as -> by exact (root_of_functional _ _ _ _ Ha' Hra).
           exists ra. split; [by right|by left].
Qed.

(** *** Chains of retained pairs *)

Lemma elem_of_endpoints ps d :
  d ∈ endpoints ps <-> exists p, p ∈ ps /\ (d = doc1 p \/ d = doc2 p).
Proof.
  unfold endpoints. induction ps as [|q ps IH]; simpl.
  - split; [by intros ?%not_elem_of_nil|by intros (? & ?%not_elem_of_nil & _)].
  - rewrite !elem_of_cons, IH. split.
    + intros [->|[->|(p & Hp & Hd)]].
      * exists q. split; [left|]; auto.
      * exists q. split; [left|]; auto.
      * exists p. split; [by right|done].
    + intros (p & [->|Hp]%elem_of_cons & Hd); [tauto|].
      right. right. by exists p.
Qed.

Lemma edge_mono ps ps' a b :
  (forall p, p ∈ ps -> p ∈ ps') -> edge ps a b -> edge ps' a b.
Proof. intros H (p & Hp & ? & ?). exists p. auto. Qed.

Lemma connected_mono ps ps' a b :
  (forall p, p ∈ ps -> p ∈ ps') -> connected ps a b -> connected ps' a b.
Proof.
  intros H. unfold connected, rtsc. apply rtc_subrel.
  intros x y [Hxy|Hyx]; [left|right]; by eapply edge_mono.
Qed.

Lemma connected_perm ps ps' a b :
  ps ≡ₚ ps' -> connected ps a b <-> connected ps' a b.
Proof.
  intros H. split; apply connected_mono; intros p; by rewrite H.
Qed.

Lemma connected_sym ps a b : connected ps a b -> connected ps b a.
Proof. unfold connected. intros H. by symmetry. Qed.

Lemma connected_trans ps a b c :
  connected ps a b -> connected ps b c -> connected ps a c.
Proof. unfold connected. intros H1 H2. by etrans. Qed.

Lemma connected_refl ps a : connected ps a a.
Proof. unfold connected. done. Qed.

Lemma connected_edge ps p : p ∈ ps -> connected ps (doc1 p) (doc2 p).
Proof. intros Hp. apply rtsc_lr. by exists p. Qed.

(** One more pair links what it links and nothing else. *)
Lemma connected_snoc ps p x y :
  connected (ps ++ [p]) x y <->
  connected ps x y \/
  (connected ps x (doc1 p) /\ connected ps (doc2 p) y) \/
  (connected ps x (doc2 p) /\ connected ps (doc1 p) y).
Proof.
  split.
  - unfold connected at 1. unfold rtsc. induction 1 as [x|x z y Hxz _ IH].
    + left. apply connected_refl.
    + assert (Hstep : connected ps x z \/ (x = doc1 p /\ z = doc2 p) \/
                      (x = doc2 p /\ z = doc1 p)).
      { destruct Hxz as [(q & Hq & <- & <-)|(q & Hq & <- & <-)];
          apply elem_of_app in Hq as [Hq|Hq%list_elem_of_singleton]; subst; auto.
        - left. by apply connected_edge.
        - left. by apply connected_sym, connected_edge. }
      destruct Hstep as [Hc|[[-> ->]|[-> ->]]].
      * destruct IH as [H|[[H1 H2]|[H1 H2]]].
        -- left. by eapply connected_trans.
        -- right. left. split; [by eapply connected_trans|done].
        -- right. right. split; [by eapply connected_trans|done].
      * destruct IH as [H|[[H1 H2]|[H1 H2]]].
        -- right. left. split; [apply connected_refl|done].
        -- left. eapply connected_trans; [apply connected_sym, H1|done].
        -- left. done.
      * destruct IH as [H|[[H1 H2]|[H1 H2]]].
        -- right. right. split; [apply connected_refl|done].
        -- left. done.
        -- left. eapply connected_trans; [apply connected_sym, H1|done].
  - assert (Hm : forall a b, connected ps a b -> connected (ps ++ [p]) a b).
    { intros a b. apply connected_mono. intros q Hq. apply elem_of_app. by left. }
    assert (He : connected (ps ++ [p]) (doc1 p) (doc2 p)).
    { apply connected_edge, elem_of_app. right. by apply list_elem_of_singleton. }
    intros [H|[[H1 H2]|[H1 H2]]].
    + by apply Hm.
    + eapply connected_trans; [apply Hm, H1|].
      eapply connected_trans; [exact He|by apply Hm].
    + eapply connected_trans; [apply Hm, H1|].
      eapply connected_trans; [apply connected_sym, He|by apply Hm].
Qed.

(** A chain between two different documents holds a pair of two different
    documents, both linked to the chain's ends. *)
Lemma connected_neq ps x y :
  connected ps x y -> x <> y ->
  exists p, p ∈ ps /\ doc1 p <> doc2 p /\
    connected ps x (doc1 p) /\ connected ps x (doc2 p).
Proof.
  unfold connected at 1. unfold rtsc. induction 1 as [x|x z y Hxz Hzy IH]; [done|].
  intros Hne. destruct (decide (x = z)) as [<-|Hxz'].
  - by apply IH.
  - clear IH. destruct Hxz as [(q & Hq & <- & <-)|(q & Hq & <- & <-)]; exists q.
    + split; [done|]. split; [done|]. split; [apply connected_refl|].
      by apply connected_edge.
    + split; [done|]. split; [done|]. split.
      * by apply connected_sym, connected_edge.
      * apply connected_refl.
Qed.


(** *** The initial forest and the merge loop *)

Lemma init_parent_lookup_from (acc : gmap string string) (docs : list string) x :
  foldl (fun parent doc => <[doc := doc]> parent) acc docs !! x =
  if decide (x ∈ docs) then Some x else acc !! x.
Proof.
  revert acc. induction docs as [|d docs IH]; intros acc.
  - destruct (decide (x ∈ [])) as [H|]; [by apply not_elem_of_nil in H|done].
  - change (foldl (fun parent doc => <[doc := doc]> parent) (<[d := d]> acc) docs !! x =
            if decide (x ∈ d :: docs) then Some x else acc !! x).
    rewrite IH.
    destruct (decide (x ∈ docs)) as [Hin|Hnin], (decide (x ∈ d :: docs)) as [Hin'|Hnin'];
      try done.
    + exfalso. apply Hnin'. by right.
    + apply elem_of_cons in Hin' as [->|?]; [|done]. by rewrite lookup_insert_eq.
    + rewrite lookup_insert_ne; [done|]. intros ->. apply Hnin'. left.
Qed.

Lemma init_parent_lookup docs x :
  init_parent docs !! x = if decide (x ∈ docs) then Some x else None.
Proof. unfold init_parent. by rewrite init_parent_lookup_from, lookup_empty. Qed.

Lemma init_parent_ranked docs : ranked (init_parent docs) (fun _ => 0%nat) 0.
Proof.
  split; [|split; [|done]].
  - intros x y. rewrite init_parent_lookup.
    destruct (decide (x ∈ docs)); [|done]. intros [= <-].
    rewrite init_parent_lookup. destruct (decide (x ∈ docs)); [eauto|done].
  - intros x y. rewrite init_parent_lookup.
    destruct (decide (x ∈ docs)); [|done]. by intros [= <-].
Qed.

Lemma connected_nil x y : connected [] x y -> x = y.
Proof.
  unfold connected, rtsc. induction 1 as [|x z y Hxz _ IH]; [done|].
  destruct Hxz as [(p & Hp & _)|(p & Hp & _)]; by apply not_elem_of_nil in Hp.
Qed.

Lemma init_parent_represents docs : represents (init_parent docs) docs [].
Proof.
  split.
  - intros x. rewrite init_parent_lookup.
    destruct (decide (x ∈ docs)) as [Hin|Hnin]; split; try done; eauto.
  - intros x y Hx Hy. split.
    + intros (r & Hrx & Hry).
      assert (Hself : forall z, z ∈ docs -> root_of (init_parent docs) z z).
      { intros z Hz. constructor. rewrite init_parent_lookup.
        by destruct (decide (z ∈ docs)). }
      pose proof (root_of_functional _ _ _ _ Hrx (Hself x Hx)) as Hr1.
      pose proof (root_of_functional _ _ _ _ Hry (Hself y Hy)) as Hr2.
      rewrite <- Hr1, <- Hr2. apply connected_refl.
    + intros ->%connected_nil. exists y. split; constructor;
        rewrite init_parent_lookup; by destruct (decide (y ∈ docs)).
Qed.

(** The merge loop returns, and leaves a forest that stands for the
    partition the pairs induce. *)
Lemma merge_pairs_spec depth docs later :
  forall done parent h,
    ranked parent h (length done) ->
    represents parent docs done ->
    (forall p, p ∈ later -> doc1 p ∈ docs /\ doc2 p ∈ docs) ->
    (length done + length later < depth)%nat ->
    exists parent' h',
      merge_pairs depth parent later = Some parent' /\
      ranked parent' h' (length (done ++ later)) /\
      represents parent' docs (done ++ later).
Proof.
  induction later as [|p later IH]; intros done parent h Hrk Hrep Hin Hd.
  - exists parent, h. rewrite app_nil_r. done.
  - simpl. destruct Hrep as [Hkeys Hpart].
    destruct (Hin p) as [Ha Hb]; [left|].
    destruct (union_spec depth parent h (length done) (doc1 p) (doc2 p) Hrk)
      as (p1 & h1 & -> & Hrk1 & Hk1 & Hsame);
      [by apply Hkeys|by apply Hkeys|simpl in Hd; lia|].
    destruct (IH (done ++ [p]) p1 h1) as (p' & h' & Hm & Hrk' & Hrep').
    + rewrite length_app. simpl. by rewrite Nat.add_1_r.
    + split.
      * intros x. by rewrite Hk1.
      * intros x y Hx Hy. rewrite Hsame, connected_snoc.
        rewrite !Hpart by done. done.
    + intros q Hq. apply Hin. by right.
    + rewrite length_app. simpl in *. lia.
    + exists p', h'. rewrite <- app_assoc in Hrk', Hrep'. done.
Qed.

(** *** The grouping loop *)

Lemma cluster_append_docs clusters r d :
  cluster_docs (cluster_append clusters r d) ≡ₚ cluster_docs clusters ++ [d].
Proof.
  induction clusters as [|[r' ms] cs IH]; simpl; [done|].
  destruct (decide (r' = r)); simpl.
  - rewrite <- !app_assoc. apply Permutation_app_head, Permutation_app_comm.
  - by rewrite IH, app_assoc.
Qed.

Lemma cluster_append_keys clusters r d :
  map fst (cluster_append clusters r d) =
  if decide (r ∈ map fst clusters) then map fst clusters
  else map fst clusters ++ [r].
Proof.
  induction clusters as [|[r' ms] cs IH].
  - simpl. destruct (decide (r ∈ [])) as [H|]; [by apply not_elem_of_nil in H|done].
  - change (cluster_append ((r', ms) :: cs) r d)
      with (if decide (r' = r) then (r', ms ++ [d]) :: cs
            else (r', ms) :: cluster_append cs r d).
    change (map fst ((r', ms) :: cs)) with (r' :: map fst cs).
    destruct (decide (r' = r)) as [->|Hne].
    + destruct (decide (r ∈ r :: map fst cs)) as [|Hn]; [done|].
      exfalso. apply Hn. left.
    + change (map fst ((r', ms) :: cluster_append cs r d))
        with (r' :: map fst (cluster_append cs r d)).
      rewrite IH.
      destruct (decide (r ∈ map fst cs)) as [Hin|Hnin],
               (decide (r ∈ r' :: map fst cs)) as [Hin'|Hnin']; try done.
      * exfalso. apply Hnin'. by right.
      * apply elem_of_cons in Hin' as [?|?]; congruence.
Qed.

Lemma cluster_append_elem clusters r d r' ms' :
  (r', ms') ∈ cluster_append clusters r d ->
  (r', ms') ∈ clusters \/
  (r' = r /\ exists ms, ms' = ms ++ [d] /\ ((r, ms) ∈ clusters \/ ms = [])).
Proof.
  induction clusters as [|[r0 ms0] cs IH]; simpl.
  - intros [= -> ->]%list_elem_of_singleton. right. split; [done|]. exists []. auto.
  - destruct (decide (r0 = r)) as [->|Hne].
    + intros [[= -> ->]|H]%elem_of_cons.
      * right. split; [done|]. exists ms0. split; [done|]. left. left.
      * left. by right.
    + intros [[= -> ->]|H]%elem_of_cons; [left; left|].
      destruct (IH H) as [?|(-> & ms & -> & [? | ->])].
      * left. by right.
      * right. split; [done|]. exists ms. split; [done|]. left. by right.
      * right. split; [done|]. exists []. auto.
Qed.

Lemma build_clusters_docs depth parent clusters docs clusters' :
  build_clusters depth parent clusters docs = Some clusters' ->
  cluster_docs clusters' ≡ₚ cluster_docs clusters ++ docs.
Proof.
  revert parent clusters. induction docs as [|d docs IH]; intros parent clusters; simpl.
  - intros [= <-]. by rewrite app_nil_r.
  - destruct (find depth parent d) as [[r p']|]; [|done].
    intros H. rewrite (IH _ _ H), cluster_append_docs, <- app_assoc. reflexivity.
Qed.

Lemma filed_roots parent parent' clusters :
  (forall z r, root_of parent' z r <-> root_of parent z r) ->
  filed parent clusters -> filed parent' clusters.
Proof.
  intros Hr [Hk Hf]. split; [done|]. intros r ms Hin.
  destruct (Hf r ms Hin) as [Hne Hd]. split; [done|].
  intros d Hdm. by apply Hr, Hd.
Qed.

Lemma build_clusters_spec depth h n docs :
  forall parent clusters,
    ranked parent h n -> (n < depth)%nat ->
    (forall d, d ∈ docs -> is_Some (parent !! d)) ->
    filed parent clusters ->
    exists clusters',
      build_clusters depth parent clusters docs = Some clusters' /\
      filed parent clusters'.
Proof.
  induction docs as [|d docs IH]; intros parent clusters Hrk Hd Hkeys Hf; simpl.
  - by exists clusters.
  - destruct (find_spec depth parent h n d Hrk) as (r & p' & -> & Hr & Hrk' & Hk & Hroots);
      [apply Hkeys; left|lia|].
    destruct (IH p' (cluster_append clusters r d)) as (C' & -> & Hf'); [done|done| | |].
    + intros d' Hd'. apply Hk, Hkeys. by right.
    + apply (filed_roots parent); [done|].
      destruct Hf as [Hnd Hf]. split.
      * rewrite cluster_append_keys. destruct (decide (r ∈ map fst clusters)); [done|].
        apply NoDup_app. split; [done|]. split; [|apply NoDup_singleton].
        intros x Hx ->%list_elem_of_singleton. done.
      * intros r' ms' [Hin|(-> & ms & -> & Hms)]%cluster_append_elem; [by apply Hf|].
        split; [by destruct ms|].
        intros d' [Hd' | ->%list_elem_of_singleton]%elem_of_app; [|done].
        destruct Hms as [Hin | ->]; [by apply (Hf r ms)|by apply not_elem_of_nil in Hd'].
    + exists C'. split; [done|].
      apply (filed_roots p'); [intros z r'; by rewrite Hroots|done].
Qed.

Lemma elem_of_cluster_docs clusters d :
  d ∈ cluster_docs clusters <-> exists r ms, (r, ms) ∈ clusters /\ d ∈ ms.
Proof.
  induction clusters as [|[r0 ms0] cs IH]; simpl.
  - split; [by intros ?%not_elem_of_nil|by intros (? & ? & ?%not_elem_of_nil & _)].
  - rewrite elem_of_app, IH. split.
    + intros [H|(r & ms & Hin & Hd)].
      * exists r0, ms0. split; [left|done].
      * exists r, ms. split; [by right|done].
    + intros (r & ms & [[= -> ->]|Hin]%elem_of_cons & Hd); [by left|].
      right. by exists r, ms.
Qed.

Lemma keys_functional {V} (d : dict V) k v1 v2 :
  NoDup (map fst d) -> (k, v1) ∈ d -> (k, v2) ∈ d -> v1 = v2.
Proof.
  induction d as [|[k0 v0] d IH]; simpl; intros Hnd H1 H2.
  - by apply not_elem_of_nil in H1.
  - apply NoDup_cons in Hnd as [Hk Hnd].
    assert (Hfst : forall v, (k0, v) ∈ d -> False).
    { intros v Hv. apply Hk. apply list_elem_of_fmap. by exists (k0, v). }
    apply elem_of_cons in H1 as [[= -> ->]|H1], H2 as [[= <-]|H2]; try done.
    + by destruct (Hfst v2).
    + subst. by destruct (Hfst v1).
    + by apply IH.
Qed.

(** *** The clusters *)

Lemma clusters_of_mono set_iter depth depth' ps clusters :
  clusters_of set_iter depth ps = Some clusters -> (depth <= depth')%nat ->
  clusters_of set_iter depth' ps = Some clusters.
Proof.
  unfold clusters_of. intros H Hle.
  destruct (merge_pairs depth _ ps) as [parent|] eqn:Hm; [|done].
  rewrite (merge_pairs_mono _ depth' _ _ _ Hm Hle).
  by apply (build_clusters_mono depth).
Qed.

(** With a recursion depth above the number of pairs the grouping returns
    and its clusters are the classes of linked documents. *)
Lemma clusters_of_total set_iter depth ps :
  enumerates (set_iter (endpoints ps)) (endpoints ps) ->
  (length ps < depth)%nat ->
  exists clusters,
    clusters_of set_iter depth ps = Some clusters /\ well_clustered ps clusters.
Proof.
  intros [Hnd Hdocs] Hd. unfold clusters_of, all_docs.
  set (docs := set_iter (endpoints ps)) in *.
  destruct (merge_pairs_spec depth docs ps [] (init_parent docs) (fun _ => 0%nat))
    as (parent & h & -> & Hrk & Hkeys & Hpart).
  { apply init_parent_ranked. }
  { apply init_parent_represents. }
  { intros p Hp. rewrite !Hdocs, !elem_of_endpoints. split; exists p; auto. }
  { simpl. lia. }
  simpl in Hrk, Hpart.
  destruct (build_clusters_spec depth h (length ps) docs parent [])
    as (clusters & Hb & Hnk & Hfiled); [done|done| | |].
  { intros d Hdin. by apply Hkeys. }
  { split; [constructor|]. by intros r ms ?%not_elem_of_nil. }
  exists clusters. split; [done|].
  pose proof (build_clusters_docs _ _ _ _ _ Hb) as Hperm. simpl in Hperm.
  split; [by rewrite Hperm|]. split; [intros d; by rewrite Hperm|].
  intros r ms Hin. destruct (Hfiled r ms Hin) as [Hne Hroot]. split; [done|].
  assert (Hsub : forall d, d ∈ ms -> d ∈ docs).
  { intros d Hdm. rewrite <- Hperm. apply elem_of_cluster_docs. eauto. }
  intros x d Hx. split.
  - intros Hdm. split; [by apply Hdocs, Hsub|].
    apply Hpart; [by apply Hsub|by apply Hsub|]. exists r. auto.
  - intros [Hde Hc]. apply Hdocs in Hde.
    assert (Hdc : d ∈ cluster_docs clusters) by (by rewrite Hperm).
    apply elem_of_cluster_docs in Hdc as (r' & ms' & Hin' & Hdm').
    destruct (Hfiled r' ms' Hin') as [_ Hroot'].
    apply Hpart in Hc as (r0 & Hx0 & Hd0); [|by apply Hsub|done].
    assert (r0 = r) as -> by exact (root_of_functional _ _ _ _ Hx0 (Hroot x Hx)).
    assert (r = r') as <- by exact (root_of_functional _ _ _ _ Hd0 (Hroot' d Hdm')).
    by rewrite (keys_functional clusters r ms ms' Hnk Hin Hin').
Qed.

(** Whenever the grouping returns, its clusters are those classes. *)
Lemma clusters_of_some set_iter depth ps clusters :
  enumerates (set_iter (endpoints ps)) (endpoints ps) ->
  clusters_of set_iter depth ps = Some clusters ->
  well_clustered ps clusters.
Proof.
  intros Hen Hc.
  destruct (clusters_of_total set_iter (Nat.max depth (S (length ps))) ps Hen)
    as (clusters' & Hc' & Hwf); [lia|].
  rewrite (clusters_of_mono _ depth _ _ _ Hc) in Hc' by lia.
  by inversion Hc'; subst.
Qed.

Lemma cluster_members_NoDup clusters r ms :
  NoDup (cluster_docs clusters) -> (r, ms) ∈ clusters -> NoDup ms.
Proof.
  induction clusters as [|[r0 ms0] cs IH]; simpl; intros Hnd Hin.
  - by apply not_elem_of_nil in Hin.
  - apply NoDup_app in Hnd as (H0 & _ & Hcs).
    apply elem_of_cons in Hin as [[= -> ->]|Hin]; [done|by apply IH].
Qed.

(** *** The formatted result *)

Lemma elem_of_format_clusters lookup clusters c :
  c ∈ format_clusters lookup clusters <->
  exists r ms, (r, ms) ∈ clusters /\ 2 <= Py.len ms /\ c = cluster_info lookup ms.
Proof.
  induction clusters as [|[r0 ms0] cs IH]; simpl.
  - split; [by intros ?%not_elem_of_nil|by intros (? & ? & ?%not_elem_of_nil & _)].
  - destruct (Z.ltb_spec (Py.len ms0) 2) as [Hlt|Hge].
    + rewrite IH. split.
      * intros (r & ms & Hin & Hlen & Hc). exists r, ms. split; [by right|done].
      * intros (r & ms & [[= -> ->]|Hin]%elem_of_cons & Hlen & Hc); [lia|].
        by exists r, ms.
    + rewrite elem_of_cons, IH. split.
      * intros [->|(r & ms & Hin & Hlen & Hc)].
        -- exists r0, ms0. split; [left|done].
        -- exists r, ms. split; [by right|done].
      * intros (r & ms & [[= -> ->]|Hin]%elem_of_cons & Hlen & Hc); [by left|].
        right. by exists r, ms.
Qed.

Lemma format_clusters_members lookup clusters :
  map members (format_clusters lookup clusters) = map Py.sorted (kept_members clusters).
Proof.
  induction clusters as [|[r0 ms0] cs IH]; simpl; [done|].
  destruct (Py.len ms0 <? 2); simpl; by rewrite IH.
Qed.

Lemma elem_of_kept_members clusters ms :
  ms ∈ kept_members clusters <-> exists r, (r, ms) ∈ clusters /\ 2 <= Py.len ms.
Proof.
  induction clusters as [|[r0 ms0] cs IH]; simpl.
  - split; [by intros ?%not_elem_of_nil|by intros (? & ?%not_elem_of_nil & _)].
  - destruct (Z.ltb_spec (Py.len ms0) 2) as [Hlt|Hge].
    + rewrite IH. split.
      * intros (r & Hin & Hlen). exists r. split; [by right|done].
      * intros (r & [[= -> ->]|Hin]%elem_of_cons & Hlen); [lia|]. by exists r.
    + rewrite elem_of_cons, IH. split.
      * intros [->|(r & Hin & Hlen)].
        -- exists r0. split; [left|done].
        -- exists r. split; [by right|done].
      * intros (r & [[= -> ->]|Hin]%elem_of_cons & Hlen); [by left|].
        right. by exists r.
Qed.

(** Different clusters have different sorted member lists. *)
Lemma kept_members_sorted_NoDup clusters :
  NoDup (cluster_docs clusters) ->
  NoDup (map Py.sorted (kept_members clusters)).
Proof.
  induction clusters as [|[r0 ms0] cs IH]; simpl; intros Hnd; [constructor|].
  apply NoDup_app in Hnd as (H0 & Hdis & Hcs).
  destruct (Z.ltb_spec (Py.len ms0) 2) as [Hlt|Hge]; [by apply IH|].
  simpl. apply NoDup_cons. split; [|by apply IH].
  intros (ms & Heq & Hin)%list_elem_of_fmap.
  apply elem_of_kept_members in Hin as (r & Hin & _).
  destruct ms0 as [|d ms0]; [unfold Py.len in Hge; simpl in Hge; lia|].
  apply (Hdis d); [left|].
  apply elem_of_cluster_docs. exists r, ms. split; [done|].
  rewrite <- (sorted_Permutation ms), <- Heq, sorted_Permutation. left.
Qed.

Section GroupFacts.
Variable set_iter : list string -> list string.

Lemma group_similar_documents_clusters depth ps result :
  group_similar_documents set_iter depth ps = Some result ->
  exists clusters,
    clusters_of set_iter depth ps = Some clusters /\
    result ≡ₚ format_clusters (pair_lookup ps) clusters.
Proof.
  unfold group_similar_documents.
  destruct (clusters_of set_iter depth ps) as [clusters|]; [|done].
  intros [= <-]. exists clusters. split; [done|]. apply sort_by_Permutation.
Qed.

Lemma group_similar_documents_total depth ps :
  enumerates (set_iter (endpoints ps)) (endpoints ps) ->
  (length ps < depth)%nat ->
  is_Some (group_similar_documents set_iter depth ps).
Proof.
  intros Hen Hd. unfold group_similar_documents.
  destruct (clusters_of_total set_iter depth ps Hen Hd) as (clusters & -> & _).
  eauto.
Qed.
End GroupFacts.

(** *** The pair lookup and the scores of a cluster *)

Section Lookup.
Implicit Types (acc : gmap (string * string) Q) (ps : list pair).

Lemma lookup_fold_elem acc ps k s :
  foldl insert_pair acc ps !! k = Some s ->
  (exists p, p ∈ ps /\ key_of p = k /\ similarity p = s) \/ acc !! k = Some s.
Proof.
  revert acc. induction ps as [|p ps IH]; intros acc; simpl; [by right|].
  intros [(q & Hq & Hk & Hs)|H]%IH.
  - left. exists q. split; [by right|done].
  - unfold insert_pair in H. destruct (decide (key_of p = k)) as [Hk|Hk].
    + unfold key_of in Hk. rewrite Hk, lookup_insert_eq in H. inversion H; subst.
      left. exists p. split; [left|done].
    + unfold key_of in Hk. rewrite lookup_insert_ne in H by done. by right.
Qed.

Lemma lookup_fold_other acc ps k :
  k ∉ map key_of ps -> foldl insert_pair acc ps !! k = acc !! k.
Proof.
  revert acc. induction ps as [|p ps IH]; intros acc; simpl; [done|].
  intros Hk. apply not_elem_of_cons in Hk as [Hne Hk].
  rewrite IH by done. unfold insert_pair. by rewrite lookup_insert_ne.
Qed.

Lemma lookup_fold_key acc ps p :
  p ∈ ps -> is_Some (foldl insert_pair acc ps !! key_of p).
Proof.
  revert acc p. induction ps as [|q ps IH]; intros acc p; simpl.
  - by intros ?%not_elem_of_nil.
  - intros [->|Hp]%elem_of_cons; [|by apply IH].
    destruct (decide (key_of q ∈ map key_of ps)) as [Hin|Hnin].
    + apply list_elem_of_fmap in Hin as (q' & Hk & Hq'). rewrite Hk. by apply IH.
    + rewrite lookup_fold_other by done. unfold insert_pair, key_of.
      rewrite lookup_insert_eq. eauto.
Qed.

Lemma lookup_fold_wf acc ps p :
  NoDup (map key_of ps) -> p ∈ ps ->
  foldl insert_pair acc ps !! key_of p = Some (similarity p).
Proof.
  revert acc. induction ps as [|q ps IH]; intros acc; simpl.
  - by intros _ ?%not_elem_of_nil.
  - intros [Hq Hnd]%NoDup_cons [->|Hp]%elem_of_cons; [|by apply IH].
    rewrite lookup_fold_other by done. unfold insert_pair, key_of. by rewrite lookup_insert_eq.
Qed.

Lemma pair_lookup_elem ps k s :
  pair_lookup ps !! k = Some s ->
  exists p, p ∈ ps /\ pair_key (doc1 p) (doc2 p) = k /\ similarity p = s.
Proof.
  intros [H|H]%lookup_fold_elem; [done|]. by rewrite lookup_empty in H.
Qed.

Lemma pair_lookup_key ps p :
  p ∈ ps -> is_Some (pair_lookup ps !! pair_key (doc1 p) (doc2 p)).
Proof. apply lookup_fold_key. Qed.

Lemma pair_lookup_wf ps p :
  wf_pairs ps -> p ∈ ps ->
  pair_lookup ps !! pair_key (doc1 p) (doc2 p) = Some (similarity p).
Proof. intros [_ Hnd]. by apply lookup_fold_wf. Qed.
End Lookup.

Lemma sims_row_omap lookup m rest :
  sims_row lookup m rest = omap (fun k => lookup !! k) (keys_row m rest).
Proof.
  induction rest as [|m' rest IH]; simpl; [done|].
  destruct (lookup !! pair_key m m'); by rewrite IH.
Qed.

Lemma cluster_sims_omap lookup ms :
  cluster_sims lookup ms = omap (fun k => lookup !! k) (member_keys ms).
Proof.
  induction ms as [|m ms IH]; simpl; [done|].
  by rewrite omap_app, sims_row_omap, IH.
Qed.

Lemma elem_of_keys_row m rest k :
  k ∈ keys_row m rest <-> exists b, b ∈ rest /\ k = pair_key m b.
Proof.
  induction rest as [|m' rest IH]; simpl.
  - split; [by intros ?%not_elem_of_nil|by intros (? & ?%not_elem_of_nil & _)].
  - rewrite elem_of_cons, IH. split.
    + intros [->|(b & Hb & ->)]; [exists m'; split; [left|done]|].
      exists b. split; [by right|done].
    + intros (b & [->|Hb]%elem_of_cons & ->); [by left|]. right. by exists b.
Qed.

(** The keys looked up for a cluster are those of two different members,
    each once. *)
Lemma elem_of_member_keys ms k :
  NoDup ms ->
  k ∈ member_keys ms <->
  exists a b, a ∈ ms /\ b ∈ ms /\ a <> b /\ k = pair_key a b.
Proof.
  induction ms as [|m ms IH]; simpl; intros Hnd.
  - split; [by intros ?%not_elem_of_nil|by intros (? & ? & ?%not_elem_of_nil & _)].
  - apply NoDup_cons in Hnd as [Hm Hnd].
    rewrite elem_of_app, elem_of_keys_row, (IH Hnd). split.
    + intros [(b & Hb & ->)|(a & b & Ha & Hb & Hne & ->)].
      * exists m, b. split; [left|]. split; [by right|]. split; [|done].
        by intros ->.
      * exists a, b. split; [by right|]. split; [by right|done].
    + intros (a & b & [->|Ha]%elem_of_cons & [->|Hb]%elem_of_cons & Hne & ->).
      * done.
      * left. by exists b.
      * left. exists a. split; [done|apply pair_key_comm].
      * right. by exists a, b.
Qed.

Lemma keys_row_NoDup m rest : NoDup rest -> NoDup (keys_row m rest).
Proof.
  induction rest as [|m' rest IH]; simpl; intros Hnd; [constructor|].
  apply NoDup_cons in Hnd as [Hm Hnd]. apply NoDup_cons. split; [|by apply IH].
  intros (b & Hb & Hk)%elem_of_keys_row.
  apply pair_key_inv in Hk as [[_ ->]|[-> <-]]; done.
Qed.

Lemma member_keys_NoDup ms : NoDup ms -> NoDup (member_keys ms).
Proof.
  induction ms as [|m ms IH]; simpl; intros Hnd; [constructor|].
  pose proof Hnd as Hnd'. apply NoDup_cons in Hnd as [Hm Hnd].
  apply NoDup_app. split; [by apply keys_row_NoDup|]. split; [|by apply IH].
  intros k (b & Hb & ->)%elem_of_keys_row
           (a & c & Ha & Hc & Hne & Hk)%(elem_of_member_keys _ _ Hnd).
  apply pair_key_inv in Hk as [[-> _]|[-> _]]; done.
Qed.

Lemma omap_filter_is_Some {A B} (f : A -> option B) (l : list A) :
  omap f (filter (fun x => is_Some (f x)) l) = omap f l.
Proof.
  induction l as [|x l IH]; [done|].
  rewrite filter_cons. destruct (decide (is_Some (f x))) as [[y Hy]|Hn].
  - cbn [omap list_omap]. rewrite Hy. f_equal. exact IH.
  - cbn [omap list_omap]. destruct (f x) eqn:Hx; [exfalso; apply Hn; eauto|].
    exact IH.
Qed.

(** Two duplicate-free key lists that agree on the keys a lookup knows give
    the same values, up to order. *)
Lemma omap_Permutation_support {A B} (f : A -> option B) (l1 l2 : list A) :
  NoDup l1 -> NoDup l2 ->
  (forall k, is_Some (f k) -> (k ∈ l1 <-> k ∈ l2)) ->
  omap f l1 ≡ₚ omap f l2.
Proof.
  intros H1 H2 Hk.
  rewrite <- (omap_filter_is_Some f l1), <- (omap_filter_is_Some f l2).
  apply omap_Permutation, NoDup_Permutation; [by apply NoDup_filter..|].
  intros k. rewrite !list_elem_of_filter.
  split; intros [Hs Hin]; (split; [done|]); by apply (Hk k Hs).
Qed.

Lemma NoDup_fmap_filter {A B} (f : A -> B) (P : A -> Prop)
    `{!forall x, Decision (P x)} (l : list A) :
  NoDup (map f l) -> NoDup (map f (filter P l)).
Proof.
  induction l as [|x l IH]; [done|].
  change (map f (x :: l)) with (f x :: map f l).
  intros [Hx Hnd]%NoDup_cons. rewrite filter_cons.
  destruct (decide (P x)); [|by apply IH].
  change (map f (x :: filter P l)) with (f x :: map f (filter P l)).
  apply NoDup_cons. split; [|by apply IH].
  intros (y & Hy & [_ Hin]%list_elem_of_filter)%list_elem_of_fmap.
  apply Hx. apply list_elem_of_fmap. by exists y.
Qed.

(** The scores collected for a cluster are those of the retained pairs with
    both endpoints in it, each once, when the retained pairs are well
    formed. *)
Lemma cluster_sims_internal ps ms :
  wf_pairs ps -> NoDup ms ->
  cluster_sims (pair_lookup ps) ms ≡ₚ internal_scores ps ms.
Proof.
  intros Hwf Hnd. pose proof Hwf as [Hne Hkeys].
  rewrite cluster_sims_omap. unfold internal_scores.
  assert (Hmap : map similarity (filter (inside ms) ps) =
            omap (fun k => pair_lookup ps !! k)
                 (map (fun p => pair_key (doc1 p) (doc2 p)) (filter (inside ms) ps))).
  { assert (Hsub : forall p, p ∈ filter (inside ms) ps -> p ∈ ps)
      by (by intros p [_ ?]%list_elem_of_filter).
    induction (filter (inside ms) ps) as [|p l IH]; simpl; [done|].
    rewrite pair_lookup_wf; [|done|apply Hsub; left].
    f_equal. apply IH. intros q Hq. apply Hsub. by right. }
  rewrite Hmap.
  apply omap_Permutation_support.
  - by apply member_keys_NoDup.
  - by apply NoDup_fmap_filter.
  - intros k [s Hs]. rewrite (elem_of_member_keys _ _ Hnd), list_elem_of_fmap.
    split.
    + intros (a & b & Ha & Hb & Hab & ->).
      apply pair_lookup_elem in Hs as (p & Hp & Hk & _).
      exists p. split; [done|]. apply list_elem_of_filter. split; [|done].
      unfold inside. apply pair_key_inv in Hk as [[-> ->]|[-> ->]]; by split.
    + intros (p & -> & [[H1 H2] Hp]%list_elem_of_filter).
      exists (doc1 p), (doc2 p). split; [done|]. split; [done|]. split; [|done].
      by apply Hne.
Qed.

(** *** Sums, means and maxima of scores *)

Lemma py_sum_from acc l : (foldl Qplus acc l == acc + py_sum l)%Q.
Proof.
  unfold py_sum. revert acc. induction l as [|x l IH]; intros acc; simpl.
  - by rewrite Qplus_0_r.
  - rewrite IH, (IH (0 + x)%Q). ring.
Qed.

Lemma py_sum_cons x l : (py_sum (x :: l) == x + py_sum l)%Q.
Proof. unfold py_sum at 1. simpl. rewrite py_sum_from. ring. Qed.

Lemma py_sum_Permutation l1 l2 : l1 ≡ₚ l2 -> (py_sum l1 == py_sum l2)%Q.
Proof.
  induction 1 as [|x l1 l2 _ IH|x y l|l1 l2 l3 _ IH1 _ IH2].
  - reflexivity.
  - by rewrite !py_sum_cons, IH.
  - rewrite !py_sum_cons. ring.
  - by rewrite IH1.
Qed.

(** The mean does not depend on the order of the scores. *)
Lemma avg_of_Permutation l1 l2 : l1 ≡ₚ l2 -> (avg_of l1 == avg_of l2)%Q.
Proof.
  intros H. destruct l1 as [|x l1], l2 as [|y l2].
  - reflexivity.
  - by apply Permutation_nil_l in H.
  - by apply Permutation_nil_r in H.
  - unfold avg_of, Py.len.
    rewrite (py_sum_Permutation _ _ H), (Permutation_length H). reflexivity.
Qed.

Lemma py_max_from m l :
  (m <= py_max m l)%Q /\ (forall x, x ∈ l -> (x <= py_max m l)%Q) /\
  (py_max m l = m \/ py_max m l ∈ l).
Proof.
  unfold py_max. revert m. induction l as [|x l IH]; intros m; simpl.
  - split; [apply Qle_refl|]. split; [by intros ? ?%not_elem_of_nil|by left].
  - destruct (Qle_bool x m) eqn:Hxm.
    + apply Qle_bool_iff in Hxm. destruct (IH m) as (H1 & H2 & H3).
      split; [done|]. split.
      * intros y [->|Hy]%elem_of_cons; [by eapply Qle_trans|by apply H2].
      * destruct H3 as [?|?]; [by left|right; by right].
    + assert (m <= x)%Q.
      { apply Qlt_le_weak, Qnot_le_lt. intros H%Qle_bool_iff. congruence. }
      destruct (IH x) as (H1 & H2 & H3). split; [by eapply Qle_trans|]. split.
      * intros y [->|Hy]%elem_of_cons; [done|by apply H2].
      * right. destruct H3 as [->|?]; [left|by right].
Qed.

(** [max_of] is an element of the list that no element exceeds. *)
Lemma max_of_spec l :
  l <> [] -> max_of l ∈ l /\ forall x, x ∈ l -> (x <= max_of l)%Q.
Proof.
  destruct l as [|m l]; [done|]. intros _. simpl.
  destruct (py_max_from m l) as (H1 & H2 & H3). split.
  - destruct H3 as [->|?]; [left|by right].
  - intros x [->|Hx]%elem_of_cons; [done|by apply H2].
Qed.

(** ** Clustering engine: the claims *)

Lemma inside_Permutation ms ms' p : ms ≡ₚ ms' -> inside ms p <-> inside ms' p.
Proof. intros H. unfold inside. by rewrite H. Qed.

Lemma internal_scores_Permutation ps ms ms' :
  ms ≡ₚ ms' -> internal_scores ps ms = internal_scores ps ms'.
Proof.
  intros H. unfold internal_scores. f_equal.
  apply list_filter_iff. intros p. by apply inside_Permutation.
Qed.

(** A cluster of two or more documents holds a retained pair of two
    different documents. *)
Lemma cluster_has_pair ps clusters r ms :
  well_clustered ps clusters -> (r, ms) ∈ clusters -> 2 <= Py.len ms ->
  exists p, p ∈ ps /\ doc1 p <> doc2 p /\ inside ms p.
Proof.
  intros (Hnd & Hdocs & Hclass) Hin Hlen.
  pose proof (cluster_members_NoDup _ _ _ Hnd Hin) as Hms.
  destruct (Hclass r ms Hin) as [_ Hc].
  destruct ms as [|x [|y ms]]; [unfold Py.len in Hlen; simpl in Hlen; lia..|].
  assert (Hxy : x <> y).
  { apply NoDup_cons in Hms as [Hx _]. intros ->. apply Hx. left. }
  assert (Hx : x ∈ x :: y :: ms) by left.
  assert (Hy : y ∈ x :: y :: ms) by (right; left).
  destruct (proj1 (Hc x y Hx) Hy) as [_ Hconn].
  destruct (connected_neq _ _ _ Hconn Hxy) as (p & Hp & Hne & H1 & H2).
  exists p. split; [done|]. split; [done|].
  assert (He : forall d, d = doc1 p \/ d = doc2 p -> d ∈ endpoints ps).
  { intros d Hd. apply elem_of_endpoints. by exists p. }
  split; apply (Hc x _ Hx); (split; [apply He; auto|done]).
Qed.

Lemma cluster_sims_nonempty ps ms p :
  NoDup ms -> p ∈ ps -> doc1 p <> doc2 p -> inside ms p ->
  cluster_sims (pair_lookup ps) ms <> [].
Proof.
  intros Hnd Hp Hne [H1 H2].
  destruct (pair_lookup_key ps p Hp) as [s Hs].
  assert (Hin : s ∈ cluster_sims (pair_lookup ps) ms).
  { rewrite cluster_sims_omap. apply list_elem_of_omap.
    exists (pair_key (doc1 p) (doc2 p)). split; [|done].
    apply elem_of_member_keys; [done|]. by exists (doc1 p), (doc2 p). }
  intros Heq. rewrite Heq in Hin. by apply not_elem_of_nil in Hin.
Qed.

Lemma wf_pairs_Permutation ps ps' : ps ≡ₚ ps' -> wf_pairs ps -> wf_pairs ps'.
Proof.
  intros H [Hne Hnd]. split.
  - intros p Hp. apply Hne. by rewrite H.
  - by rewrite <- H.
Qed.

Section ClusterClaims.
Variable set_iter : list string -> list string.

(** What a reported cluster is made from. *)
Lemma group_result_elem depth ps result c :
  enumerates (set_iter (endpoints ps)) (endpoints ps) ->
  group_similar_documents set_iter depth ps = Some result ->
  c ∈ result ->
  exists clusters r ms,
    well_clustered ps clusters /\ (r, ms) ∈ clusters /\ NoDup ms /\
    2 <= Py.len ms /\ c = cluster_info (pair_lookup ps) ms.
Proof.
  intros Hen Hg Hc.
  destruct (group_similar_documents_clusters _ _ _ _ Hg) as (clusters & Hcl & Hperm).
  rewrite Hperm in Hc.
  apply elem_of_format_clusters in Hc as (r & ms & Hin & Hlen & ->).
  pose proof (clusters_of_some _ _ _ _ Hen Hcl) as Hwf.
  exists clusters, r, ms. split; [done|]. split; [done|]. split; [|done].
  destruct Hwf as (Hnd & _). by eapply cluster_members_NoDup.
Qed.

(** C1. For every reported cluster the similarities its statistics are
    computed from are, up to order, the scores of exactly the retained
    pairs with both endpoints among the members, so the average similarity
    is their arithmetic mean and the maximum similarity their maximum:
    pairs of members that were not retained do not count. A cluster whose
    only such pair has similarity s has average and maximum s. The
    retained pairs are a set of pairs of distinct documents, one at most
    for any two documents. *)
Theorem C1_cluster_statistics depth ps result c :
  wf_pairs ps ->
  enumerates (set_iter (endpoints ps)) (endpoints ps) ->
  group_similar_documents set_iter depth ps = Some result ->
  c ∈ result ->
  (exists ms, members c = Py.sorted ms /\
     avg_similarity c = avg_of (cluster_sims (pair_lookup ps) ms) /\
     max_similarity c = max_of (cluster_sims (pair_lookup ps) ms) /\
     cluster_sims (pair_lookup ps) ms ≡ₚ internal_scores ps (members c)) /\
  internal_scores ps (members c) <> [] /\
  (avg_similarity c ==
     py_sum (internal_scores ps (members c)) /
     inject_Z (Py.len (internal_scores ps (members c))))%Q /\
  (exists p, p ∈ ps /\ inside (members c) p /\ max_similarity c = similarity p) /\
  (forall p, p ∈ ps -> inside (members c) p ->
     (similarity p <= max_similarity c)%Q) /\
  (forall p, filter (inside (members c)) ps = [p] ->
     (avg_similarity c == similarity p)%Q /\
     (max_similarity c == similarity p)%Q).
Proof.
  intros Hwf Hen Hg Hc.
  destruct (group_result_elem _ _ _ _ Hen Hg Hc)
    as (clusters & r & ms & Hcl & Hin & Hnd & Hlen & ->). simpl.
  rewrite (internal_scores_Permutation ps _ ms (sorted_Permutation ms)).
  assert (Hfil : filter (inside (Py.sorted ms)) ps = filter (inside ms) ps).
  { apply list_filter_iff. intros p. apply inside_Permutation, sorted_Permutation. }
  rewrite Hfil.
  pose proof (cluster_sims_internal ps ms Hwf Hnd) as Hperm.
  destruct (cluster_has_pair _ _ _ _ Hcl Hin Hlen) as (p0 & Hp0 & Hne0 & Hins0).
  pose proof (cluster_sims_nonempty ps ms p0 Hnd Hp0 Hne0 Hins0) as Hsims.
  assert (Hscores : internal_scores ps ms <> []).
  { intros Heq. rewrite Heq in Hperm. by apply Permutation_nil_r in Hperm. }
  destruct (max_of_spec _ Hsims) as [Hmax_in Hmax_ub].
  split; [by exists ms|].
  split; [done|]. split; [|split; [|split]];
    [|set (m := max_of (cluster_sims (pair_lookup ps) ms)) in *..|].
  - rewrite (avg_of_Permutation _ _ Hperm).
    destruct (internal_scores ps ms); [done|]. reflexivity.
  - rewrite Hperm in Hmax_in. unfold internal_scores in Hmax_in.
    apply list_elem_of_fmap in Hmax_in as (p & Hp & [Hins Hpin]%list_elem_of_filter).
    exists p. split; [done|]. split; [|done].
    by apply (inside_Permutation _ _ p (sorted_Permutation ms)).
  - intros p Hp Hins. apply Hmax_ub. rewrite Hperm.
    unfold internal_scores. apply list_elem_of_fmap. exists p. split; [done|].
    apply list_elem_of_filter. split; [|done].
    by apply (inside_Permutation _ _ p (sorted_Permutation ms)).
  - intros p Hp. unfold internal_scores in Hperm. rewrite Hp in Hperm.
    apply Permutation_singleton_r in Hperm. rewrite Hperm.
    unfold avg_of, max_of, py_sum, py_max, Py.len. simpl. split; [field|reflexivity].
Qed.

(** C9. Every cluster the clustering emits has two members or more and
    holds a retained pair with both endpoints among its members, so the
    list of similarities its statistics are taken from is not empty: the
    average is the sum over the length and the maximum is one of the
    similarities, never the fallback for an empty list. *)
Theorem C9_clusters_have_pairs depth ps result c :
  enumerates (set_iter (endpoints ps)) (endpoints ps) ->
  group_similar_documents set_iter depth ps = Some result ->
  c ∈ result ->
  2 <= size c /\
  (exists p, p ∈ ps /\ inside (members c) p) /\
  exists ms,
    members c = Py.sorted ms /\
    cluster_sims (pair_lookup ps) ms <> [] /\
    avg_similarity c =
      (py_sum (cluster_sims (pair_lookup ps) ms) /
       inject_Z (Py.len (cluster_sims (pair_lookup ps) ms)))%Q /\
    max_similarity c ∈ cluster_sims (pair_lookup ps) ms.
Proof.
  intros Hen Hg Hc.
  destruct (group_result_elem _ _ _ _ Hen Hg Hc)
    as (clusters & r & ms & Hcl & Hin & Hnd & Hlen & ->). simpl.
  destruct (cluster_has_pair _ _ _ _ Hcl Hin Hlen) as (p & Hp & Hne & Hins).
  pose proof (cluster_sims_nonempty ps ms p Hnd Hp Hne Hins) as Hsims.
  split; [done|]. split.
  - exists p. split; [done|].
    by apply (inside_Permutation _ _ p (sorted_Permutation ms)).
  - exists ms. split; [done|]. split; [done|]. split.
    + by destruct (cluster_sims (pair_lookup ps) ms).
    + by apply max_of_spec.
Qed.
End ClusterClaims.

Lemma class_list_Permutation ps ps' l :
  ps ≡ₚ ps' -> class_list ps l -> class_list ps' l.
Proof.
  intros H (Hs & Hnd & Hlen & x & Hx & Hc).
  split; [done|]. split; [done|]. split; [done|]. exists x. split; [done|].
  intros d. rewrite (Hc d), !elem_of_endpoints.
  rewrite (connected_perm ps ps' x d H). by setoid_rewrite H.
Qed.

(** The sorted member lists of the clusters kept are the sorted classes of
    two or more linked documents. *)
Lemma partition_elem ps clusters l :
  well_clustered ps clusters ->
  l ∈ map Py.sorted (kept_members clusters) <-> class_list ps l.
Proof.
  intros (Hnd & Hdocs & Hclass). split.
  - intros (ms & -> & (r & Hin & Hlen)%elem_of_kept_members)%list_elem_of_fmap.
    destruct (Hclass r ms Hin) as [Hne Hc].
    pose proof (cluster_members_NoDup _ _ _ Hnd Hin) as Hms.
    split; [apply sorted_Sorted|]. split; [by rewrite sorted_Permutation|].
    split; [rewrite (Permutation_length (sorted_Permutation ms));
            unfold Py.len in Hlen; lia|].
    destruct ms as [|x ms]; [done|]. exists x.
    split; [rewrite sorted_Permutation; left|].
    intros d. rewrite sorted_Permutation. apply Hc. left.
  - intros (Hs & Hl & Hlen & x & Hx & Hc).
    destruct (proj1 (Hc x) Hx) as [Hxe _].
    apply Hdocs, elem_of_cluster_docs in Hxe as (r & ms & Hin & Hxm).
    destruct (Hclass r ms Hin) as [_ Hcm].
    pose proof (cluster_members_NoDup _ _ _ Hnd Hin) as Hms.
    assert (Hperm : ms ≡ₚ l).
    { apply NoDup_Permutation; [done..|]. intros d. by rewrite (Hcm x d Hxm), Hc. }
    apply list_elem_of_fmap. exists ms. split.
    + rewrite (sorted_unique _ _ Hperm). symmetry. by apply sorted_of_Sorted.
    + apply elem_of_kept_members. exists r. split; [done|].
      unfold Py.len. rewrite (Permutation_length Hperm). lia.
Qed.

(** C2. For a fixed set of retained pairs the partition of the documents
    into cluster member sets is the same for every order the pairs are
    processed in (and every order the documents are iterated in): the member
    lists of two runs are the same lists, up to the order of the clusters.
    Running again on the same pairs is the case of the identity
    permutation. *)
Theorem C2_partition_order_independent set_iter set_iter' depth depth' ps ps' :
  ps ≡ₚ ps' ->
  enumerates (set_iter (endpoints ps)) (endpoints ps) ->
  enumerates (set_iter' (endpoints ps')) (endpoints ps') ->
  (length ps < depth)%nat -> (length ps' < depth')%nat ->
  exists result result',
    group_similar_documents set_iter depth ps = Some result /\
    group_similar_documents set_iter' depth' ps' = Some result' /\
    map members result ≡ₚ map members result'.
Proof.
  intros Hperm Hen Hen' Hd Hd'.
  destruct (group_similar_documents_total set_iter depth ps Hen Hd) as [result Hg].
  destruct (group_similar_documents_total set_iter' depth' ps' Hen' Hd') as [result' Hg'].
  exists result, result'. split; [done|]. split; [done|].
  destruct (group_similar_documents_clusters _ _ _ _ Hg) as (C & Hc & Hr).
  destruct (group_similar_documents_clusters _ _ _ _ Hg') as (C' & Hc' & Hr').
  pose proof (clusters_of_some _ _ _ _ Hen Hc) as Hwf.
  pose proof (clusters_of_some _ _ _ _ Hen' Hc') as Hwf'.
  rewrite Hr, Hr', !format_clusters_members.
  apply NoDup_Permutation.
  - apply kept_members_sorted_NoDup, Hwf.
  - apply kept_members_sorted_NoDup, Hwf'.
  - intros l. rewrite (partition_elem ps C l Hwf), (partition_elem ps' C' l Hwf').
    split; apply class_list_Permutation; [done|by symmetry].
Qed.

Lemma remove_dups_enumerates l : enumerates (Fixture.set_iter l) l.
Proof.
  split; [apply NoDup_remove_dups|]. intros d. apply elem_of_remove_dups.
Qed.

Lemma pair_xy_wf : wf_pairs [Fixture.pair_xy].
Proof.
  split.
  - intros p ->%list_elem_of_singleton. discriminate.
  - apply NoDup_singleton.
Qed.

Lemma C1_witness :
  exists c,
    group_similar_documents Fixture.set_iter 2 [Fixture.pair_xy] = Some [c] /\
    members c = ["X"; "Y"] /\
    (avg_similarity c == 9 # 10)%Q /\ (max_similarity c == 9 # 10)%Q.
Proof.
  pose (c := Cluster ["X"; "Y"] 2 (avg_of [9 # 10]%Q) (max_of [9 # 10]%Q)).
  assert (Hg : group_similar_documents Fixture.set_iter 2 [Fixture.pair_xy] = Some [c])
    by (vm_compute; reflexivity).
  exists c. split; [exact Hg|]. split; [reflexivity|].
  refine (proj2 (proj2 (proj2 (proj2 (proj2
            (C1_cluster_statistics Fixture.set_iter 2 [Fixture.pair_xy] [c] c
               pair_xy_wf (remove_dups_enumerates _) Hg (list_elem_of_here _ _))))))
            Fixture.pair_xy _).
  reflexivity.
Defined.

Lemma C9_witness :
  exists c,
    group_similar_documents Fixture.set_iter 2 [Fixture.pair_xy] = Some [c] /\
    2 <= size c /\
    exists p, p ∈ [Fixture.pair_xy] /\ inside (members c) p.
Proof.
  pose (c := Cluster ["X"; "Y"] 2 (avg_of [9 # 10]%Q) (max_of [9 # 10]%Q)).
  assert (Hg : group_similar_documents Fixture.set_iter 2 [Fixture.pair_xy] = Some [c])
    by (vm_compute; reflexivity).
  exists c. split; [exact Hg|].
  destruct (C9_clusters_have_pairs Fixture.set_iter 2 [Fixture.pair_xy] [c] c
              (remove_dups_enumerates _) Hg (list_elem_of_here _ _))
    as (Hsize & Hpair & _).
  split; [exact Hsize|exact Hpair].
Defined.

Lemma C2_witness :
  let ab := Pair "a" "b" "docx" "pdf" (9 # 10) "" "" in
  let bc := Pair "b" "c" "pdf" "docx" (8 # 10) "" "" in
  exists result result',
    group_similar_documents Fixture.set_iter 3 [ab; bc] = Some result /\
    group_similar_documents Fixture.set_iter 3 [bc; ab] = Some result' /\
    map members result ≡ₚ map members result'.
Proof.
  intros ab bc.
  apply (C2_partition_order_independent Fixture.set_iter Fixture.set_iter 3 3
           [ab; bc] [bc; ab]).
  - apply perm_swap.
  - apply remove_dups_enumerates.
  - apply remove_dups_enumerates.
  - simpl. lia.
  - simpl. lia.
Defined.

(** ** The retained pairs are well formed *)

Lemma NoDup_fmap_elem_inj {A B} (f : A -> B) (l : list A) x y :
  NoDup (map f l) -> x ∈ l -> y ∈ l -> f x = f y -> x = y.
Proof.
  induction l as [|z l IH]; [by intros _ ?%not_elem_of_nil|].
  change (map f (z :: l)) with (f z :: map f l).
  intros [Hz Hnd]%NoDup_cons Hx Hy Hf.
  assert (Hmem : forall a, a ∈ l -> f a ∈ map f l).
  { intros a Ha. apply list_elem_of_fmap. by exists a. }
  apply elem_of_cons in Hx as [->|Hx], Hy as [->|Hy]; try done.
  - exfalso. apply Hz. rewrite Hf. by apply Hmem.
  - exfalso. apply Hz. rewrite <- Hf. by apply Hmem.
  - by apply IH.
Qed.

Section ScannerWf.
Context {Emb : Type} (chunk_max_sim : Emb -> Emb -> Q).

Lemma scan_row_shape doc_embeddings threshold mode sel di rest row :
  scan_row chunk_max_sim doc_embeddings threshold mode sel di rest = Some row ->
  NoDup (map fst rest) ->
  NoDup (map doc2 row) /\
  forall p, p ∈ row -> doc1 p = fst di /\ doc2 p ∈ map fst rest.
Proof.
  revert row. induction rest as [|dj rest IH]; simpl; intros row Hs Hnd.
  - inversion Hs; subst. split; [constructor|]. by intros p ?%not_elem_of_nil.
  - apply NoDup_cons in Hnd as [Hj Hnd].
    destruct (compare_docs _ _ _ _ _ di dj) as [r|] eqn:Hc; [|done].
    destruct (scan_row _ _ _ _ _ di rest) as [row'|] eqn:Hr; [|done].
    destruct (IH row' eq_refl Hnd) as [Hnd' Hsh].
    inversion Hs; subst; clear Hs. destruct r as [q|].
    + apply compare_docs_some in Hc as (_ & H1 & H2 & _). split.
      * simpl. apply NoDup_cons. split; [|done].
        intros (p & Hp & Hin)%list_elem_of_fmap.
        apply Hsh in Hin as [_ Hin]. congruence.
      * intros p [->|Hp]%elem_of_cons.
        -- split; [done|]. rewrite H2. left.
        -- destruct (Hsh p Hp). split; [done|by right].
    + split; [done|]. intros p Hp. destruct (Hsh p Hp). split; [done|by right].
Qed.

(** The scanner retains pairs of distinct documents, one at most for any
    two documents, the names of the documents being distinct. *)
Lemma find_similar_pairs_wf doc_embeddings documents threshold mode sel ps :
  NoDup (map fst documents) ->
  find_similar_pairs chunk_max_sim doc_embeddings documents threshold mode sel
    = Some ps ->
  wf_pairs ps /\
  forall p, p ∈ ps -> doc1 p ∈ map fst documents /\ doc2 p ∈ map fst documents.
Proof.
  revert ps. induction documents as [|di rest IH]; simpl; intros ps Hnd Hf.
  - inversion Hf; subst. split; [|by intros p ?%not_elem_of_nil].
    split; [by intros p ?%not_elem_of_nil|constructor].
  - apply NoDup_cons in Hnd as [Hi Hnd].
    destruct (scan_row _ _ _ _ _ di rest) as [row|] eqn:Hr; [|done].
    destruct (find_similar_pairs _ _ rest _ _ _) as [ps'|] eqn:Hf'; [|done].
    inversion Hf; subst; clear Hf.
    destruct (IH ps' Hnd eq_refl) as [[Hne' Hk'] Hin'].
    destruct (scan_row_shape _ _ _ _ _ _ _ Hr Hnd) as [Hd2 Hsh].
    split; [split|].
    + intros p [Hp|Hp]%elem_of_app; [|by apply Hne'].
      destruct (Hsh p Hp) as [H1 H2]. rewrite H1. intros Heq. apply Hi.
      by rewrite Heq.
    + rewrite map_app. apply NoDup_app. split; [|split; [|done]].
      * apply NoDup_fmap_2_strong; [|by apply (NoDup_fmap_1 doc2)].
        intros p q Hp Hq Hk.
        destruct (Hsh p Hp) as [Hp1 Hp2], (Hsh q Hq) as [Hq1 Hq2].
        assert (doc2 p = doc2 q).
        { apply pair_key_inv in Hk as [[_ ?]|[H1 H2]]; [done|]. congruence. }
        by apply (NoDup_fmap_elem_inj doc2 row).
      * intros k (p & -> & Hp)%list_elem_of_fmap (q & Hk & Hq)%list_elem_of_fmap.
        destruct (Hsh p Hp) as [Hp1 _]. destruct (Hin' q Hq) as [Hq1 Hq2].
        apply Hi. apply pair_key_inv in Hk as [[H _]|[H _]]; congruence.
    + intros p [Hp|Hp]%elem_of_app.
      * destruct (Hsh p Hp) as [H1 H2]. rewrite H1. split; [left|by right].
      * destruct (Hin' p Hp). split; by right.
Qed.
End ScannerWf.

(** ** Recursion depth of the clustering *)

Lemma chain_name_inj j k : chain_name j = chain_name k -> j = k.
Proof.
  revert k. induction j as [|j IH]; intros [|k]; simpl; try discriminate.
  - done.
  - intros [= H]. f_equal. by apply IH.
Qed.

Lemma chain_sim_falls k : (chain_sim (S k) <= chain_sim k)%Q.
Proof.
  unfold Qle, chain_sim. simpl Qnum. simpl Qden.
  rewrite !Zpos_P_of_succ_nat. nia.
Qed.

Lemma chain_sim_threshold k : (default_threshold <= chain_sim k)%Q.
Proof.
  unfold Qle, chain_sim, default_threshold. simpl Qnum. simpl Qden.
  rewrite !Zpos_P_of_succ_nat. lia.
Qed.

Lemma elem_of_chain_pairs n p :
  p ∈ chain_pairs n <-> exists k, (k < n)%nat /\ p = chain_pair k.
Proof.
  unfold chain_pairs. rewrite list_elem_of_fmap. split.
  - intros (k & -> & Hk%elem_of_seq). exists k. split; [lia|done].
  - intros (k & Hk & ->). exists k. split; [done|]. apply elem_of_seq. lia.
Qed.

Lemma elem_of_chain_order n d :
  d ∈ chain_order n <-> exists k, (k <= n)%nat /\ d = chain_name k.
Proof.
  unfold chain_order. rewrite list_elem_of_fmap. split.
  - intros (k & -> & Hk%elem_of_seq). exists k. split; [lia|done].
  - intros (k & Hk & ->). exists k. split; [done|]. apply elem_of_seq. lia.
Qed.

Lemma chain_pairs_wf n : wf_pairs (chain_pairs n).
Proof.
  split.
  - intros p (k & _ & ->)%elem_of_chain_pairs. simpl.
    intros H%(chain_name_inj (S k) k). lia.
  - unfold chain_pairs. rewrite <- list_fmap_compose.
    apply NoDup_fmap_2_strong; [|apply NoDup_seq].
    intros j k _ _ H. simpl in H.
    apply pair_key_inv in H as [[_ H]|[H1 H2]].
    + by apply chain_name_inj.
    + apply (chain_name_inj (S j) k) in H1.
      apply (chain_name_inj j (S k)) in H2. lia.
Qed.

Lemma chain_order_enumerates n :
  (1 <= n)%nat -> enumerates (chain_order n) (endpoints (chain_pairs n)).
Proof.
  intros Hn. split.
  - unfold chain_order. apply NoDup_fmap_2_strong; [|apply NoDup_seq].
    intros j k _ _. apply chain_name_inj.
  - intros d. rewrite elem_of_chain_order, elem_of_endpoints. split.
    + intros (k & Hk & ->). destruct (decide (k < n)%nat) as [Hlt|Hge].
      * exists (chain_pair k). split; [|by right].
        apply elem_of_chain_pairs. by exists k.
      * destruct n as [|n]; [lia|]. assert (k = S n) as -> by lia.
        exists (chain_pair n). split; [|by left].
        apply elem_of_chain_pairs. exists n. split; [lia|done].
    + intros (p & (k & Hk & ->)%elem_of_chain_pairs & [-> | ->]); simpl.
      * exists (S k). split; [lia|done].
      * exists k. split; [lia|done].
Qed.

(** A list that is in order already is left as it is. *)
Lemma sort_by_Sorted_id {A} (first : A -> A -> bool) (l : list A) :
  Sorted (fun a b => first a b = true) l -> Py.sort_by first l = l.
Proof.
  induction 1 as [|x l Hl IH Hx]; simpl; [done|].
  rewrite IH. destruct Hx as [|y l' Hxy]; simpl; [done|]. by rewrite Hxy.
Qed.

Lemma chain_pairs_sorted n : sort_pairs (chain_pairs n) = chain_pairs n.
Proof.
  unfold sort_pairs. apply sort_by_Sorted_id. unfold chain_pairs.
  generalize 0%nat. induction n as [|n IH]; intros j; simpl; [constructor|].
  constructor; [apply IH|].
  destruct n as [|n]; simpl; constructor.
  apply Qle_bool_iff. apply chain_sim_falls.
Qed.

(** [union] of two representatives points the second at the first. *)
Lemma union_roots depth parent a b :
  (1 <= depth)%nat -> parent !! a = Some a -> parent !! b = Some b -> a <> b ->
  union depth parent a b = Some (<[b := a]> parent).
Proof.
  intros Hd Ha Hb Hne. destruct depth as [|depth]; [lia|].
  unfold union. simpl. rewrite Ha. rewrite decide_True by done.
  rewrite Hb. rewrite decide_True by done. by rewrite decide_False.
Qed.

(** Merging the pairs of the chain in order links the documents into one
    path: no [find] of a [union] shortens it. *)
Lemma merge_chain n depth m j parent :
  (1 <= depth)%nat -> (j + m = n)%nat -> chain_linked n j parent ->
  exists parent',
    merge_pairs depth parent (map chain_pair (seq j m)) = Some parent' /\
    chain_linked n n parent'.
Proof.
  intros Hd. revert j parent. induction m as [|m IH]; intros j parent Hj Hl.
  - assert (j = n) as -> by lia. by exists parent.
  - destruct Hl as [Hlow Hhigh].
    change (map chain_pair (seq j (S m)))
      with (chain_pair j :: map chain_pair (seq (S j) m)).
    cbn [merge_pairs].
    change (doc1 (chain_pair j)) with (chain_name (S j)).
    change (doc2 (chain_pair j)) with (chain_name j).
    rewrite (union_roots depth parent (chain_name (S j)) (chain_name j));
      [|done|apply Hhigh; lia|apply Hhigh; lia|].
    + apply IH; [lia|]. split.
      * intros k Hk. destruct (decide (k = j)) as [->|Hne].
        -- apply lookup_insert_eq.
        -- rewrite lookup_insert_ne; [apply Hlow; lia|].
           intros H%chain_name_inj. lia.
      * intros k Hk. rewrite lookup_insert_ne; [apply Hhigh; lia|].
        intros H%chain_name_inj. lia.
    + intros H%(chain_name_inj (S j) j). lia.
Qed.

(** On the path [find] needs one level of recursion for every link. *)
Lemma find_chain n parent :
  chain_linked n n parent ->
  forall depth k, (k + depth <= n)%nat -> find depth parent (chain_name k) = None.
Proof.
  intros [Hlow _]. induction depth as [|depth IH]; intros k Hk; [done|].
  simpl. rewrite (Hlow k) by lia.
  destruct (decide (chain_name (S k) = chain_name k)) as [H|_].
  - apply chain_name_inj in H. lia.
  - by rewrite IH by lia.
Qed.

(** For every recursion depth there is a set of retained pairs, as the
    scanner and the sort hand them over, and an iteration order of its
    documents, on which the clustering runs out of recursion depth: a chain
    of as many pairs as the depth. One level more is enough for it. *)
Lemma chain_recursion n :
  (1 <= n)%nat ->
  wf_pairs (chain_pairs n) /\
  sort_pairs (chain_pairs n) = chain_pairs n /\
  (forall p, p ∈ chain_pairs n -> (default_threshold <= similarity p)%Q) /\
  enumerates (chain_order n) (endpoints (chain_pairs n)) /\
  length (chain_pairs n) = n /\
  group_similar_documents (fun _ => chain_order n) n (chain_pairs n) = None /\
  is_Some (group_similar_documents (fun _ => chain_order n) (S n) (chain_pairs n)).
Proof.
  intros Hn. pose proof (chain_order_enumerates n Hn) as Hen.
  assert (Hlen : length (chain_pairs n) = n).
  { unfold chain_pairs. by rewrite length_map, length_seq. }
  split; [apply chain_pairs_wf|]. split; [apply chain_pairs_sorted|].
  split; [|split; [done|split; [done|split]]].
  - intros p (k & _ & ->)%elem_of_chain_pairs. apply chain_sim_threshold.
  - unfold group_similar_documents, clusters_of, all_docs.
    destruct (merge_chain n n n 0 (init_parent (chain_order n)))
      as (parent & Hm & Hl); [done|lia| |].
    { split; [intros k Hk; lia|]. intros k Hk.
      rewrite init_parent_lookup. rewrite decide_True; [done|].
      apply elem_of_chain_order. exists k. split; [lia|done]. }
    unfold chain_pairs at 1. rewrite Hm.
    change (chain_order n) with (chain_name 0 :: map chain_name (seq 1 n)).
    cbn [build_clusters].
    by rewrite (find_chain n parent Hl n 0) by lia.
  - apply group_similar_documents_total; [done|]. rewrite Hlen. lia.
Qed.

(** ** The run *)

Lemma dict_get_is_Some {V} (d : dict V) k :
  k ∈ map fst d -> is_Some (dict_get d k).
Proof.
  unfold dict_get. induction d as [|[k0 v0] d IH]; simpl.
  - by intros ?%not_elem_of_nil.
  - intros [->|Hk]%elem_of_cons.
    + rewrite bool_decide_eq_true_2 by done. simpl. eauto.
    + destruct (bool_decide (k0 = k)); simpl; [eauto|by apply IH].
Qed.

Lemma make_members_total documents metadata ms :
  (forall m, m ∈ ms -> m ∈ map fst documents) ->
  is_Some (make_members documents metadata ms).
Proof.
  induction ms as [|m ms IH]; simpl; intros Hms; [done|].
  destruct (dict_get_is_Some documents m) as [d ->]; [apply Hms; left|].
  destruct IH as [rest ->]; [intros; apply Hms; by right|]. done.
Qed.

Lemma make_clusters_total documents metadata i clusters :
  (forall c m, c ∈ clusters -> m ∈ members c -> m ∈ map fst documents) ->
  is_Some (make_clusters documents metadata i clusters).
Proof.
  revert i. induction clusters as [|c cs IH]; simpl; intros i Hcs; [done|].
  destruct (make_members_total documents metadata (members c)) as [mds ->].
  { intros m Hm. apply (Hcs c); [left|done]. }
  destruct (IH (i + 1)) as [rest ->]; [|done].
  intros c' m Hc'. apply Hcs. by right.
Qed.

Section RunFacts.
Context {Emb : Type}.
Variable encode : list string -> Emb.
Variable chunk_max_sim : Emb -> Emb -> Q.
Variable set_iter : list string -> list string.
Variable rt : runtime.

(** Every document is chunked, with the defaults, and embedded, unless the
    provider raises. *)
Lemma embed_all_total documents acc :
  (forall name, name ∈ map fst documents -> raises rt (Encode name) = false) ->
  exists doc_embeddings,
    embed_all encode rt documents acc = Some doc_embeddings /\
    forall k, k ∈ map fst documents \/ is_Some (acc !! k) ->
              is_Some (doc_embeddings !! k).
Proof.
  revert acc. induction documents as [|[name d] rest IH]; intros acc Hr; simpl.
  - exists acc. split; [done|]. intros k [?%not_elem_of_nil|?]; done.
  - destruct (chunk_text_terminates (doc_text d) default_chunk_size default_overlap
                (length (Py.split (doc_text d)))) as [chunks ->]; [done|lia|].
    rewrite (Hr name) by left.
    destruct (IH (<[name := encode chunks]> acc)) as (emb & -> & Hemb).
    { intros n Hn. apply Hr. by right. }
    exists emb. split; [done|]. intros k Hk. apply Hemb.
    rewrite lookup_insert_is_Some'.
    destruct Hk as [[->|Hk]%elem_of_cons|Hk]; auto.
Qed.

(** The provider was called for every document and raised for none. *)
Lemma embed_all_calls documents acc doc_embeddings name :
  embed_all encode rt documents acc = Some doc_embeddings ->
  name ∈ map fst documents -> raises rt (Encode name) = false.
Proof.
  revert acc. induction documents as [|[n d] rest IH]; intros acc; simpl.
  - by intros _ ?%not_elem_of_nil.
  - destruct (chunk_text _ (doc_text d) _ _) as [chunks|]; [|done].
    destruct (raises rt (Encode n)) eqn:Hn; [done|].
    intros He [->|Hin]%elem_of_cons; [done|]. by eapply IH.
Qed.

(** The documents' embeddings are those of the chunks [chunk_text] gives
    with its defaults. *)
Lemma embed_all_chunks documents acc doc_embeddings name :
  embed_all encode rt documents acc = Some doc_embeddings ->
  name ∈ map fst documents ->
  exists d chunks,
    (name, d) ∈ documents /\
    chunk_text (length (Py.split (doc_text d))) (doc_text d)
      default_chunk_size default_overlap = Some chunks /\
    doc_embeddings !! name = Some (encode chunks).
Proof.
  revert acc. induction documents as [|[n d] rest IH]; intros acc; simpl.
  - by intros _ ?%not_elem_of_nil.
  - destruct (chunk_text _ (doc_text d) _ _) as [chunks|] eqn:Hc; [|done].
    destruct (raises rt (Encode n)); [done|].
    intros He Hn. destruct (decide (name ∈ map fst rest)) as [Hin|Hnin].
    + destruct (IH _ He Hin) as (d' & cs & Hd' & Hcs & Hl).
      exists d', cs. split; [by right|done].
    + apply elem_of_cons in Hn as [->|Hn]; [|done].
      exists d, chunks. split; [left|]. split; [done|].
      clear IH Hc. revert acc He.
      assert (Hgen : forall acc' v, acc' !! n = Some v ->
                embed_all encode rt rest acc' = Some doc_embeddings ->
                doc_embeddings !! n = Some v).
      { clear -Hnin. induction rest as [|[n' d'] rest IH]; intros acc' v Hv; simpl.
        - by intros [= <-].
        - destruct (chunk_text _ _ _ _) as [cs|]; [|done].
          destruct (raises rt (Encode n')); [done|].
          apply IH.
          + intros H. apply Hnin. by right.
          + rewrite lookup_insert_ne; [done|]. intros ->. apply Hnin. left. }
      intros acc He. apply (Hgen _ _ (lookup_insert_eq _ _ _) He).
Qed.

Lemma run_documents_refused metadata documents choice_line types_line :
  Py.len documents < 2 ->
  run_documents encode chunk_max_sim set_iter rt metadata documents
    choice_line types_line = NoReport.
Proof.
  intros Hlen. unfold run_documents.
  by destruct (Z.ltb_spec (Py.len documents) 2); [|lia].
Qed.

(** With two documents or more the run is not refused. *)
Lemma run_documents_not_refused metadata documents choice_line types_line :
  2 <= Py.len documents ->
  run_documents encode chunk_max_sim set_iter rt metadata documents
    choice_line types_line <> NoReport.
Proof.
  intros Hlen. unfold run_documents.
  destruct (Z.ltb_spec (Py.len documents) 2); [lia|].
  destruct (raises rt ReadChoice); [done|].
  destruct (bool_decide (Py.strip choice_line = "3") && raises rt ReadTypes); [done|].
  destruct (choose_mode choice_line types_line) as [mode sel].
  destruct (raises rt LoadModel); [done|].
  destruct (embed_all encode rt documents ∅); [|done].
  destruct (find_similar_pairs _ _ _ _ _ _); [|done].
  match goal with
  | |- context [match ?x with Some _ => _ | None => Raised end] => destruct x
  end; [|done].
  by destruct (raises rt WriteReport).
Qed.

(** A run that wrote its report made every external call on the way, and
    none raised. *)
Lemma run_documents_calls metadata documents choice_line types_line r :
  run_documents encode chunk_max_sim set_iter rt metadata documents
    choice_line types_line = Report r ->
  run_calls_return rt documents choice_line.
Proof.
  unfold run_documents, run_calls_return.
  destruct (Py.len documents <? 2); [done|].
  destruct (raises rt ReadChoice); [done|].
  case_bool_decide as Hc; simpl.
  - destruct (raises rt ReadTypes); [done|].
    destruct (choose_mode choice_line types_line) as [mode sel].
    destruct (raises rt LoadModel); [done|].
    destruct (embed_all encode rt documents ∅) as [emb|] eqn:He; [|done].
    destruct (find_similar_pairs _ _ _ _ _ _); [|done].
    match goal with
    | |- context [match ?x with Some _ => _ | None => Raised end] => destruct x
    end; [|done].
    destruct (raises rt WriteReport); [done|]. intros _.
    repeat split; try done. intros name Hn. by eapply embed_all_calls.
  - destruct (choose_mode choice_line types_line) as [mode sel].
    destruct (raises rt LoadModel); [done|].
    destruct (embed_all encode rt documents ∅) as [emb|] eqn:He; [|done].
    destruct (find_similar_pairs _ _ _ _ _ _); [|done].
    match goal with
    | |- context [match ?x with Some _ => _ | None => Raised end] => destruct x
    end; [|done].
    destruct (raises rt WriteReport); [done|]. intros _.
    repeat split; try done. intros name Hn. by eapply embed_all_calls.
Qed.

Lemma choose_mode_select types_line :
  choose_mode "3" types_line =
  ("select", Some (map Py.strip (Py.split_on "," (Py.strip types_line)))).
Proof. reflexivity. Qed.

(** Without the folder of extracted text there is no report either. *)
Lemma main_no_folder fs metadata_json choice_line types_line :
  listdir fs "extracted_text" = None ->
  main encode chunk_max_sim set_iter rt fs metadata_json choice_line types_line
    = NoReport.
Proof. unfold main. by intros ->. Qed.

Hypothesis set_iter_enumerates : forall l, enumerates (set_iter l) l.

(** Once the embeddings are there, scanning returns; and clustering and
    the building of the cluster entries return when the recursion depth
    is above the number of retained pairs. *)
Lemma pipeline_total metadata documents doc_embeddings mode sel :
  embed_all encode rt documents ∅ = Some doc_embeddings ->
  exists found,
    find_similar_pairs chunk_max_sim doc_embeddings documents default_threshold
      mode sel = Some found /\
    (2 * length found <= length documents * (length documents - 1))%nat /\
    forall depth, (length found < depth)%nat ->
      exists clusters cds,
        group_similar_documents set_iter depth (sort_pairs found) = Some clusters /\
        make_clusters documents metadata 1 clusters = Some cds.
Proof.
  intros He.
  destruct (find_similar_pairs_total chunk_max_sim doc_embeddings documents
              default_threshold mode sel) as [found Hf].
  { intros [name d] Hd.
    destruct (embed_all_chunks documents ∅ doc_embeddings name He)
      as (_ & chunks & _ & _ & Hemb); [|simpl; by rewrite Hemb].
    apply list_elem_of_fmap. by exists (name, d). }
  exists found. split; [done|].
  split; [by eapply find_similar_pairs_length|].
  intros depth Hd.
  assert (Hnames : forall p, p ∈ sort_pairs found ->
            doc1 p ∈ map fst documents /\ doc2 p ∈ map fst documents).
  { intros p Hp. unfold sort_pairs in Hp. rewrite sort_by_Permutation in Hp.
    destruct (find_similar_pairs_elem _ _ _ _ _ _ _ _ Hf Hp)
      as (l1 & di & l2 & dj & l3 & -> & Hc).
    apply compare_docs_some in Hc as (_ & -> & -> & _).
    rewrite !map_app. simpl. rewrite map_app. simpl.
    split; rewrite !elem_of_app, !elem_of_cons; auto.
    right. right. rewrite elem_of_app, elem_of_cons. auto. }
  assert (Hlen : length (sort_pairs found) = length found).
  { apply Permutation_length, sort_by_Permutation. }
  destruct (group_similar_documents_total set_iter depth (sort_pairs found))
    as [clusters Hg]; [done|lia|].
  exists clusters.
  destruct (make_clusters_total documents metadata 1 clusters) as [cds Hcds];
    [|by exists cds].
  intros c m Hc Hm.
  destruct (group_result_elem set_iter _ _ _ c (set_iter_enumerates _) Hg Hc)
    as (C & r & ms & (_ & Hdocs & _) & Hin & _ & _ & ->).
  simpl in Hm. rewrite sorted_Permutation in Hm.
  assert (Hend : m ∈ endpoints (sort_pairs found)).
  { apply Hdocs, elem_of_cluster_docs. eauto. }
  apply elem_of_endpoints in Hend as (q & Hq & [->| ->]); by apply Hnames.
Qed.

(** With two documents or more, external calls that return and a recursion
    depth above the number of pairs of documents, the run ends with a
    report. *)
Lemma run_documents_total metadata documents choice_line types_line :
  2 <= Py.len documents ->
  run_calls_return rt documents choice_line ->
  (length documents * (length documents - 1) < 2 * recursion_limit rt)%nat ->
  exists r,
    run_documents encode chunk_max_sim set_iter rt metadata documents
      choice_line types_line = Report r /\
    st_mode (r_settings r) = fst (choose_mode choice_line types_line) /\
    st_selected_types (r_settings r) = snd (choose_mode choice_line types_line).
Proof.
  intros Hlen (Hch & Hty & Hmodel & Henc & Hwr) Hdepth. unfold run_documents.
  destruct (Z.ltb_spec (Py.len documents) 2); [lia|].
  rewrite Hch.
  assert (Htypes : bool_decide (Py.strip choice_line = "3") && raises rt ReadTypes
                   = false).
  { case_bool_decide as Hc; [|done]. simpl. by apply Hty. }
  rewrite Htypes.
  destruct (choose_mode choice_line types_line) as [mode sel]. simpl.
  rewrite Hmodel.
  destruct (embed_all_total documents ∅ Henc) as (emb & He & _). rewrite He.
  destruct (pipeline_total metadata documents emb mode sel He)
    as (found & -> & Hcount & Hrest).
  destruct (Hrest (recursion_limit rt)) as (clusters & cds & Hg & Hm); [lia|].
  destruct (sort_pairs found) as [|p ps] eqn:Hs.
  - rewrite Hwr. by eexists.
  - rewrite Hg, Hm, Hwr. by eexists.
Qed.


(** C7, as amended. If the document set has fewer than 2 entries no report
    is produced: the run is refused, once its results folder is made and
    its metadata loaded. The types selected for [select] mode are not
    checked against the documents: with two documents or more the run is
    not refused whatever types were entered, also types no document has;
    a report it ends with records the selection as typed, and it does end
    with a report when the external calls return and the recursion depth
    is above the number of pairs of documents. *)
Theorem C7_input_errors fs metadata_json documents choice_line types_line :
  load_all_documents fs "extracted_text" = Some documents ->
  (Py.len documents < 2 ->
     (forall r,
        main encode chunk_max_sim set_iter rt fs metadata_json choice_line types_line
          <> Report r) /\
     (raises rt MakeResultsFolder = false ->
      (is_Some metadata_json -> raises rt LoadMetadata = false) ->
      main encode chunk_max_sim set_iter rt fs metadata_json choice_line types_line
        = NoReport)) /\
  (2 <= Py.len documents ->
     main encode chunk_max_sim set_iter rt fs metadata_json "3" types_line
       <> NoReport /\
     (forall r,
        main encode chunk_max_sim set_iter rt fs metadata_json "3" types_line
          = Report r ->
        st_mode (r_settings r) = "select" /\
        st_selected_types (r_settings r) =
          Some (map Py.strip (Py.split_on "," (Py.strip types_line)))) /\
     (calls_return rt metadata_json documents "3" ->
      (length documents * (length documents - 1) < 2 * recursion_limit rt)%nat ->
      exists r,
        main encode chunk_max_sim set_iter rt fs metadata_json "3" types_line
          = Report r)).
Proof.
  intros Hload.
  assert (Hfolder : is_Some (listdir fs "extracted_text")).
  { unfold load_all_documents in Hload.
    by destruct (listdir fs "extracted_text"). }
  destruct Hfolder as [files Hfiles]. split.
  - intros Hlen. split.
    + intros r (documents' & Hload' & Hrun)%main_report.
      rewrite Hload in Hload'. injection Hload' as <-.
      by rewrite run_documents_refused in Hrun.
    + intros Hmk Hmd.
      rewrite (main_loaded encode chunk_max_sim set_iter rt fs metadata_json
                 choice_line types_line documents Hload Hmk Hmd).
      by apply run_documents_refused.
  - intros Hlen. split; [|split].
    + unfold main. rewrite Hfiles, Hload.
      destruct (raises rt MakeResultsFolder); [done|].
      destruct (bool_decide (is_Some metadata_json) && raises rt LoadMetadata);
        [done|].
      by apply run_documents_not_refused.
    + intros r (documents' & Hload' & Hrun)%main_report.
      rewrite Hload in Hload'. injection Hload' as <-.
      unfold run_documents in Hrun.
      destruct (Py.len documents <? 2); [done|].
      destruct (raises rt ReadChoice); [done|].
      destruct (bool_decide (Py.strip "3" = "3") && raises rt ReadTypes); [done|].
      rewrite choose_mode_select in Hrun.
      destruct (raises rt LoadModel); [done|].
      destruct (embed_all encode rt documents ∅); [|done].
      destruct (find_similar_pairs _ _ _ _ _ _); [|done].
      match type of Hrun with
      | context [match ?x with Some _ => _ | None => Raised end] => destruct x
      end; [|done].
      destruct (raises rt WriteReport); [done|]. by injection Hrun as <-.
    + intros (Hmk & Hmd & Hcalls) Hdepth.
      rewrite (main_loaded encode chunk_max_sim set_iter rt fs metadata_json
                 "3" types_line documents Hload Hmk Hmd).
      destruct (run_documents_total (default ∅ metadata_json) documents
                  "3" types_line Hlen Hcalls Hdepth) as (r & Hr & _).
      by exists r.
Qed.
End RunFacts.


(** ** A run on a chain of documents *)

Lemma chain_name_length k : String.length (chain_name k) = S k.
Proof. induction k as [|k IH]; simpl; [done|]. by rewrite IH. Qed.

Lemma chain_name_word k : is_word (chain_name k).
Proof.
  split; [by destruct k|].
  induction k as [|k IH]; simpl; repeat constructor. exact IH.
Qed.

Lemma chain_name_split k : Py.split (chain_name k) = [chain_name k].
Proof.
  apply (split_join [chain_name k]). constructor; [apply chain_name_word|constructor].
Qed.

Lemma chain_max_sim_names j k :
  chain_max_sim (chain_name j) (chain_name k) =
  if decide (j = S k) then chain_sim k else 0%Q.
Proof.
  unfold chain_max_sim. rewrite chain_name_length.
  replace (S k - 1)%nat with k by lia.
  destruct (decide (j = S k)) as [->|Hne].
  - by rewrite decide_True.
  - rewrite decide_False; [done|].
    intros H. apply Hne. by apply (chain_name_inj j (S k)).
Qed.

Lemma chain_sim_strict j k : (j < k)%nat -> (chain_sim k < chain_sim j)%Q.
Proof.
  intros Hjk. unfold Qlt, chain_sim. simpl Qnum. simpl Qden.
  rewrite !Zpos_P_of_succ_nat. nia.
Qed.

Lemma chain_pairs_S n : chain_pairs (S n) = chain_pairs n ++ [chain_pair n].
Proof. unfold chain_pairs. by rewrite seq_S, map_app. Qed.

Lemma elem_of_chain_documents n name d :
  (name, d) ∈ chain_documents n <->
  exists k, (k <= n)%nat /\ (name, d) = chain_document k.
Proof.
  induction n as [|n IH]; simpl.
  - rewrite list_elem_of_singleton. split.
    + intros ->. exists 0%nat. split; [lia|done].
    + intros (k & Hk & ->). by replace k with 0%nat by lia.
  - rewrite elem_of_cons, IH. split.
    + intros [->|(k & Hk & ->)]; [exists (S n)|exists k]; split; (lia || done).
    + intros (k & Hk & ->). destruct (decide (k = S n)) as [->|Hne]; [by left|].
      right. exists k. split; [lia|done].
Qed.

Lemma chain_documents_length n : length (chain_documents n) = S n.
Proof. induction n as [|n IH]; simpl; [done|]. by rewrite IH. Qed.

(** An element that goes before none is put last. *)
Lemma insert_sorted_last {A} (first : A -> A -> bool) x l :
  (forall y, y ∈ l -> first x y = false) -> Py.insert_sorted first x l = l ++ [x].
Proof.
  induction l as [|y l IH]; intros Hl; simpl; [done|].
  rewrite (Hl y) by left. f_equal. apply IH. intros z Hz. apply Hl. by right.
Qed.

(** Sorting puts the pairs the scanner emits in the order of the chain. *)
Lemma chain_pairs_sort_rev n : sort_pairs (rev (chain_pairs n)) = chain_pairs n.
Proof.
  induction n as [|n IH]; [done|].
  rewrite chain_pairs_S, rev_app_distr. simpl rev. simpl app.
  unfold sort_pairs in *. cbn [Py.sort_by]. rewrite IH.
  apply insert_sorted_last.
  intros y (j & Hj & ->)%elem_of_chain_pairs. simpl.
  apply not_true_iff_false. rewrite Qle_bool_iff.
  apply Qlt_not_le. by apply chain_sim_strict.
Qed.

Section ChainScan.
Variable n : nat.
Variable doc_embeddings : gmap string string.
Hypothesis embedded :
  forall k, (k <= n)%nat -> doc_embeddings !! chain_name k = Some (chain_name k).

Lemma chain_compare j k :
  (j <= n)%nat -> (k <= n)%nat ->
  compare_docs chain_max_sim doc_embeddings default_threshold "all" None
    (chain_document j) (chain_document k) =
  Some (if decide (j = S k) then Some (chain_pair k) else None).
Proof.
  intros Hj Hk. unfold chain_document, compare_docs.
  rewrite candidate_all, (embedded j Hj), (embedded k Hk).
  cbn [doc_text doc_type]. rewrite chain_max_sim_names.
  destruct (decide (j = S k)) as [->|Hne].
  - pose proof (chain_sim_threshold k) as Hq. apply Qle_bool_iff in Hq.
    by rewrite Hq.
  - done.
Qed.

Lemma chain_scan_row j m :
  (m < j)%nat -> (j <= n)%nat ->
  scan_row chain_max_sim doc_embeddings default_threshold "all" None
    (chain_document j) (chain_documents m) =
  Some (if decide (j = S m) then [chain_pair m] else []).
Proof.
  intros Hm Hj. induction m as [|m IH].
  - cbn [chain_documents scan_row]. rewrite chain_compare by lia.
    by destruct (decide (j = 1%nat)).
  - cbn [chain_documents scan_row]. rewrite chain_compare by lia.
    rewrite IH by lia. rewrite (decide_False (P := j = S m)) by lia.
    by destruct (decide (j = S (S m))).
Qed.

(** The scanner emits the pairs of the chain, from its far end on. *)
Lemma chain_find_similar_pairs m :
  (m <= n)%nat ->
  find_similar_pairs chain_max_sim doc_embeddings (chain_documents m)
    default_threshold "all" None = Some (rev (chain_pairs m)).
Proof.
  induction m as [|m IH]; intros Hm.
  - done.
  - cbn [chain_documents find_similar_pairs].
    rewrite chain_scan_row by lia. rewrite decide_True by done.
    rewrite IH by lia. by rewrite chain_pairs_S, rev_app_distr.
Qed.
End ChainScan.

(** The run embeds every document of the chain as its text. *)
Lemma chain_embed_all n depth :
  exists doc_embeddings,
    embed_all Fixture.encode (Fixture.quiet depth) (chain_documents n) ∅
      = Some doc_embeddings /\
    forall k, (k <= n)%nat -> doc_embeddings !! chain_name k = Some (chain_name k).
Proof.
  destruct (embed_all_total Fixture.encode (Fixture.quiet depth) (chain_documents n) ∅)
    as (emb & He & _); [done|].
  exists emb. split; [done|]. intros k Hk.
  destruct (embed_all_chunks Fixture.encode (Fixture.quiet depth) (chain_documents n)
              ∅ emb (chain_name k) He) as (d & chunks & Hin & Hch & Hl).
  { apply list_elem_of_fmap. exists (chain_document k). split; [done|].
    apply elem_of_chain_documents. by exists k. }
  etrans; [exact Hl|].
  apply elem_of_chain_documents in Hin as (k' & _ & [= Hname ->]).
  apply chain_name_inj in Hname as <-. cbn [doc_text] in Hch.
  rewrite chunk_text_small in Hch.
  - by injection Hch as <-.
  - rewrite chain_name_split. unfold Py.len, default_chunk_size. simpl. lia.
Qed.

(** For every recursion depth there is a run that raises in the
    clustering: the documents of a chain of as many pairs as the depth are
    loaded, embedded and scanned, every external call returns, the sorted
    pairs are those of the chain, and [find] runs out of recursion
    depth. *)
Lemma chain_run_raises n metadata :
  (1 <= n)%nat ->
  NoDup (map fst (chain_documents n)) /\
  (exists doc_embeddings,
     embed_all Fixture.encode (Fixture.quiet n) (chain_documents n) ∅
       = Some doc_embeddings /\
     find_similar_pairs chain_max_sim doc_embeddings (chain_documents n)
       default_threshold "all" None = Some (rev (chain_pairs n))) /\
  sort_pairs (rev (chain_pairs n)) = chain_pairs n /\
  enumerates (chain_order n) (endpoints (chain_pairs n)) /\
  run_documents Fixture.encode chain_max_sim (fun _ => chain_order n)
    (Fixture.quiet n) metadata (chain_documents n) "1" "" = Raised.
Proof.
  intros Hn.
  destruct (chain_embed_all n n) as (emb & He & Hemb).
  pose proof (chain_find_similar_pairs n emb Hemb n (Nat.le_refl n)) as Hf.
  destruct (chain_recursion n Hn) as (_ & _ & _ & Hen & Hlen & Hraise & _).
  split; [|split; [by exists emb|split; [apply chain_pairs_sort_rev|split; [done|]]]].
  - induction n as [|m IH'] in |- *; simpl.
    + apply NoDup_singleton.
    + clear IH'. apply NoDup_cons. split.
      * intros ([name d] & Hname & (k & Hk & [= -> ->])%elem_of_chain_documents)%list_elem_of_fmap.
        simpl in Hname. apply (chain_name_inj (S m) k) in Hname. lia.
      * clear. induction m as [|m IH]; simpl; [apply NoDup_singleton|].
        apply NoDup_cons. split; [|done].
        intros ([name d] & Hname & (k & Hk & [= -> ->])%elem_of_chain_documents)%list_elem_of_fmap.
        simpl in Hname. apply (chain_name_inj (S m) k) in Hname. lia.
  - unfold run_documents.
    destruct (Z.ltb_spec (Py.len (chain_documents n)) 2) as [Hlt|_].
    { unfold Py.len in Hlt. rewrite chain_documents_length in Hlt. lia. }
    cbn [raises Fixture.quiet].
    change (Py.strip "1") with "1". rewrite andb_false_r.
    change (choose_mode "1" "") with ("all", @None (list string)).
    cbv beta iota. rewrite He. unfold Fixture.emb in *.
    rewrite Hf, chain_pairs_sort_rev.
    cbn [recursion_limit Fixture.quiet]. rewrite Hraise.
    destruct (chain_pairs n) as [|p ps] eqn:Hs; [|done].
    simpl in Hlen. lia.
Qed.



(** C7 as stated fails for the type selection: "xlsx" is selected, no
    document has that type, and the run ends with a report. *)
Lemma C7_counterexample :
  exists documents r,
    load_all_documents Fixture.fs "extracted_text" = Some documents /\
    main Fixture.encode Fixture.chunk_max_sim Fixture.set_iter (Fixture.quiet 1000)
      Fixture.fs None "3" "docx,xlsx" = Report r /\
    st_selected_types (r_settings r) = Some ["docx"; "xlsx"] /\
    Forall (fun d => doc_type (snd d) <> "xlsx") documents.
Proof.
  eexists _, _. split; [reflexivity|]. split; [vm_compute; reflexivity|].
  split; [reflexivity|]. repeat constructor; discriminate.
Qed.

Lemma C7_witness :
  main Fixture.encode Fixture.chunk_max_sim Fixture.set_iter (Fixture.quiet 1000)
    Fixture.fs_one None "3" "docx,xlsx" = NoReport /\
  main Fixture.encode Fixture.chunk_max_sim Fixture.set_iter (Fixture.quiet 1000)
    Fixture.fs None "3" "docx,xlsx" <> NoReport /\
  exists r,
    main Fixture.encode Fixture.chunk_max_sim Fixture.set_iter (Fixture.quiet 1000)
      Fixture.fs None "3" "docx,xlsx" = Report r /\
    st_mode (r_settings r) = "select" /\
    st_selected_types (r_settings r) = Some ["docx"; "xlsx"].
Proof.
  pose proof (C7_input_errors Fixture.encode Fixture.chunk_max_sim Fixture.set_iter
                (Fixture.quiet 1000) remove_dups_enumerates Fixture.fs_one None
                [("a.txt", Document "alpha" "unknown")] "3" "docx,xlsx" eq_refl)
    as [Hone _].
  pose proof (C7_input_errors Fixture.encode Fixture.chunk_max_sim Fixture.set_iter
                (Fixture.quiet 1000) remove_dups_enumerates Fixture.fs None
                [("a.txt", Document "alpha" "docx");
                 ("b.txt", Document "alpha" "unknown")] "1" "docx,xlsx" eq_refl)
    as [_ Htwo].
  destruct Hone as [_ Hone]; [reflexivity|].
  destruct Htwo as (Hnot & Hsel & Hrep); [vm_compute; discriminate|].
  split; [apply Hone; [reflexivity|by intros [? ?]]|]. split; [exact Hnot|].
  destruct Hrep as [r Hr].
  { repeat split; reflexivity. }
  { simpl. lia. }
  exists r. split; [exact Hr|]. exact (Hsel r Hr).
Defined.

(** ** The stages together *)

(** [documents[name]] for a name of the dict is the entry the name came
    with, the keys being distinct. *)
Lemma dict_get_entry {V} (d : dict V) k v :
  NoDup (map fst d) -> (k, v) ∈ d -> dict_get d k = Some v.
Proof.
  unfold dict_get. induction d as [|[k0 v0] d IH]; simpl.
  - by intros _ ?%not_elem_of_nil.
  - intros [Hk Hnd]%NoDup_cons [[= -> ->]|Hin]%elem_of_cons.
    + by rewrite bool_decide_eq_true_2.
    + rewrite bool_decide_eq_false_2; [by apply IH|].
      intros ->. apply Hk. apply list_elem_of_fmap. by exists (k, v).
Qed.

Lemma dict_set_keys {V} (d : dict V) k v :
  map fst (dict_set d k v) = if decide (k ∈ map fst d) then map fst d else map fst d ++ [k].
Proof.
  induction d as [|[k0 v0] d IH].
  - simpl. destruct (decide (k ∈ [])) as [H|]; [by apply not_elem_of_nil in H|done].
  - change (dict_set ((k0, v0) :: d) k v)
      with (if decide (k0 = k) then (k, v) :: d else (k0, v0) :: dict_set d k v).
    change (map fst ((k0, v0) :: d)) with (k0 :: map fst d).
    destruct (decide (k0 = k)) as [->|Hne].
    + destruct (decide (k ∈ k :: map fst d)) as [|Hn]; [done|].
      exfalso. apply Hn. left.
    + change (map fst ((k0, v0) :: dict_set d k v)) with (k0 :: map fst (dict_set d k v)).
      rewrite IH.
      destruct (decide (k ∈ map fst d)) as [Hin|Hnin],
               (decide (k ∈ k0 :: map fst d)) as [Hin'|Hnin']; try done.
      * exfalso. apply Hnin'. by right.
      * apply elem_of_cons in Hin' as [?|?]; congruence.
Qed.

Lemma dict_set_NoDup {V} (d : dict V) k v :
  NoDup (map fst d) -> NoDup (map fst (dict_set d k v)).
Proof.
  intros Hnd. rewrite dict_set_keys. destruct (decide (k ∈ map fst d)); [done|].
  apply NoDup_app. split; [done|]. split; [|apply NoDup_singleton].
  by intros x Hx ->%list_elem_of_singleton.
Qed.

(** The loaded documents form a dict: no name twice. *)
Lemma load_loop_keys fs folder_path files acc documents :
  NoDup (map fst acc) ->
  load_loop fs folder_path acc files = Some documents ->
  NoDup (map fst documents).
Proof.
  revert acc. induction files as [|f files IH]; intros acc Hacc; simpl.
  - by intros [= <-].
  - destruct (Py.endswith f ".txt"); [|by apply IH].
    destruct (read_text fs _) as [text|]; [|done].
    apply IH. by apply dict_set_NoDup.
Qed.

Lemma load_all_documents_keys fs folder_path documents :
  load_all_documents fs folder_path = Some documents -> NoDup (map fst documents).
Proof.
  unfold load_all_documents. destruct (listdir fs folder_path) as [files|]; [|done].
  apply load_loop_keys. constructor.
Qed.

(** A file with no namesake in any source folder is of type "unknown";
    a declared type is one of the five tags. *)
Lemma get_source_type_unknown fs filename :
  (forall folder files f,
     listdir fs folder = Some files -> f ∈ files ->
     Py.splitext_root f <> Py.splitext_root filename) ->
  get_source_type fs filename = "unknown".
Proof.
  intros Hno. unfold get_source_type.
  induction SOURCE_FOLDERS as [|[folder file_type] rest IH]; simpl; [done|].
  destruct (listdir fs folder) as [files|] eqn:Hl; [|done].
  destruct (existsb _ files) eqn:He; [|done].
  apply existsb_exists in He as (f & Hf & Heq).
  apply bool_decide_eq_true in Heq. apply list_elem_of_In in Hf.
  by destruct (Hno folder files f Hl Hf).
Qed.

Lemma get_source_type_tags fs filename :
  get_source_type fs filename ∈ ["docx"; "pdf"; "pptx"; "xlsx"; "unknown"].
Proof.
  unfold get_source_type, SOURCE_FOLDERS. simpl.
  repeat (match goal with
          | |- context [listdir fs ?f] => destruct (listdir fs f)
          | |- context [existsb ?g ?l] => destruct (existsb g l)
          end);
    rewrite !elem_of_cons; auto 10.
Qed.

(** In a run the pairs handed to the clustering are well formed: the names
    of the loaded documents are distinct, and sorting the retained pairs
    keeps them. *)
Lemma run_pairs_wf {Emb} (chunk_max_sim : Emb -> Emb -> Q) fs doc_embeddings
    documents threshold mode sel found :
  load_all_documents fs "extracted_text" = Some documents ->
  find_similar_pairs chunk_max_sim doc_embeddings documents threshold mode sel
    = Some found ->
  wf_pairs (sort_pairs found).
Proof.
  intros Hl Hf. apply (wf_pairs_Permutation found).
  - symmetry. apply sort_by_Permutation.
  - eapply find_similar_pairs_wf; [|exact Hf]. by eapply load_all_documents_keys.
Qed.

(** * Further properties of the code *)

(** ** Chunker *)

Lemma slice_length {A} (l : list A) a b :
  0 <= a <= b -> b <= Py.len l -> Py.len (Py.slice l a b) = b - a.
Proof.
  intros Ha Hb. rewrite slice_sub by done. unfold Py.len in *.
  rewrite length_take, length_drop. lia.
Qed.

(** The number of rounds of the loop. *)
Lemma span_loop_length chunk_size overlap fuel n start spans :
  overlap < chunk_size ->
  span_loop fuel n chunk_size overlap start = Some spans ->
  Z.of_nat (length spans) =
    if start <? n then (n - start - 1) / (chunk_size - overlap) + 1 else 0.
Proof.
  intros Hstep. revert start spans.
  induction fuel as [|fuel IH]; intros start spans; simpl.
  - destruct (Z.ltb_spec start n); [done|]. by intros [= <-].
  - destruct (Z.ltb_spec start n) as [Hlt|Hge]; [|by intros [= <-]].
    destruct (span_loop fuel n _ _ _) as [rest|] eqn:Hr; [|done].
    intros [= <-]. simpl length. rewrite Nat2Z.inj_succ, (IH _ _ Hr).
    destruct (Z.ltb_spec (start + (chunk_size - overlap)) n) as [Hlt'|Hge'].
    + replace (n - start - 1)
        with ((n - (start + (chunk_size - overlap)) - 1) + 1 * (chunk_size - overlap))
        by lia.
      rewrite Z.div_add by lia. lia.
    + rewrite (Z.div_small (n - start - 1)) by lia. lia.
Qed.

(** Every chunk of the loop is a window of the words, joined. *)
Lemma chunk_loop_elem fuel words chunk_size overlap start chunks chunk :
  chunk_loop fuel words chunk_size overlap start = Some chunks ->
  chunk ∈ chunks ->
  exists a b, chunk = Py.join " " (Py.slice words a b).
Proof.
  revert start chunks. induction fuel as [|fuel IH]; intros start chunks; simpl.
  - destruct (start <? Py.len words); [done|].
    intros [= <-] Hin. by apply not_elem_of_nil in Hin.
  - destruct (start <? Py.len words).
    + destruct (chunk_loop fuel words _ _ _) as [rest|] eqn:Hr; [|done].
      intros [= <-] [->|Hin]%elem_of_cons; [by eexists _, _|by eapply IH].
    + intros [= <-] Hin. by apply not_elem_of_nil in Hin.
Qed.

(** The chunks of a text of more words than the chunk size, through the
    spans of the loop. *)
Lemma chunk_text_long text chunk_size overlap :
  0 <= overlap < chunk_size ->
  chunk_size < Py.len (Py.split text) ->
  exists spans,
    span_loop (length (Py.split text)) (Py.len (Py.split text))
      chunk_size overlap 0 = Some spans /\
    chunk_text (length (Py.split text)) text chunk_size overlap =
      Some (map (fun s => Py.join " " (Py.slice (Py.split text) (fst s) (snd s))) spans).
Proof.
  intros Ho Hlong. set (words := Py.split text) in *.
  destruct (span_loop_terminates chunk_size overlap (length words) (Py.len words) 0)
    as [spans Hspans]; [lia|unfold Py.len; lia|].
  exists spans. split; [done|]. unfold chunk_text. fold words.
  destruct (Z.leb_spec (Py.len words) chunk_size); [lia|].
  rewrite chunk_loop_spans by lia. by rewrite Hspans.
Qed.

(** A text of W words, more than the chunk size S, gives W / (S - O)
    chunks, rounded up, and every chunk holds at least one word and at
    most S. *)
Theorem chunk_text_count text chunk_size overlap :
  0 <= overlap < chunk_size ->
  chunk_size < Py.len (Py.split text) ->
  exists chunks,
    chunk_text (length (Py.split text)) text chunk_size overlap = Some chunks /\
    Z.of_nat (length chunks) =
      (Py.len (Py.split text) + (chunk_size - overlap) - 1) / (chunk_size - overlap) /\
    Forall (fun chunk => 1 <= Py.len (Py.split chunk) <= chunk_size) chunks.
Proof.
  intros Ho Hlong.
  destruct (chunk_text_long text chunk_size overlap Ho Hlong) as (spans & Hs & Hc).
  eexists. split; [exact Hc|]. split.
  - rewrite length_map, (span_loop_length _ _ _ _ _ _ (proj2 Ho) Hs).
    destruct (Z.ltb_spec 0 (Py.len (Py.split text))); [|lia].
    replace (Py.len (Py.split text) + (chunk_size - overlap) - 1)
      with ((Py.len (Py.split text) - 0 - 1) + 1 * (chunk_size - overlap)) by lia.
    rewrite Z.div_add by lia. lia.
  - apply Forall_fmap, Forall_lookup. intros k s Hk. simpl.
    destruct (span_loop_lookup _ _ _ _ _ _ k s Hs Hk) as (H1 & H2 & H3).
    rewrite split_join by apply slice_words_are_words.
    rewrite slice_length; [lia|nia|lia].
Qed.

Lemma chunk_text_count_witness :
  exists chunks,
    chunk_text 8 "a b c d e f g h" 3 1 = Some chunks /\
    Z.of_nat (length chunks) = (8 + (3 - 1) - 1) / (3 - 1) /\
    Forall (fun chunk => 1 <= Py.len (Py.split chunk) <= 3) chunks.
Proof.
  apply (chunk_text_count "a b c d e f g h" 3 1); [lia|]. vm_compute. reflexivity.
Defined.

(** With a chunk size that is not negative the chunker returns at least one
    chunk, whatever the overlap. A text of no more words than the chunk
    size comes back as it is, whitespace included; every chunk of a longer
    text is its words joined by single spaces. *)
Theorem chunk_text_shape fuel text chunk_size overlap chunks :
  0 <= chunk_size ->
  chunk_text fuel text chunk_size overlap = Some chunks ->
  chunks <> [] /\
  (Py.len (Py.split text) <= chunk_size -> chunks = [text]) /\
  (chunk_size < Py.len (Py.split text) ->
     Forall (fun chunk => Py.join " " (Py.split chunk) = chunk) chunks).
Proof.
  intros Hsize. unfold chunk_text.
  destruct (Z.leb_spec (Py.len (Py.split text)) chunk_size) as [Hle|Hgt].
  - intros [= <-]. split; [done|]. split; [done|lia].
  - intros Hloop. split; [|split; [lia|]].
    + destruct fuel as [|fuel]; simpl in Hloop.
      * destruct (Z.ltb_spec 0 (Py.len (Py.split text))); [done|lia].
      * destruct (Z.ltb_spec 0 (Py.len (Py.split text))); [|lia].
        destruct (chunk_loop fuel _ _ _ _); [|done]. by inversion Hloop.
    + intros _. apply Forall_forall. intros chunk Hin.
      destruct (chunk_loop_elem _ _ _ _ _ _ _ Hloop Hin) as (a & b & ->).
      by rewrite split_join by apply slice_words_are_words.
Qed.

Lemma chunk_text_shape_witness :
  ["a b c"; "c d"] <> [] /\
  (Py.len (Py.split " a  b c   d") <= 3 -> ["a b c"; "c d"] = [" a  b c   d"]) /\
  (3 < Py.len (Py.split " a  b c   d") ->
     Forall (fun chunk => Py.join " " (Py.split chunk) = chunk) ["a b c"; "c d"]).
Proof.
  apply (chunk_text_shape 4 " a  b c   d" 3 1 ["a b c"; "c d"]); [lia|reflexivity].
Defined.

(** The words of the spans from [start] on, one span after the other,
    when the windows do not overlap. *)
Lemma span_loop_concat {A} (words : list A) chunk_size fuel start spans :
  0 < chunk_size -> 0 <= start ->
  span_loop fuel (Py.len words) chunk_size 0 start = Some spans ->
  concat (map (fun s => Py.slice words (fst s) (snd s)) spans) =
  drop (Z.to_nat start) words.
Proof.
  intros Hsize. revert start spans.
  induction fuel as [|fuel IH]; intros start spans Hstart; simpl.
  - destruct (Z.ltb_spec start (Py.len words)) as [|Hge]; [done|].
    intros [= <-]. simpl. symmetry. apply drop_ge. unfold Py.len in Hge. lia.
  - destruct (Z.ltb_spec start (Py.len words)) as [Hlt|Hge].
    + destruct (span_loop fuel _ _ _ _) as [rest|] eqn:Hr; [|done].
      intros [= <-]. simpl.
      rewrite (IH (start + (chunk_size - 0)) rest); [|lia|done].
      rewrite slice_sub by lia.
      rewrite <- (take_drop (Z.to_nat (Z.min (start + chunk_size) (Py.len words) - start))
                            (drop (Z.to_nat start) words)) at 2.
      f_equal. rewrite drop_drop.
      destruct (Z.le_gt_cases (start + chunk_size) (Py.len words)).
      * f_equal. lia.
      * rewrite !drop_ge; [done|unfold Py.len in *; lia..].
    + intros [= <-]. simpl. symmetry. apply drop_ge. unfold Py.len in Hge. lia.
Qed.

(** Without overlap the chunks cut the text's words into consecutive runs:
    the words of the chunks, one chunk after the other, are the words of
    the text. *)
Theorem chunk_text_partition text chunk_size :
  0 < chunk_size ->
  exists chunks,
    chunk_text (length (Py.split text)) text chunk_size 0 = Some chunks /\
    concat (map Py.split chunks) = Py.split text.
Proof.
  intros Hsize.
  destruct (Z.le_gt_cases (Py.len (Py.split text)) chunk_size) as [Hle|Hgt].
  - exists [text]. split; [by apply chunk_text_small|]. simpl. by rewrite app_nil_r.
  - destruct (chunk_text_long text chunk_size 0) as (spans & Hs & Hc); [lia|lia|].
    eexists. split; [exact Hc|].
    rewrite map_map.
    transitivity (concat (map (fun s => Py.slice (Py.split text) (fst s) (snd s)) spans)).
    + f_equal. apply map_ext. intros s. apply split_join, slice_words_are_words.
    + rewrite (span_loop_concat (Py.split text) chunk_size
                 (length (Py.split text)) 0 spans Hsize); [done|lia|exact Hs].
Qed.

Lemma chunk_text_partition_witness :
  exists chunks,
    chunk_text 5 "a b c d e" 2 0 = Some chunks /\
    concat (map Py.split chunks) = ["a"; "b"; "c"; "d"; "e"].
Proof. apply (chunk_text_partition "a b c d e" 2). lia. Defined.

(** ** Pair filter and scanner *)

Section ScannerExtra.
Context {Emb : Type} (chunk_max_sim : Emb -> Emb -> Q).
Implicit Types (doc_embeddings : gmap string Emb) (documents : dict document).

(** What one comparison does, case by case. *)
Lemma compare_docs_retained doc_embeddings threshold mode sel ni di nj dj p :
  compare_docs chunk_max_sim doc_embeddings threshold mode sel (ni, di) (nj, dj)
    = Some (Some p) <->
  candidate mode sel (doc_type di) (doc_type dj) = true /\
  exists ei ej,
    doc_embeddings !! ni = Some ei /\ doc_embeddings !! nj = Some ej /\
    (threshold <= chunk_max_sim ei ej)%Q /\
    p = Pair ni nj (doc_type di) (doc_type dj) (chunk_max_sim ei ej)
          (Py.prefix_str 100 (doc_text di)) (Py.prefix_str 100 (doc_text dj)).
Proof.
  simpl. split.
  - destruct (candidate _ _ _ _); [|done].
    destruct (doc_embeddings !! ni) as [ei|]; [|done].
    destruct (doc_embeddings !! nj) as [ej|]; [|done].
    destruct (Qle_bool threshold (chunk_max_sim ei ej)) eqn:Hq; [|done].
    intros [= <-]. split; [done|]. exists ei, ej. by apply Qle_bool_iff in Hq.
  - intros (-> & ei & ej & -> & -> & Hq & ->).
    apply Qle_bool_iff in Hq. by rewrite Hq.
Qed.

Lemma compare_docs_raises doc_embeddings threshold mode sel ni di nj dj :
  compare_docs chunk_max_sim doc_embeddings threshold mode sel (ni, di) (nj, dj)
    = None <->
  candidate mode sel (doc_type di) (doc_type dj) = true /\
  (doc_embeddings !! ni = None \/ doc_embeddings !! nj = None).
Proof.
  simpl. split.
  - destruct (candidate _ _ _ _); [|done].
    destruct (doc_embeddings !! ni) as [ei|]; [|auto].
    destruct (doc_embeddings !! nj) as [ej|]; [|auto].
    by destruct (Qle_bool _ _).
  - intros (-> & [-> | Hj]); [done|]. rewrite Hj.
    by destruct (doc_embeddings !! ni).
Qed.

(** A pair is retained exactly when its two documents stand in this order
    in the document set, pass the mode filter, have embeddings, and reach
    the threshold; it then carries their names, types, similarity and
    previews. *)
Theorem find_similar_pairs_retained doc_embeddings documents threshold mode sel ps :
  find_similar_pairs chunk_max_sim doc_embeddings documents threshold mode sel
    = Some ps ->
  forall p, p ∈ ps <->
    exists l1 ni di l2 nj dj l3 ei ej,
      documents = l1 ++ (ni, di) :: l2 ++ (nj, dj) :: l3 /\
      candidate mode sel (doc_type di) (doc_type dj) = true /\
      doc_embeddings !! ni = Some ei /\ doc_embeddings !! nj = Some ej /\
      (threshold <= chunk_max_sim ei ej)%Q /\
      p = Pair ni nj (doc_type di) (doc_type dj) (chunk_max_sim ei ej)
            (Py.prefix_str 100 (doc_text di)) (Py.prefix_str 100 (doc_text dj)).
Proof.
  intros Hf p. split.
  - intros Hp.
    destruct (find_similar_pairs_elem _ _ _ _ _ _ _ _ Hf Hp)
      as (l1 & [ni di] & l2 & [nj dj] & l3 & -> & Hc).
    apply compare_docs_retained in Hc as (Hcand & ei & ej & Hi & Hj & Hq & ->).
    by exists l1, ni, di, l2, nj, dj, l3, ei, ej.
  - intros (l1 & ni & di & l2 & nj & dj & l3 & ei & ej & -> & Hc & Hi & Hj & Hq & ->).
    by eapply candidate_retained.
Qed.

(** The names of the documents being distinct, no retained pair relates a
    document to itself and no two retained pairs relate the same two
    documents, in either order. *)
Theorem find_similar_pairs_distinct doc_embeddings documents threshold mode sel ps :
  NoDup (map fst documents) ->
  find_similar_pairs chunk_max_sim doc_embeddings documents threshold mode sel
    = Some ps ->
  (forall p, p ∈ ps -> doc1 p <> doc2 p) /\
  (forall (i j : nat) p q,
     ps !! i = Some p -> ps !! j = Some q ->
     (doc1 p = doc1 q /\ doc2 p = doc2 q) \/ (doc1 p = doc2 q /\ doc2 p = doc1 q) ->
     i = j).
Proof.
  intros Hnd Hf.
  destruct (find_similar_pairs_wf _ _ _ _ _ _ _ Hnd Hf) as [[Hne Hkeys] _].
  split; [done|]. intros i j p q Hi Hj Hsame.
  apply (NoDup_lookup _ i j (pair_key (doc1 p) (doc2 p)) Hkeys).
  - by rewrite list_lookup_fmap, Hi.
  - rewrite list_lookup_fmap, Hj. simpl. f_equal.
    destruct Hsame as [[-> ->]|[-> ->]]; [done|apply pair_key_comm].
Qed.

(** Of N documents at most N (N - 1) / 2 pairs are retained: every two
    documents are compared once. In mode [all] with a threshold that every
    similarity reaches, that many are. *)
Theorem find_similar_pairs_count doc_embeddings documents threshold mode sel ps :
  find_similar_pairs chunk_max_sim doc_embeddings documents threshold mode sel
    = Some ps ->
  (2 * length ps <= length documents * (length documents - 1))%nat /\
  (mode = "all" -> (forall e1 e2, (threshold <= chunk_max_sim e1 e2)%Q) ->
   (2 * length ps = length documents * (length documents - 1))%nat).
Proof.
  revert ps. induction documents as [|di rest IH]; intros ps; simpl.
  - intros [= <-]. simpl. split; [lia|done].
  - destruct (scan_row _ _ _ _ _ di rest) as [row|] eqn:Hr; [|done].
    destruct (find_similar_pairs _ _ rest _ _ _) as [ps'|] eqn:Hf; [|done].
    destruct (IH ps' eq_refl) as [Hle Heq].
    destruct (scan_row_length _ _ _ _ _ _ _ _ Hr) as [Hrle Hreq].
    intros [= <-]. rewrite length_app, Nat.sub_0_r. split.
    + nia.
    + intros Hm Hall. specialize (Heq Hm Hall). specialize (Hreq Hm Hall). nia.
Qed.

Lemma scan_row_threshold doc_embeddings threshold threshold' mode sel di rest row :
  (threshold <= threshold')%Q ->
  scan_row chunk_max_sim doc_embeddings threshold mode sel di rest = Some row ->
  scan_row chunk_max_sim doc_embeddings threshold' mode sel di rest =
  Some (filter (fun p => Is_true (Qle_bool threshold' (similarity p))) row).
Proof.
  intros Hle. revert row. induction rest as [|[nj dj] rest IH]; intros row; simpl.
  - by intros [= <-].
  - destruct di as [ni di]. simpl.
    destruct (scan_row _ _ threshold _ _ (ni, di) rest) as [row'|] eqn:Hr;
      [|by destruct (candidate _ _ _ _);
          [destruct (doc_embeddings !! ni); [destruct (doc_embeddings !! nj);
             [destruct (Qle_bool _ _)|]|]|]].
    rewrite (IH row' eq_refl).
    destruct (candidate _ _ _ _); [|by intros [= <-]].
    destruct (doc_embeddings !! ni) as [ei|]; [|done].
    destruct (doc_embeddings !! nj) as [ej|]; [|done].
    destruct (Qle_bool threshold' (chunk_max_sim ei ej)) eqn:Hq'.
    + assert (Hq : Qle_bool threshold (chunk_max_sim ei ej) = true).
      { apply Qle_bool_iff. apply Qle_bool_iff in Hq'. by eapply Qle_trans. }
      rewrite Hq. intros [= <-]. rewrite filter_cons_True; [done|].
      simpl. by rewrite Hq'.
    + destruct (Qle_bool threshold (chunk_max_sim ei ej)); intros [= <-]; [|done].
      rewrite filter_cons_False; [done|]. simpl. rewrite Hq'. simpl. tauto.
Qed.

(** Raising the threshold only drops pairs: the pairs retained at a higher
    threshold are those retained at a lower one that reach the higher, in
    the same order. *)
Theorem find_similar_pairs_threshold doc_embeddings documents threshold threshold'
    mode sel ps :
  (threshold <= threshold')%Q ->
  find_similar_pairs chunk_max_sim doc_embeddings documents threshold mode sel
    = Some ps ->
  find_similar_pairs chunk_max_sim doc_embeddings documents threshold' mode sel =
  Some (filter (fun p => Is_true (Qle_bool threshold' (similarity p))) ps).
Proof.
  intros Hle. revert ps. induction documents as [|di rest IH]; intros ps; simpl.
  - by intros [= <-].
  - destruct (scan_row _ _ threshold _ _ di rest) as [row|] eqn:Hr; [|done].
    destruct (find_similar_pairs _ _ rest threshold _ _) as [ps'|] eqn:Hf; [|done].
    intros [= <-].
    rewrite (scan_row_threshold _ _ _ _ _ _ _ _ Hle Hr), (IH ps' eq_refl).
    by rewrite filter_app.
Qed.

Lemma scan_row_mode doc_embeddings threshold mode sel sel0 di rest row :
  scan_row chunk_max_sim doc_embeddings threshold "all" sel0 di rest = Some row ->
  scan_row chunk_max_sim doc_embeddings threshold mode sel di rest =
  Some (filter (fun p => Is_true (candidate mode sel (type1 p) (type2 p))) row).
Proof.
  revert row. induction rest as [|[nj dj] rest IH]; intros row; simpl.
  - by intros [= <-].
  - destruct di as [ni di]. simpl.
    destruct (doc_embeddings !! ni) as [ei|]; [|done].
    destruct (doc_embeddings !! nj) as [ej|]; [|done].
    destruct (scan_row _ _ _ "all" _ (ni, di) rest) as [row'|] eqn:Hr;
      [|by destruct (Qle_bool _ _)].
    rewrite (IH row' eq_refl).
    destruct (candidate mode sel (doc_type di) (doc_type dj)) eqn:Hc.
    + destruct (Qle_bool _ _); intros [= <-]; [|done].
      rewrite filter_cons_True; [done|]. simpl. by rewrite Hc.
    + destruct (Qle_bool _ _); intros [= <-]; [|done].
      rewrite filter_cons_False; [done|]. simpl. rewrite Hc. simpl. tauto.
Qed.

(** A mode only drops pairs: when the scan in mode [all] returns, the scan
    in any mode returns the pairs of mode [all] whose two types pass that
    mode's filter, in the same order. *)
Theorem find_similar_pairs_mode doc_embeddings documents threshold mode sel sel0 ps :
  find_similar_pairs chunk_max_sim doc_embeddings documents threshold "all" sel0
    = Some ps ->
  find_similar_pairs chunk_max_sim doc_embeddings documents threshold mode sel =
  Some (filter (fun p => Is_true (candidate mode sel (type1 p) (type2 p))) ps).
Proof.
  revert ps. induction documents as [|di rest IH]; intros ps; simpl.
  - by intros [= <-].
  - destruct (scan_row _ _ _ "all" _ di rest) as [row|] eqn:Hr; [|done].
    destruct (find_similar_pairs _ _ rest _ "all" _) as [ps'|] eqn:Hf; [|done].
    intros [= <-].
    rewrite (scan_row_mode _ _ mode sel _ _ _ _ Hr), (IH ps' eq_refl).
    by rewrite filter_app.
Qed.

Lemma scan_row_raises doc_embeddings threshold mode sel di rest :
  scan_row chunk_max_sim doc_embeddings threshold mode sel di rest = None <->
  exists dj, dj ∈ rest /\
    compare_docs chunk_max_sim doc_embeddings threshold mode sel di dj = None.
Proof.
  induction rest as [|dj rest IH]; simpl.
  - split; [done|]. by intros (? & ?%not_elem_of_nil & _).
  - destruct (compare_docs _ _ _ _ _ di dj) as [r|] eqn:Hc.
    + destruct (scan_row _ _ _ _ _ di rest) as [row|] eqn:Hr.
      * split; [done|]. intros (dk & [->|Hin]%elem_of_cons & Hk); [congruence|].
        assert (Hnone : Some row = None); [|done].
        apply (proj2 IH). by exists dk.
      * split; [|done]. intros _. destruct (proj1 IH eq_refl) as (dk & Hin & Hk).
        exists dk. split; [by right|done].
    + split; [|done]. intros _. exists dj. split; [left|done].
Qed.

(** The scan raises exactly when two documents that pass the mode filter
    are to be compared and one of them has no embedding; pairs the filter
    skips are never looked up. *)
Theorem find_similar_pairs_raises doc_embeddings documents threshold mode sel :
  find_similar_pairs chunk_max_sim doc_embeddings documents threshold mode sel
    = None <->
  exists l1 ni di l2 nj dj l3,
    documents = l1 ++ (ni, di) :: l2 ++ (nj, dj) :: l3 /\
    candidate mode sel (doc_type di) (doc_type dj) = true /\
    (doc_embeddings !! ni = None \/ doc_embeddings !! nj = None).
Proof.
  induction documents as [|[ni di] rest IH]; simpl.
  - split; [done|]. intros (l1 & ? & ? & ? & ? & ? & ? & Heq & _).
    by destruct l1.
  - destruct (scan_row _ _ _ _ _ (ni, di) rest) as [row|] eqn:Hr.
    + destruct (find_similar_pairs _ _ rest _ _ _) as [ps|] eqn:Hf.
      * split; [done|].
        intros (l1 & n1 & d1 & l2 & n2 & d2 & l3 & Heq & Hc & Hn).
        destruct l1 as [|d0 l1]; simpl in Heq; inversion Heq; subst.
        -- assert (Hnone : scan_row chunk_max_sim doc_embeddings threshold mode sel
                             (n1, d1) (l2 ++ (n2, d2) :: l3) = None).
           { apply scan_row_raises. exists (n2, d2).
             split; [apply elem_of_app; right; left|].
             by apply compare_docs_raises. }
           congruence.
        -- assert (Hnone : Some ps = None); [|done].
           apply (proj2 IH). by exists l1, n1, d1, l2, n2, d2, l3.
      * split; [|done]. intros _.
        destruct (proj1 IH eq_refl) as (l1 & n1 & d1 & l2 & n2 & d2 & l3 & -> & Hc & Hn).
        by exists ((ni, di) :: l1), n1, d1, l2, n2, d2, l3.
    + split; [|done]. intros _.
      apply scan_row_raises in Hr as ([nj dj] & Hin & Hc).
      apply list_elem_of_split in Hin as (l2 & l3 & ->).
      apply compare_docs_raises in Hc as [Hc Hn].
      by exists [], ni, di, l2, nj, dj, l3.
Qed.
End ScannerExtra.

Lemma find_similar_pairs_retained_witness :
  let p := Pair "a.txt" "b.txt" "docx" "pdf" (9 # 10) "alpha" "beta" in
  let q := Pair "b.txt" "c.txt" "pdf" "docx" (8 # 10) "beta" "gamma" in
  find_similar_pairs Fixture.chunk_max_sim (Fixture.embeddings Fixture.docs_abc)
    Fixture.docs_abc default_threshold "all" None = Some [p; q] /\
  forall r, r ∈ [p; q] <->
    exists l1 ni di l2 nj dj l3 ei ej,
      Fixture.docs_abc = l1 ++ (ni, di) :: l2 ++ (nj, dj) :: l3 /\
      candidate "all" None (doc_type di) (doc_type dj) = true /\
      Fixture.embeddings Fixture.docs_abc !! ni = Some ei /\
      Fixture.embeddings Fixture.docs_abc !! nj = Some ej /\
      (default_threshold <= Fixture.chunk_max_sim ei ej)%Q /\
      r = Pair ni nj (doc_type di) (doc_type dj) (Fixture.chunk_max_sim ei ej)
            (Py.prefix_str 100 (doc_text di)) (Py.prefix_str 100 (doc_text dj)).
Proof.
  intros p q.
  assert (Hf : find_similar_pairs Fixture.chunk_max_sim
                 (Fixture.embeddings Fixture.docs_abc) Fixture.docs_abc
                 default_threshold "all" None = Some [p; q])
    by (vm_compute; reflexivity).
  split; [exact Hf|].
  exact (find_similar_pairs_retained _ _ _ _ _ _ _ Hf).
Defined.

Lemma find_similar_pairs_distinct_witness :
  let p := Pair "a.txt" "b.txt" "docx" "pdf" (9 # 10) "alpha" "beta" in
  let q := Pair "b.txt" "c.txt" "pdf" "docx" (8 # 10) "beta" "gamma" in
  NoDup (map fst Fixture.docs_abc) /\
  (forall r, r ∈ [p; q] -> doc1 r <> doc2 r) /\
  (forall (i j : nat) r s,
     [p; q] !! i = Some r -> [p; q] !! j = Some s ->
     (doc1 r = doc1 s /\ doc2 r = doc2 s) \/ (doc1 r = doc2 s /\ doc2 r = doc1 s) ->
     i = j).
Proof.
  intros p q.
  assert (Hnd : NoDup (map fst Fixture.docs_abc)).
  { apply (bool_decide_unpack (NoDup (map fst Fixture.docs_abc))).
    vm_compute. exact I. }
  split; [exact Hnd|].
  apply (find_similar_pairs_distinct Fixture.chunk_max_sim
           (Fixture.embeddings Fixture.docs_abc) Fixture.docs_abc
           default_threshold "all" None [p; q] Hnd).
  vm_compute; reflexivity.
Defined.

Lemma fixture_sim_nonneg a b : (0 <= Fixture.chunk_max_sim a b)%Q.
Proof.
  unfold Fixture.chunk_max_sim, Fixture.table. simpl.
  repeat (match goal with
          | |- context [bool_decide ?P] => destruct (bool_decide P)
          end; simpl);
    discriminate.
Qed.

Lemma find_similar_pairs_count_witness :
  exists ps,
    find_similar_pairs Fixture.chunk_max_sim (Fixture.embeddings Fixture.docs_abc)
      Fixture.docs_abc 0 "all" None = Some ps /\
    (2 * length ps = 3 * (3 - 1))%nat.
Proof.
  eexists. split; [vm_compute; reflexivity|].
  apply (find_similar_pairs_count Fixture.chunk_max_sim
           (Fixture.embeddings Fixture.docs_abc) Fixture.docs_abc 0 "all" None).
  - vm_compute; reflexivity.
  - reflexivity.
  - apply fixture_sim_nonneg.
Defined.

Lemma find_similar_pairs_threshold_witness :
  find_similar_pairs Fixture.chunk_max_sim (Fixture.embeddings Fixture.docs_abc)
    Fixture.docs_abc (85 # 100) "all" None =
  Some (filter (fun p => Is_true (Qle_bool (85 # 100) (similarity p)))
          [Pair "a.txt" "b.txt" "docx" "pdf" (9 # 10) "alpha" "beta";
           Pair "b.txt" "c.txt" "pdf" "docx" (8 # 10) "beta" "gamma"]).
Proof.
  apply (find_similar_pairs_threshold Fixture.chunk_max_sim
           (Fixture.embeddings Fixture.docs_abc) Fixture.docs_abc
           default_threshold (85 # 100) "all" None).
  - vm_compute. discriminate.
  - vm_compute; reflexivity.
Defined.

Lemma find_similar_pairs_mode_witness :
  find_similar_pairs Fixture.chunk_max_sim (Fixture.embeddings Fixture.docs_abc)
    Fixture.docs_abc default_threshold "same_type" None =
  Some (filter (fun p => Is_true (candidate "same_type" None (type1 p) (type2 p)))
          [Pair "a.txt" "b.txt" "docx" "pdf" (9 # 10) "alpha" "beta";
           Pair "b.txt" "c.txt" "pdf" "docx" (8 # 10) "beta" "gamma"]).
Proof.
  apply (find_similar_pairs_mode Fixture.chunk_max_sim
           (Fixture.embeddings Fixture.docs_abc) Fixture.docs_abc
           default_threshold "same_type" None None).
  vm_compute; reflexivity.
Defined.

Lemma find_similar_pairs_raises_witness :
  find_similar_pairs Fixture.chunk_max_sim (Fixture.embeddings Fixture.docs_same)
    Fixture.docs_abc default_threshold "cross_format" None = None.
Proof.
  apply (proj2 (find_similar_pairs_raises Fixture.chunk_max_sim
                  (Fixture.embeddings Fixture.docs_same) Fixture.docs_abc
                  default_threshold "cross_format" None)).
  exists [], "a.txt", (Document "alpha" "docx"), [], "b.txt",
    (Document "beta" "pdf"), [("c.txt", Document "gamma" "docx")].
  split; [reflexivity|]. split; [reflexivity|]. left. vm_compute. reflexivity.
Defined.

(** ** Union-find *)

(** [find] leaves its argument pointing at the value it returns. *)
Lemma find_points depth parent x r parent' :
  find depth parent x = Some (r, parent') -> parent' !! x = Some r.
Proof.
  destruct depth as [|depth]; [done|]. simpl.
  destruct (parent !! x) as [px|] eqn:Hx; [|done].
  destruct (decide (px = x)) as [->|Hne].
  - by intros [= <- <-].
  - destruct (find depth parent px) as [[r0 p0]|]; [|done].
    intros [= <- <-]. apply lookup_insert_eq.
Qed.

(** On a forest whose links are compressed already [find] changes
    nothing. *)
Lemma find_compressed depth parent x r :
  parent !! x = Some r -> parent !! r = Some r ->
  (1 <= depth)%nat -> (x <> r -> 2 <= depth)%nat ->
  find depth parent x = Some (r, parent).
Proof.
  intros Hx Hr H1 H2. destruct depth as [|depth]; [lia|]. simpl. rewrite Hx.
  destruct (decide (r = x)) as [->|Hne]; [done|].
  destruct depth as [|depth]; [specialize (H2 (not_eq_sym Hne)); lia|].
  simpl. rewrite Hr. rewrite decide_True by done. by rewrite insert_id.
Qed.

(** On a forest, with the recursion depth the path of [x] needs, [find]
    returns the representative of [x], which is its own parent; afterwards
    [x] points at it directly, no document has changed its representative,
    and a second [find] returns the same and changes nothing. *)
Theorem find_compresses depth parent h n x :
  ranked parent h n -> is_Some (parent !! x) -> (n < depth + h x)%nat ->
  exists r parent',
    find depth parent x = Some (r, parent') /\
    root_of parent x r /\
    parent' !! x = Some r /\ parent' !! r = Some r /\
    (forall z r', root_of parent' z r' <-> root_of parent z r') /\
    find depth parent' x = Some (r, parent').
Proof.
  intros Hrk Hx Hd.
  destruct (find_spec depth parent h n x Hrk Hx Hd)
    as (r & parent' & Hf & Hroot & Hrk' & Hk & Hroots).
  exists r, parent'. split; [done|]. split; [done|].
  pose proof (find_points _ _ _ _ _ Hf) as Hxr.
  assert (Hrr : parent' !! r = Some r).
  { apply (root_of_is_root parent' x), Hroots, Hroot. }
  split; [done|]. split; [done|]. split; [done|].
  destruct (ranked_root _ _ _ _ _ Hrk Hroot) as [_ Hlt].
  destruct Hrk as (_ & _ & Hb). pose proof (Hb x). pose proof (Hb r).
  apply find_compressed; [done|done|lia|].
  intros Hne. specialize (Hlt Hne). lia.
Qed.

(** [union(a, b)] on a forest keeps the representative of [a]: the
    documents it then stands for are those of the sets of [a] and of [b],
    and every other document keeps the representative it had. *)
Theorem union_keeps_first_root depth parent h n a b :
  ranked parent h n -> is_Some (parent !! a) -> is_Some (parent !! b) ->
  (n < depth)%nat ->
  exists parent' root_a,
    union depth parent a b = Some parent' /\
    root_of parent a root_a /\
    (forall z, root_of parent' z root_a <->
       same_set parent z a \/ same_set parent z b) /\
    (forall z r, ~ same_set parent z a -> ~ same_set parent z b ->
       (root_of parent' z r <-> root_of parent z r)).
Proof.
  intros Hrk Ha Hb Hd. unfold union.
  destruct (find_spec depth parent h n a Hrk Ha)
    as (ra & p1 & -> & Hra & Hrk1 & Hk1 & Hr1); [lia|].
  destruct (find_spec depth p1 h n b Hrk1)
    as (rb & p2 & -> & Hrb & Hrk2 & Hk2 & Hr2); [by apply Hk1|lia|].
  assert (Hroots : forall z r, root_of p2 z r <-> root_of parent z r)
    by (intros; by rewrite Hr2, Hr1).
  apply Hr1 in Hrb.
  assert (Hsa : forall z, same_set parent z a <-> root_of parent z ra).
  { intros z. split.
    - intros (r & Hz & Har). by rewrite (root_of_functional _ _ _ _ Hra Har).
    - intros Hz. by exists ra. }
  assert (Hsb : forall z, same_set parent z b <-> root_of parent z rb).
  { intros z. split.
    - intros (r & Hz & Hbr). by rewrite (root_of_functional _ _ _ _ Hrb Hbr).
    - intros Hz. by exists rb. }
  destruct (decide (ra = rb)) as [<-|Hne].
  - exists p2, ra. split; [done|]. split; [done|]. split.
    + intros z. rewrite Hroots, Hsa, Hsb. tauto.
    + intros z r _ _. apply Hroots.
  - assert (Hpa2 : p2 !! ra = Some ra).
    { apply (root_of_is_root p2 a), Hroots, Hra. }
    assert (Hpb2 : p2 !! rb = Some rb).
    { apply (root_of_is_root p2 b), Hroots, Hrb. }
    exists (<[rb := ra]> p2), ra. split; [done|]. split; [done|]. split.
    + intros z. rewrite (root_of_link p2 ra rb Hpa2 Hpb2 Hne), !Hroots, Hsa, Hsb.
      split; [intros [[? _]|[? _]]; auto|intros [?|?]; auto].
    + intros z r Hza Hzb.
      rewrite (root_of_link p2 ra rb Hpa2 Hpb2 Hne), !Hroots.
      rewrite Hsb in Hzb. split.
      * intros [[? _]|[? _]]; [done|by destruct Hzb].
      * intros Hz. left. split; [done|]. by intros ->.
Qed.

Lemma forest_lookup x y :
  Forest.parent !! x = Some y <->
  (x, y) ∈ [("a", "b"); ("b", "c"); ("c", "c"); ("d", "d")].
Proof.
  unfold Forest.parent. symmetry. apply elem_of_list_to_map.
  apply (bool_decide_unpack (NoDup _)). vm_compute. exact I.
Qed.

Lemma forest_ranked : ranked Forest.parent Forest.height 2.
Proof.
  split; [|split].
  - intros x y Hxy%forest_lookup.
    repeat (apply elem_of_cons in Hxy as [[= -> ->]|Hxy]);
      [vm_compute; eauto..|by apply not_elem_of_nil in Hxy].
  - intros x y Hxy%forest_lookup Hne.
    repeat (apply elem_of_cons in Hxy as [[= -> ->]|Hxy]);
      [vm_compute; lia|vm_compute; lia|done|done|by apply not_elem_of_nil in Hxy].
  - intros x. unfold Forest.height. repeat case_decide; lia.
Qed.

Lemma find_compresses_witness :
  exists r parent',
    find 3 Forest.parent "a" = Some (r, parent') /\
    root_of Forest.parent "a" r /\
    parent' !! "a" = Some r /\ parent' !! r = Some r /\
    (forall z r', root_of parent' z r' <-> root_of Forest.parent z r') /\
    find 3 parent' "a" = Some (r, parent').
Proof.
  apply (find_compresses 3 Forest.parent Forest.height 2 "a" forest_ranked).
  - vm_compute. eauto.
  - vm_compute. lia.
Defined.

Lemma union_keeps_first_root_witness :
  exists parent' root_a,
    union 3 Forest.parent "d" "a" = Some parent' /\
    root_of Forest.parent "d" root_a /\
    (forall z, root_of parent' z root_a <->
       same_set Forest.parent z "d" \/ same_set Forest.parent z "a") /\
    (forall z r, ~ same_set Forest.parent z "d" -> ~ same_set Forest.parent z "a" ->
       (root_of parent' z r <-> root_of Forest.parent z r)).
Proof.
  apply (union_keeps_first_root 3 Forest.parent Forest.height 2 "d" "a"
           forest_ranked).
  - vm_compute. eauto.
  - vm_compute. eauto.
  - lia.
Defined.

(** ** Clusters *)

Section SortOrder.
Context {A : Type} (first : A -> A -> bool).
Hypothesis first_total : forall x y, first x y = false -> first y x = true.
Hypothesis first_trans :
  forall x y z, first x y = true -> first y z = true -> first x z = true.

Lemma insert_sorted_ordered x l :
  Sorted (fun a b => first a b = true) l ->
  Sorted (fun a b => first a b = true) (Py.insert_sorted first x l).
Proof.
  induction l as [|y l IH]; simpl; intros Hl.
  - by repeat constructor.
  - destruct (first x y) eqn:Hxy.
    + constructor; [done|]. by constructor.
    + apply Sorted_inv in Hl as [Hl Hy].
      constructor; [by apply IH|].
      destruct l as [|z l]; simpl.
      * constructor. by apply first_total.
      * destruct (first x z); constructor; [by apply first_total|].
        by inversion Hy.
Qed.

Lemma sort_by_ordered l :
  StronglySorted (fun a b => first a b = true) (Py.sort_by first l).
Proof.
  apply Sorted_StronglySorted.
  - intros x y z. apply first_trans.
  - induction l as [|x l IH]; simpl; [constructor|].
    by apply insert_sorted_ordered.
Qed.
End SortOrder.

Lemma StronglySorted_lookup_lt {A} (R : A -> A -> Prop) (l : list A) (i j : nat) x y :
  StronglySorted R l -> (i < j)%nat -> l !! i = Some x -> l !! j = Some y -> R x y.
Proof.
  intros Hl. revert i j. induction Hl as [|a l Hl IH Ha]; intros i j Hij Hi Hj.
  - done.
  - destruct j as [|j]; [lia|]. simpl in Hj. destruct i as [|i].
    + simpl in Hi. inversion Hi; subst.
      eapply Forall_forall; [exact Ha|]. by eapply list_elem_of_lookup_2.
    + simpl in Hi. apply (IH i j); [lia|done..].
Qed.

Lemma cluster_first_spec x y :
  cluster_first x y = true <->
  size y < size x \/
  (size x = size y /\ (avg_similarity y <= avg_similarity x)%Q).
Proof.
  unfold cluster_first, cluster_key_lt.
  destruct (Z.eqb_spec (size x) (size y)) as [Heq|Hne].
  - rewrite negb_involutive, Qle_bool_iff. split; [by right|].
    intros [?|[_ ?]]; [lia|done].
  - rewrite negb_true_iff, Z.ltb_ge. split; [intros; left; lia|].
    intros [?|[? _]]; [lia|done].
Qed.

Lemma cluster_first_total x y : cluster_first x y = false -> cluster_first y x = true.
Proof.
  intros Hxy. apply cluster_first_spec.
  apply not_true_iff_false in Hxy. rewrite cluster_first_spec in Hxy.
  destruct (Z.lt_trichotomy (size x) (size y)) as [?|[Heq|?]]; [by left| |].
  - right. split; [done|].
    destruct (Qlt_le_dec (avg_similarity y) (avg_similarity x)); [|done].
    exfalso. apply Hxy. right. split; [done|]. by apply Qlt_le_weak.
  - exfalso. apply Hxy. by left.
Qed.

Lemma cluster_first_trans x y z :
  cluster_first x y = true -> cluster_first y z = true -> cluster_first x z = true.
Proof.
  rewrite !cluster_first_spec.
  intros [?|[? Hxy]] [?|[? Hyz]]; [left; lia..|].
  right. split; [lia|]. by eapply Qle_trans.
Qed.

Lemma connected_endpoints ps x y :
  connected ps x y -> x <> y -> x ∈ endpoints ps /\ y ∈ endpoints ps.
Proof.
  assert (Hl : forall a b, connected ps a b -> a <> b -> a ∈ endpoints ps).
  { intros a b Hab Hne. unfold connected, rtsc in Hab.
    destruct Hab as [|a c b Hac _]; [done|].
    apply elem_of_endpoints.
    destruct Hac as [(p & Hp & <- & _)|(p & Hp & _ & <-)]; exists p; auto. }
  intros Hxy Hne. split; [by eapply Hl|].
  apply (Hl y x); [by apply connected_sym|done].
Qed.

(** Two different linked documents are filed in one cluster, which has
    two members at least. *)
Lemma well_clustered_covers ps clusters x y :
  well_clustered ps clusters -> connected ps x y -> x <> y ->
  exists r ms, (r, ms) ∈ clusters /\ x ∈ ms /\ y ∈ ms /\ 2 <= Py.len ms.
Proof.
  intros (Hnd & Hdocs & Hclass) Hxy Hne.
  destruct (connected_endpoints _ _ _ Hxy Hne) as [Hx Hy].
  apply Hdocs, elem_of_cluster_docs in Hx as (r & ms & Hin & Hxm).
  destruct (Hclass r ms Hin) as [_ Hcm].
  assert (Hym : y ∈ ms) by (by apply (Hcm x y Hxm)).
  exists r, ms. split; [done|]. split; [done|]. split; [done|].
  unfold Py.len. destruct ms as [|a [|b ms]]; simpl length; [|exfalso|lia].
  - by apply not_elem_of_nil in Hxm.
  - apply list_elem_of_singleton in Hxm, Hym. congruence.
Qed.

Section ClusterExtra.
Variable set_iter : list string -> list string.

(** The reported clusters are listed largest first and, among clusters of
    one size, by falling average similarity. *)
Theorem group_similar_documents_order depth ps result :
  group_similar_documents set_iter depth ps = Some result ->
  forall (i j : nat) c c',
    (i < j)%nat -> result !! i = Some c -> result !! j = Some c' ->
    size c' < size c \/
    (size c = size c' /\ (avg_similarity c' <= avg_similarity c)%Q).
Proof.
  unfold group_similar_documents.
  destruct (clusters_of set_iter depth ps) as [clusters|]; [|done].
  intros [= <-] i j c c' Hij Hi Hj.
  apply cluster_first_spec.
  eapply (StronglySorted_lookup_lt (fun a b => cluster_first a b = true));
    [|exact Hij|exact Hi|exact Hj].
  apply sort_by_ordered; [apply cluster_first_total|apply cluster_first_trans].
Qed.

(** The member lists of the reported clusters are exactly the classes of
    two or more documents linked by chains of retained pairs, each sorted
    and reported once, and the size of a cluster is the number of its
    members. *)
Theorem group_similar_documents_classes depth ps result :
  enumerates (set_iter (endpoints ps)) (endpoints ps) ->
  group_similar_documents set_iter depth ps = Some result ->
  (forall l, l ∈ map members result <-> class_list ps l) /\
  NoDup (map members result) /\
  (forall c, c ∈ result -> size c = Py.len (members c)).
Proof.
  intros Hen Hg.
  destruct (group_similar_documents_clusters _ _ _ _ Hg) as (clusters & Hc & Hr).
  pose proof (clusters_of_some _ _ _ _ Hen Hc) as Hwf.
  assert (Hm : map members result ≡ₚ map Py.sorted (kept_members clusters)).
  { by rewrite Hr, format_clusters_members. }
  split; [|split].
  - intros l. rewrite Hm. by apply partition_elem.
  - rewrite Hm. apply kept_members_sorted_NoDup, Hwf.
  - intros c Hin.
    destruct (group_result_elem _ _ _ _ _ Hen Hg Hin)
      as (_ & _ & ms & _ & _ & _ & _ & ->).
    simpl. unfold Py.len. by rewrite (Permutation_length (sorted_Permutation ms)).
Qed.

(** No document is a member of two reported clusters. *)
Theorem group_similar_documents_disjoint depth ps result :
  enumerates (set_iter (endpoints ps)) (endpoints ps) ->
  group_similar_documents set_iter depth ps = Some result ->
  forall (i j : nat) c c' d,
    result !! i = Some c -> result !! j = Some c' ->
    d ∈ members c -> d ∈ members c' -> i = j.
Proof.
  intros Hen Hg i j c c' d Hi Hj Hd Hd'.
  destruct (group_similar_documents_clusters _ _ _ _ Hg) as (clusters & Hc & Hr).
  pose proof (clusters_of_some _ _ _ _ Hen Hc) as Hwf.
  assert (Hm : map members result ≡ₚ map Py.sorted (kept_members clusters)).
  { by rewrite Hr, format_clusters_members. }
  assert (Hnd : NoDup (map members result)).
  { rewrite Hm. apply kept_members_sorted_NoDup, Hwf. }
  assert (Hcl : forall c0, c0 ∈ result -> class_list ps (members c0)).
  { intros c0 Hc0. apply (partition_elem ps clusters _ Hwf). rewrite <- Hm.
    apply list_elem_of_fmap. by exists c0. }
  destruct (Hcl c) as (Hs & Hn & _ & x & Hx & Hxc);
    [by eapply list_elem_of_lookup_2|].
  destruct (Hcl c') as (Hs' & Hn' & _ & x' & Hx' & Hxc');
    [by eapply list_elem_of_lookup_2|].
  apply (NoDup_lookup _ i j (members c) Hnd).
  - by rewrite list_lookup_fmap, Hi.
  - rewrite list_lookup_fmap, Hj. simpl. f_equal.
    apply (Sorted_unique String.le); [done..|].
    apply NoDup_Permutation; [done..|]. intros e.
    destruct (proj1 (Hxc d) Hd) as [_ Hxd].
    destruct (proj1 (Hxc' d) Hd') as [_ Hxd'].
    rewrite (Hxc' e), (Hxc e). split; intros [He Hcon]; (split; [done|]).
    + eapply connected_trans; [exact Hxd|].
      eapply connected_trans; [apply connected_sym, Hxd'|done].
    + eapply connected_trans; [exact Hxd'|].
      eapply connected_trans; [apply connected_sym, Hxd|done].
Qed.

(** Two different documents linked by a chain of retained pairs are
    members of one reported cluster; so are the two documents of a
    retained pair. *)
Theorem group_similar_documents_covers depth ps result x y :
  enumerates (set_iter (endpoints ps)) (endpoints ps) ->
  group_similar_documents set_iter depth ps = Some result ->
  connected ps x y -> x <> y ->
  exists c, c ∈ result /\ x ∈ members c /\ y ∈ members c.
Proof.
  intros Hen Hg Hxy Hne.
  destruct (group_similar_documents_clusters _ _ _ _ Hg) as (clusters & Hc & Hr).
  pose proof (clusters_of_some _ _ _ _ Hen Hc) as Hwf.
  destruct (well_clustered_covers _ _ _ _ Hwf Hxy Hne)
    as (r & ms & Hin & Hxm & Hym & Hlen).
  exists (cluster_info (pair_lookup ps) ms). split; [|split].
  - rewrite Hr. apply elem_of_format_clusters. by exists r, ms.
  - simpl. by rewrite sorted_Permutation.
  - simpl. by rewrite sorted_Permutation.
Qed.

End ClusterExtra.

Lemma group_similar_documents_order_witness :
  let ab := Pair "a" "b" "docx" "pdf" (9 # 10) "" "" in
  let de := Pair "d" "e" "pdf" "pdf" (7 # 10) "" "" in
  let bc := Pair "b" "c" "pdf" "docx" (8 # 10) "" "" in
  exists result,
    group_similar_documents Fixture.set_iter 4 [ab; de; bc] = Some result /\
    forall (i j : nat) c c',
      (i < j)%nat -> result !! i = Some c -> result !! j = Some c' ->
      size c' < size c \/
      (size c = size c' /\ (avg_similarity c' <= avg_similarity c)%Q).
Proof.
  intros ab de bc. eexists. split; [vm_compute; reflexivity|].
  apply (group_similar_documents_order Fixture.set_iter 4 [ab; de; bc]).
  vm_compute; reflexivity.
Defined.

Lemma group_similar_documents_classes_witness :
  let ab := Pair "a" "b" "docx" "pdf" (9 # 10) "" "" in
  let de := Pair "d" "e" "pdf" "pdf" (7 # 10) "" "" in
  let bc := Pair "b" "c" "pdf" "docx" (8 # 10) "" "" in
  exists result,
    group_similar_documents Fixture.set_iter 4 [ab; de; bc] = Some result /\
    map members result = [["a"; "b"; "c"]; ["d"; "e"]] /\
    (forall l, l ∈ map members result <-> class_list [ab; de; bc] l) /\
    NoDup (map members result) /\
    (forall c, c ∈ result -> size c = Py.len (members c)).
Proof.
  intros ab de bc. eexists. split; [vm_compute; reflexivity|].
  split; [reflexivity|].
  apply (group_similar_documents_classes Fixture.set_iter 4 [ab; de; bc]).
  - apply remove_dups_enumerates.
  - vm_compute; reflexivity.
Defined.

Lemma group_similar_documents_disjoint_witness :
  let ab := Pair "a" "b" "docx" "pdf" (9 # 10) "" "" in
  let de := Pair "d" "e" "pdf" "pdf" (7 # 10) "" "" in
  let bc := Pair "b" "c" "pdf" "docx" (8 # 10) "" "" in
  exists result,
    group_similar_documents Fixture.set_iter 4 [ab; de; bc] = Some result /\
    forall (i j : nat) c c' d,
      result !! i = Some c -> result !! j = Some c' ->
      d ∈ members c -> d ∈ members c' -> i = j.
Proof.
  intros ab de bc. eexists. split; [vm_compute; reflexivity|].
  apply (group_similar_documents_disjoint Fixture.set_iter 4 [ab; de; bc]).
  - apply remove_dups_enumerates.
  - vm_compute; reflexivity.
Defined.

Lemma group_similar_documents_covers_witness :
  let ab := Pair "a" "b" "docx" "pdf" (9 # 10) "" "" in
  let de := Pair "d" "e" "pdf" "pdf" (7 # 10) "" "" in
  let bc := Pair "b" "c" "pdf" "docx" (8 # 10) "" "" in
  exists result,
    group_similar_documents Fixture.set_iter 4 [ab; de; bc] = Some result /\
    exists c, c ∈ result /\ "a" ∈ members c /\ "c" ∈ members c.
Proof.
  intros ab de bc. eexists. split; [vm_compute; reflexivity|].
  apply (group_similar_documents_covers Fixture.set_iter 4 [ab; de; bc] _ "a" "c").
  - apply remove_dups_enumerates.
  - vm_compute; reflexivity.
  - apply (connected_trans _ "a" "b" "c").
    + apply (connected_edge [ab; de; bc] ab). left.
    + apply (connected_edge [ab; de; bc] bc). right. right. left.
  - discriminate.
Defined.


(** ** Source types and loader *)

Lemma get_source_type_in_hit fs base_name folder file_type rest files :
  listdir fs folder = Some files ->
  (exists f, f ∈ files /\ Py.splitext_root f = base_name) ->
  get_source_type_in fs base_name ((folder, file_type) :: rest) = file_type.
Proof.
  intros Hl (f & Hf & Hb). simpl. rewrite Hl.
  assert (He : existsb (fun f => bool_decide (Py.splitext_root f = base_name)) files
               = true).
  { apply existsb_exists. exists f. split; [by apply list_elem_of_In|].
    by apply bool_decide_eq_true_2. }
  by rewrite He.
Qed.

Lemma get_source_type_in_miss fs filename folder file_type rest :
  ~ has_source fs folder filename ->
  get_source_type_in fs (Py.splitext_root filename) ((folder, file_type) :: rest) =
  get_source_type_in fs (Py.splitext_root filename) rest.
Proof.
  intros Hno. simpl. destruct (listdir fs folder) as [files|] eqn:Hl; [|done].
  destruct (existsb _ files) eqn:He; [|done].
  exfalso. apply Hno. apply existsb_exists in He as (f & Hf & Hb).
  exists files, f. split; [done|]. split; [by apply list_elem_of_In|].
  by apply bool_decide_eq_true_1 in Hb.
Qed.

(** The source folders are searched in the order Word, PDF, PowerPoint,
    Excel, and the first that holds a file with the base name of the text
    file gives the type: a file with both a Word and a PDF source is a
    "docx". Without a namesake in any of them the type is "unknown". *)
Theorem get_source_type_precedence fs filename :
  (has_source fs "word_files" filename -> get_source_type fs filename = "docx") /\
  (~ has_source fs "word_files" filename ->
   has_source fs "pdf_files" filename -> get_source_type fs filename = "pdf") /\
  (~ has_source fs "word_files" filename -> ~ has_source fs "pdf_files" filename ->
   has_source fs "pptx_files" filename -> get_source_type fs filename = "pptx") /\
  (~ has_source fs "word_files" filename -> ~ has_source fs "pdf_files" filename ->
   ~ has_source fs "pptx_files" filename ->
   has_source fs "xlsx_files" filename -> get_source_type fs filename = "xlsx") /\
  (~ has_source fs "word_files" filename -> ~ has_source fs "pdf_files" filename ->
   ~ has_source fs "pptx_files" filename -> ~ has_source fs "xlsx_files" filename ->
   get_source_type fs filename = "unknown").
Proof.
  unfold get_source_type, SOURCE_FOLDERS.
  assert (Hhit : forall folder file_type rest,
            has_source fs folder filename ->
            get_source_type_in fs (Py.splitext_root filename)
              ((folder, file_type) :: rest) = file_type).
  { intros folder file_type rest (files & f & Hl & Hf & Hb).
    eapply get_source_type_in_hit; eauto. }
  repeat split.
  - intros H. by apply Hhit.
  - intros N1 H. rewrite get_source_type_in_miss by done. by apply Hhit.
  - intros N1 N2 H. rewrite !get_source_type_in_miss by done. by apply Hhit.
  - intros N1 N2 N3 H. rewrite !get_source_type_in_miss by done. by apply Hhit.
  - intros N1 N2 N3 N4. by rewrite !get_source_type_in_miss by done.
Qed.

Lemma get_source_type_precedence_witness :
  get_source_type Fixture.fs "a.txt" = "docx".
Proof.
  apply (proj1 (get_source_type_precedence Fixture.fs "a.txt")).
  exists ["a.docx"; "z.docx"], "a.docx".
  split; [reflexivity|]. split; [left|reflexivity].
Defined.

Lemma elem_of_dict_set {V} (d : dict V) k v k' v' :
  NoDup (map fst d) ->
  (k', v') ∈ dict_set d k v <-> (k' = k /\ v' = v) \/ (k' <> k /\ (k', v') ∈ d).
Proof.
  induction d as [|[k0 v0] d IH]; intros Hnd.
  - simpl. rewrite list_elem_of_singleton. split.
    + intros [= -> ->]. by left.
    + intros [[-> ->]|[_ ?%not_elem_of_nil]]; done.
  - change (dict_set ((k0, v0) :: d) k v)
      with (if decide (k0 = k) then (k, v) :: d else (k0, v0) :: dict_set d k v).
    change (map fst ((k0, v0) :: d)) with (k0 :: map fst d) in Hnd.
    apply NoDup_cons in Hnd as [Hk0 Hnd].
    destruct (decide (k0 = k)) as [->|Hne].
    + rewrite !elem_of_cons. split.
      * intros [[= -> ->]|Hin]; [by left|]. right. split; [|by right].
        intros ->. apply Hk0. apply list_elem_of_fmap. by exists (k, v').
      * intros [[-> ->]|[Hne [[= -> ->]|Hin]]]; [by left|done|by right].
    + rewrite !elem_of_cons, (IH Hnd). split.
      * intros [[= -> ->]|[[-> ->]|[Hne' Hin]]].
        -- right. split; [done|by left].
        -- by left.
        -- right. split; [done|by right].
      * intros [[-> ->]|[Hne' [[= -> ->]|Hin]]].
        -- right. by left.
        -- by left.
        -- right. right. done.
Qed.

Lemma load_loop_entries fs folder_path files acc documents :
  NoDup (map fst acc) ->
  (forall name d, (name, d) ∈ acc ->
     exists text, read_text fs (folder_path +:+ "/" +:+ name) = Some text /\
       d = Document text (get_source_type fs name)) ->
  load_loop fs folder_path acc files = Some documents ->
  forall name d,
    (name, d) ∈ documents <->
    (name, d) ∈ acc \/
    (name ∈ files /\ Py.endswith name ".txt" = true /\
     exists text, read_text fs (folder_path +:+ "/" +:+ name) = Some text /\
       d = Document text (get_source_type fs name)).
Proof.
  revert acc. induction files as [|f files IH]; intros acc Hnd Hacc; simpl.
  - intros [= <-] name d. split; [by left|].
    by intros [?|[?%not_elem_of_nil _]].
  - destruct (Py.endswith f ".txt") eqn:Hf.
    + destruct (read_text fs (folder_path +:+ "/" +:+ f)) as [text|] eqn:Hr; [|done].
      intros Hload name d.
      assert (Hacc' : forall n d0,
                (n, d0) ∈ dict_set acc f (Document text (get_source_type fs f)) ->
                exists text0, read_text fs (folder_path +:+ "/" +:+ n) = Some text0 /\
                  d0 = Document text0 (get_source_type fs n)).
      { intros n d0 [[-> ->]|[_ Hin]]%(elem_of_dict_set _ _ _ _ _ Hnd);
          [by exists text|by apply Hacc]. }
      rewrite (IH _ (dict_set_NoDup _ _ _ Hnd) Hacc' Hload).
      rewrite (elem_of_dict_set acc f _ name d Hnd), elem_of_cons. split.
      * intros [[[-> ->]|[Hne Hin]]|(Hin & He & Hd)].
        -- right. split; [by left|]. split; [done|]. by exists text.
        -- by left.
        -- right. split; [by right|]. done.
      * intros [Hin|([->|Hin] & He & text' & Hr' & ->)].
        -- left. destruct (decide (name = f)) as [->|Hne]; [|by right].
           left. split; [done|].
           destruct (Hacc f d Hin) as (text' & Hr' & ->). congruence.
        -- left. left. split; [done|]. congruence.
        -- right. split; [done|]. split; [done|]. by exists text'.
    + intros Hload name d. rewrite (IH acc Hnd Hacc Hload), elem_of_cons. split.
      * intros [?|(Hin & He & Hd)]; [by left|]. right. split; [by right|done].
      * intros [?|([->|Hin] & He & Hd)]; [by left|congruence|].
        right. done.
Qed.

Lemma load_loop_raises fs folder_path files acc :
  load_loop fs folder_path acc files = None <->
  exists name, name ∈ files /\ Py.endswith name ".txt" = true /\
    read_text fs (folder_path +:+ "/" +:+ name) = None.
Proof.
  revert acc. induction files as [|f files IH]; intros acc; simpl.
  - split; [done|]. by intros (? & ?%not_elem_of_nil & _).
  - destruct (Py.endswith f ".txt") eqn:Hf.
    + destruct (read_text fs (folder_path +:+ "/" +:+ f)) as [text|] eqn:Hr.
      * rewrite IH. split.
        -- intros (name & Hin & He & Hn). exists name. split; [by right|done].
        -- intros (name & [->|Hin]%elem_of_cons & He & Hn); [congruence|].
           by exists name.
      * split; [|done]. intros _. exists f. split; [left|done].
    + rewrite IH. split.
      * intros (name & Hin & He & Hn). exists name. split; [by right|done].
      * intros (name & [->|Hin]%elem_of_cons & He & Hn); [congruence|].
        by exists name.
Qed.

(** The loader raises exactly when the folder does not exist or a listed
    file whose name ends in ".txt" cannot be read. Otherwise it returns
    one entry for each name of the listing that ends in ".txt" and no
    other: the names are distinct, the text is the one read from the file
    of that name in the folder, and the type is the source type of the
    name. *)
Theorem load_all_documents_entries fs folder_path :
  (load_all_documents fs folder_path = None <->
   listdir fs folder_path = None \/
   exists files name,
     listdir fs folder_path = Some files /\ name ∈ files /\
     Py.endswith name ".txt" = true /\
     read_text fs (folder_path +:+ "/" +:+ name) = None) /\
  forall files documents,
    listdir fs folder_path = Some files ->
    load_all_documents fs folder_path = Some documents ->
    NoDup (map fst documents) /\
    forall name d,
      (name, d) ∈ documents <->
      name ∈ files /\ Py.endswith name ".txt" = true /\
      exists text,
        read_text fs (folder_path +:+ "/" +:+ name) = Some text /\
        d = Document text (get_source_type fs name).
Proof.
  split.
  - unfold load_all_documents.
    destruct (listdir fs folder_path) as [files|] eqn:Hl.
    + rewrite load_loop_raises. split.
      * intros (name & Hin & He & Hn). right. by exists files, name.
      * intros [?|(files' & name & [= <-] & Hin & He & Hn)]; [done|].
        by exists name.
    + split; [by left|done].
  - intros files documents Hl Hload.
    split; [by eapply load_all_documents_keys|].
    unfold load_all_documents in Hload. rewrite Hl in Hload.
    intros name d.
    rewrite (load_loop_entries fs folder_path files [] documents); [| | |done].
    + split; [intros [?%not_elem_of_nil|?]; done|by right].
    + constructor.
    + by intros ? ? ?%not_elem_of_nil.
Qed.

Lemma load_all_documents_entries_witness :
  exists documents,
    load_all_documents Fixture.fs "extracted_text" = Some documents /\
    NoDup (map fst documents) /\
    forall name d,
      (name, d) ∈ documents <->
      name ∈ ["a.txt"; "b.txt"; "notes.md"] /\ Py.endswith name ".txt" = true /\
      exists text,
        read_text Fixture.fs ("extracted_text" +:+ "/" +:+ name) = Some text /\
        d = Document text (get_source_type Fixture.fs name).
Proof.
  eexists. split; [reflexivity|].
  apply (proj2 (load_all_documents_entries Fixture.fs "extracted_text")
           ["a.txt"; "b.txt"; "notes.md"]); reflexivity.
Defined.

(** ** Report *)

(** Rounding keeps the order. *)
Lemma round_half_even_mono x y :
  (x <= y)%Q -> round_half_even x <= round_half_even y.
Proof.
  intros Hxy. unfold round_half_even.
  pose proof (Qfloor_le x) as Hx1. pose proof (Qlt_floor x) as Hx2.
  pose proof (Qfloor_le y) as Hy1. pose proof (Qlt_floor y) as Hy2.
  pose proof (Qfloor_resp_le x y Hxy) as Hf.
  rewrite inject_Z_plus in Hx2, Hy2.
  destruct (Z.eq_dec (Qfloor x) (Qfloor y)) as [Heq|Hne].
  - rewrite <- Heq in *. set (f := Qfloor x) in *.
    destruct (Qcompare_spec (x - inject_Z f) (1 # 2)) as [Hx|Hx|Hx],
             (Qcompare_spec (y - inject_Z f) (1 # 2)) as [Hy|Hy|Hy];
      try (destruct (Z.even f)); try lia; exfalso; lra.
  - assert (Qfloor x + 1 <= Qfloor y) by lia.
    destruct (Qcompare_spec (x - inject_Z (Qfloor x)) (1 # 2)),
             (Qcompare_spec (y - inject_Z (Qfloor y)) (1 # 2));
      try (destruct (Z.even (Qfloor x))); try (destruct (Z.even (Qfloor y))); lia.
Qed.

Lemma round4_mono x y : (x <= y)%Q -> (round4 x <= round4 y)%Q.
Proof.
  intros Hxy. unfold round4, Qdiv. apply Qmult_le_compat_r; [|done].
  rewrite <- Zle_Qle. apply round_half_even_mono.
  apply Qmult_le_compat_r; [done|]. done.
Qed.

Lemma sort_pairs_ordered ps :
  StronglySorted (fun p q => (similarity q <= similarity p)%Q) (sort_pairs ps).
Proof.
  assert (H : StronglySorted
                (fun p q => Qle_bool (similarity q) (similarity p) = true)
                (sort_pairs ps)).
  { apply sort_by_ordered.
    - intros x y Hxy. apply Qle_bool_iff.
      apply not_true_iff_false in Hxy. rewrite Qle_bool_iff in Hxy.
      apply Qlt_le_weak. by apply Qnot_le_lt.
    - intros x y z. rewrite !Qle_bool_iff. intros H1 H2. by eapply Qle_trans. }
  induction H as [|p l Hl IH Hp]; constructor; [done|].
  eapply Forall_impl; [exact Hp|]. intros q. by rewrite Qle_bool_iff.
Qed.

Lemma split_on_from_nonempty sep cur s : Py.split_on_from sep cur s <> [].
Proof.
  revert cur. induction s as [|c s IH]; intros cur; simpl; [done|].
  destruct (decide (c = sep)); [done|apply IH].
Qed.

Lemma dict_get_elem {V} (d : dict V) k v : dict_get d k = Some v -> (k, v) ∈ d.
Proof.
  unfold dict_get. induction d as [|[k0 v0] d IH]; simpl; [done|].
  case_bool_decide as Hk; simpl in *.
  - intros [= <-]. subst. left.
  - intros H. right. by apply IH.
Qed.

(** The member entries name the members in order, each with the type it
    was loaded with and its metadata record. *)
Lemma make_members_entries documents metadata ms mds :
  make_members documents metadata ms = Some mds ->
  map md_filename mds = ms /\
  forall m, m ∈ mds ->
    md_metadata m = metadata_get metadata (md_filename m) /\
    exists d, (md_filename m, d) ∈ documents /\ md_type m = doc_type d.
Proof.
  revert mds. induction ms as [|member ms IH]; intros mds; simpl.
  - intros [= <-]. split; [done|]. by intros m ?%not_elem_of_nil.
  - destruct (dict_get documents member) as [d|] eqn:Hd; [|done].
    destruct (make_members documents metadata ms) as [rest|]; [|done].
    intros [= <-]. destruct (IH rest eq_refl) as [Hn Hm]. split.
    + simpl. by rewrite Hn.
    + intros m [->|Hin]%elem_of_cons; [|by apply Hm]. simpl.
      split; [done|]. exists d. split; [by apply dict_get_elem|done].
Qed.

(** The cluster entries follow the clusters one by one and are numbered
    from [i] on. *)
Lemma make_clusters_entries documents metadata i clusters cds :
  make_clusters documents metadata i clusters = Some cds ->
  length cds = length clusters /\
  forall (k : nat) cd, cds !! k = Some cd ->
    exists c, clusters !! k = Some c /\
      cd_cluster_id cd = i + Z.of_nat k /\
      cd_size cd = size c /\
      map md_filename (cd_members cd) = members c /\
      forall m, m ∈ cd_members cd ->
        md_metadata m = metadata_get metadata (md_filename m) /\
        exists d, (md_filename m, d) ∈ documents /\ md_type m = doc_type d.
Proof.
  revert i cds. induction clusters as [|c cs IH]; intros i cds; simpl.
  - intros [= <-]. split; [done|]. by intros k cd.
  - destruct (make_members documents metadata (members c)) as [mds|] eqn:Hm; [|done].
    destruct (make_clusters documents metadata (i + 1) cs) as [rest|] eqn:Hr; [|done].
    intros [= <-]. destruct (IH _ _ Hr) as [Hlen Hrest].
    split; [simpl; by rewrite Hlen|].
    intros [|k] cd; simpl.
    + intros [= <-]. exists c. simpl.
      destruct (make_members_entries _ _ _ _ Hm) as [Hn Hms].
      split; [done|]. split; [lia|]. done.
    + intros Hk. destruct (Hrest k cd Hk) as (c' & Hc' & Hid & Hrest').
      exists c'. split; [done|]. split; [lia|done].
Qed.

Lemma load_all_documents_types fs folder_path documents name d :
  load_all_documents fs folder_path = Some documents ->
  (name, d) ∈ documents -> doc_type d = get_source_type fs name.
Proof.
  unfold load_all_documents. destruct (listdir fs folder_path) as [files|]; [|done].
  intros Hload Hin.
  apply (load_loop_entries fs folder_path files [] documents) in Hin
    as [?%not_elem_of_nil|(_ & _ & text & _ & ->)]; [done|done|constructor| |done].
  by intros ? ? ?%not_elem_of_nil.
Qed.

Section ReportExtra.
Context {Emb : Type}.
Variable encode : list string -> Emb.
Variable chunk_max_sim : Emb -> Emb -> Q.
Variable set_iter : list string -> list string.
Variable rt : runtime.

Lemma run_documents_settings metadata documents choice_line types_line r :
  run_documents encode chunk_max_sim set_iter rt metadata documents
    choice_line types_line = Report r ->
  r_settings r =
  Settings default_threshold (fst (choose_mode choice_line types_line))
    (snd (choose_mode choice_line types_line)) (Py.len documents).
Proof.
  unfold run_documents.
  destruct (Py.len documents <? 2); [done|].
  destruct (raises rt ReadChoice); [done|].
  destruct (bool_decide (Py.strip choice_line = "3") && raises rt ReadTypes); [done|].
  destruct (choose_mode choice_line types_line) as [mode sel]; simpl.
  destruct (raises rt LoadModel); [done|].
  destruct (embed_all encode rt documents ∅) as [emb|]; [|done].
  destruct (find_similar_pairs _ _ _ _ _ _) as [found|]; [|done].
  destruct (sort_pairs found) as [|p ps].
  - destruct (raises rt WriteReport); [done|]. by intros [= <-].
  - destruct (group_similar_documents _ _ _) as [clusters|]; [|done].
    destruct (make_clusters _ _ _ _) as [cds|]; [|done].
    destruct (raises rt WriteReport); [done|]. by intros [= <-].
Qed.

(** A run that wrote its report made its results folder and loaded its
    metadata. *)
Lemma main_calls fs metadata_json choice_line types_line r :
  main encode chunk_max_sim set_iter rt fs metadata_json choice_line types_line
    = Report r ->
  raises rt MakeResultsFolder = false /\
  (is_Some metadata_json -> raises rt LoadMetadata = false).
Proof.
  unfold main. destruct (listdir fs "extracted_text"); [|done].
  destruct (raises rt MakeResultsFolder); [done|].
  case_bool_decide as Hs; simpl.
  - destruct (raises rt LoadMetadata); [done|]. done.
  - done.
Qed.

(** Where an entry of the pair list of the report comes from. *)
Lemma report_pair_origin doc_embeddings documents threshold mode sel found
    metadata pd :
  find_similar_pairs chunk_max_sim doc_embeddings documents threshold mode sel
    = Some found ->
  pd ∈ map (make_pair_data metadata) (sort_pairs found) ->
  exists p di dj,
    p ∈ sort_pairs found /\ pd = make_pair_data metadata p /\
    di ∈ documents /\ dj ∈ documents /\
    candidate mode sel (doc_type (snd di)) (doc_type (snd dj)) = true /\
    type1 p = doc_type (snd di) /\ type2 p = doc_type (snd dj) /\
    (threshold <= similarity p)%Q.
Proof.
  intros Hf (p & -> & Hp)%list_elem_of_fmap.
  pose proof Hp as Hp'. unfold sort_pairs in Hp'. rewrite sort_by_Permutation in Hp'.
  destruct (find_similar_pairs_elem _ _ _ _ _ _ _ _ Hf Hp')
    as (l1 & di & l2 & dj & l3 & -> & Hc).
  apply compare_docs_some in Hc as (Hcand & _ & _ & Ht1 & Ht2 & Hq & _).
  exists p, di, dj. split; [done|]. split; [done|].
  split; [rewrite elem_of_app, elem_of_cons; auto|].
  split; [rewrite elem_of_app, elem_of_cons, elem_of_app, elem_of_cons; auto|].
  done.
Qed.

(** A run ends without a report and without an exception exactly when
    the folder of extracted text is missing, or when its results folder
    was made, its metadata loaded and fewer than two text files loaded. A
    run that ends with a report loaded two documents or more and made
    every external call on its way, none of which raised: the provider
    returned for every document. Its settings are the threshold 0.6, the
    mode and selection chosen, and the number of documents loaded. A run
    that loads two documents or more does end with a report when its
    external calls return and the recursion depth is above the number of
    pairs of documents. *)
Theorem main_outcome fs metadata_json choice_line types_line :
  (forall l, enumerates (set_iter l) l) ->
  (main encode chunk_max_sim set_iter rt fs metadata_json choice_line types_line
     = NoReport <->
   listdir fs "extracted_text" = None \/
   (raises rt MakeResultsFolder = false /\
    (is_Some metadata_json -> raises rt LoadMetadata = false) /\
    exists documents,
      load_all_documents fs "extracted_text" = Some documents /\
      Py.len documents < 2)) /\
  (forall r,
     main encode chunk_max_sim set_iter rt fs metadata_json choice_line types_line
       = Report r ->
     exists documents,
       load_all_documents fs "extracted_text" = Some documents /\
       2 <= Py.len documents /\
       calls_return rt metadata_json documents choice_line /\
       r_settings r =
       Settings default_threshold (fst (choose_mode choice_line types_line))
         (snd (choose_mode choice_line types_line)) (Py.len documents)) /\
  (forall documents,
     load_all_documents fs "extracted_text" = Some documents ->
     2 <= Py.len documents ->
     calls_return rt metadata_json documents choice_line ->
     (length documents * (length documents - 1) < 2 * recursion_limit rt)%nat ->
     exists r,
       main encode chunk_max_sim set_iter rt fs metadata_json choice_line types_line
         = Report r).
Proof.
  intros Hen. split; [|split].
  - unfold main. destruct (listdir fs "extracted_text") as [files|] eqn:Hl;
      [|split; [by left|done]].
    destruct (raises rt MakeResultsFolder) eqn:Hmk.
    { split; [done|]. intros [?|(? & _)]; done. }
    destruct (bool_decide (is_Some metadata_json) && raises rt LoadMetadata) eqn:Hmd.
    { split; [done|]. intros [?|(_ & Hm & _)]; [done|].
      apply andb_true_iff in Hmd as [Hs%bool_decide_eq_true Hr].
      rewrite (Hm Hs) in Hr. done. }
    assert (Hmeta : is_Some metadata_json -> raises rt LoadMetadata = false).
    { intros Hs. apply andb_false_iff in Hmd as [Hn|?]; [|done].
      by apply bool_decide_eq_false in Hn. }
    destruct (load_all_documents fs "extracted_text") as [documents|] eqn:Hload.
    + destruct (Z.lt_ge_cases (Py.len documents) 2) as [Hlt|Hge].
      * rewrite run_documents_refused by done. split; [|done].
        intros _. right. split; [done|]. split; [done|]. by exists documents.
      * split.
        -- intros Hno. by apply run_documents_not_refused in Hno.
        -- intros [?|(_ & _ & docs & [= <-] & Hlt)]; [done|lia].
    + split; [done|]. intros [?|(_ & _ & docs & ? & _)]; done.
  - intros r Hmain. destruct (main_calls _ _ _ _ _ Hmain) as [Hmk Hmd].
    apply main_report in Hmain as (documents & Hload & Hrun).
    exists documents. split; [done|].
    pose proof (run_documents_calls _ _ _ _ _ _ _ _ _ Hrun) as Hcalls.
    pose proof (run_documents_settings _ _ _ _ _ Hrun) as Hset.
    apply run_documents_report in Hrun as (_ & _ & _ & Hlen & _).
    done.
  - intros documents Hload Hlen (Hmk & Hmd & Hcalls) Hdepth.
    rewrite (main_loaded encode chunk_max_sim set_iter rt fs metadata_json
               choice_line types_line documents Hload Hmk Hmd).
    destruct (run_documents_total encode chunk_max_sim set_iter rt Hen
                (default ∅ metadata_json) documents choice_line types_line
                Hlen Hcalls Hdepth) as (r & Hr & _).
    by exists r.
Qed.

(** The pairs of a report are listed by falling similarity, as rounded to
    four decimals, and none is below the threshold 0.6. *)
Theorem report_pairs_sorted fs metadata_json choice_line types_line r :
  main encode chunk_max_sim set_iter rt fs metadata_json choice_line types_line
    = Report r ->
  (forall (i j : nat) pd pd',
     (i < j)%nat -> r_pairs r !! i = Some pd -> r_pairs r !! j = Some pd' ->
     (pd_similarity pd' <= pd_similarity pd)%Q) /\
  (forall pd, pd ∈ r_pairs r -> (6 # 10 <= pd_similarity pd)%Q).
Proof.
  intros (documents & Hload & Hrun)%main_report.
  apply run_documents_report in Hrun
    as (emb & found & clusters & Hlen & He & Hf & Hdisj & Hpairs & Hmk).
  rewrite Hpairs. split.
  - intros i j pd pd' Hij Hi Hj.
    rewrite list_lookup_fmap in Hi, Hj.
    destruct (sort_pairs found !! i) as [p|] eqn:Hpi; [|done].
    destruct (sort_pairs found !! j) as [p'|] eqn:Hpj; [|done].
    simpl in Hi, Hj. injection Hi as <-. injection Hj as <-. simpl.
    apply round4_mono.
    exact (StronglySorted_lookup_lt _ _ i j p p' (sort_pairs_ordered found)
             Hij Hpi Hpj).
  - intros pd Hpd.
    destruct (report_pair_origin _ _ _ _ _ _ _ _ Hf Hpd)
      as (p & _ & _ & _ & -> & _ & _ & _ & _ & _ & Hq).
    simpl. apply (Qle_trans _ (round4 default_threshold)).
    + vm_compute. discriminate.
    + by apply round4_mono.
Qed.

(** With choice 2 every reported pair is of two documents of one type and
    is not flagged cross-format. With choice 3 the selection is never
    empty, so every reported pair is of two documents of different types,
    both in the selection typed, and is flagged cross-format; an empty
    line selects the empty type name only, and the report then has no
    pair and no cluster. *)
Theorem report_mode_types fs metadata_json choice_line types_line r :
  main encode chunk_max_sim set_iter rt fs metadata_json choice_line types_line
    = Report r ->
  (Py.strip choice_line = "2" ->
   forall pd, pd ∈ r_pairs r ->
     pd_type1 pd = pd_type2 pd /\ pd_cross_format pd = false) /\
  (Py.strip choice_line = "3" ->
   forall pd, pd ∈ r_pairs r ->
     pd_type1 pd <> pd_type2 pd /\ pd_cross_format pd = true /\
     pd_type1 pd ∈ map Py.strip (Py.split_on "," (Py.strip types_line)) /\
     pd_type2 pd ∈ map Py.strip (Py.split_on "," (Py.strip types_line))) /\
  (Py.strip choice_line = "3" -> Py.strip types_line = "" ->
   r_pairs r = [] /\ r_clusters r = []).
Proof.
  intros (documents & Hload & Hrun)%main_report.
  apply run_documents_report in Hrun
    as (emb & found & clusters & Hlen & He & Hf & Hdisj & Hpairs & Hmk).
  assert (Hthree : Py.strip choice_line = "3" ->
            forall pd, pd ∈ r_pairs r ->
              pd_type1 pd <> pd_type2 pd /\ pd_cross_format pd = true /\
              pd_type1 pd ∈ map Py.strip (Py.split_on "," (Py.strip types_line)) /\
              pd_type2 pd ∈ map Py.strip (Py.split_on "," (Py.strip types_line)) /\
              exists di, di ∈ documents /\ pd_type1 pd = doc_type (snd di)).
  { intros Hch pd Hpd. rewrite Hpairs in Hpd.
    unfold choose_mode in Hf. rewrite Hch in Hf. simpl in Hf.
    destruct (report_pair_origin _ _ _ _ _ _ _ _ Hf Hpd)
      as (p & di & dj & _ & -> & Hdi & _ & Hc & Ht1 & Ht2 & _).
    simpl. rewrite Ht1, Ht2.
    apply candidate_select in Hc as (H1 & H2 & Hne).
    - split; [done|]. split; [by rewrite bool_decide_eq_false_2|].
      split; [done|]. split; [done|]. by exists di.
    - unfold Py.split_on. intros Hnil%fmap_nil_inv.
      by apply split_on_from_nonempty in Hnil. }
  split; [|split].
  - intros Hch pd Hpd. rewrite Hpairs in Hpd.
    unfold choose_mode in Hf. rewrite Hch in Hf. simpl in Hf.
    destruct (report_pair_origin _ _ _ _ _ _ _ _ Hf Hpd)
      as (p & di & dj & _ & -> & _ & _ & Hc & Ht1 & Ht2 & _).
    simpl. rewrite Ht1, Ht2. apply candidate_same_type in Hc.
    split; [done|]. by rewrite bool_decide_eq_true_2.
  - intros Hch pd Hpd. destruct (Hthree Hch pd Hpd) as (? & ? & ? & ? & _). done.
  - intros Hch Hty.
    assert (Hnone : r_pairs r = []).
    { destruct (r_pairs r) as [|pd pds] eqn:Hr; [done|]. exfalso.
      destruct (Hthree Hch pd) as (_ & _ & H1 & _ & [name d] & Hin & Ht);
        [left|].
      rewrite Hty in H1. apply list_elem_of_singleton in H1.
      simpl in Ht. rewrite (load_all_documents_types _ _ _ _ _ Hload Hin) in Ht.
      pose proof (get_source_type_tags fs name) as Htag.
      rewrite <- Ht, H1 in Htag.
      repeat (apply elem_of_cons in Htag as [Htag|Htag]; [discriminate|]).
      by apply not_elem_of_nil in Htag. }
    split; [done|]. rewrite Hpairs in Hnone. apply fmap_nil_inv in Hnone.
    destruct Hdisj as [[_ ->]|[Hne _]]; [|done].
    simpl in Hmk. by injection Hmk as <-.
Qed.

(** The clusters of a report are numbered from 1 in the order they are
    listed, largest first. The size of a cluster is the number of its
    member entries and is two at least; the members are listed by name,
    none twice, and each is a loaded document, with the type it was
    loaded with and its metadata record. *)
Theorem report_clusters fs metadata_json choice_line types_line r :
  (forall l, enumerates (set_iter l) l) ->
  main encode chunk_max_sim set_iter rt fs metadata_json choice_line types_line
    = Report r ->
  exists documents,
    load_all_documents fs "extracted_text" = Some documents /\
    forall (k : nat) cd, r_clusters r !! k = Some cd ->
      cd_cluster_id cd = Z.of_nat k + 1 /\
      cd_size cd = Py.len (cd_members cd) /\ 2 <= cd_size cd /\
      Sorted String.le (map md_filename (cd_members cd)) /\
      NoDup (map md_filename (cd_members cd)) /\
      (forall m, m ∈ cd_members cd ->
         md_metadata m = metadata_get (default ∅ metadata_json) (md_filename m) /\
         exists d, (md_filename m, d) ∈ documents /\ md_type m = doc_type d) /\
      (forall (k' : nat) cd',
         (k < k')%nat -> r_clusters r !! k' = Some cd' -> cd_size cd' <= cd_size cd).
Proof.
  intros Hen (documents & Hload & Hrun)%main_report.
  exists documents. split; [done|].
  apply run_documents_report in Hrun
    as (emb & found & clusters & Hlen & He & Hf & Hdisj & Hpairs & Hmk).
  destruct (make_clusters_entries _ _ _ _ _ Hmk) as [_ Hent].
  intros k cd Hk.
  destruct (Hent k cd Hk) as (c & Hc & Hid & Hsz & Hnames & Hmem).
  destruct Hdisj as [[_ ->]|[_ Hg]]; [done|].
  assert (Horder : forall (k' : nat) cd',
            (k < k')%nat -> r_clusters r !! k' = Some cd' ->
            cd_size cd' <= cd_size cd).
  { intros k' cd' Hkk Hk'.
    destruct (Hent k' cd' Hk') as (c' & Hc' & _ & Hsz' & _).
    rewrite Hsz, Hsz'.
    assert (Hs : StronglySorted (fun a b => cluster_first a b = true) clusters).
    { unfold group_similar_documents in Hg.
      destruct (clusters_of _ _ _) as [C|]; [|done]. injection Hg as <-.
      apply sort_by_ordered; [apply cluster_first_total|apply cluster_first_trans]. }
    pose proof (StronglySorted_lookup_lt _ _ k k' c c' Hs Hkk Hc Hc') as Hcc.
    apply cluster_first_spec in Hcc. lia. }
  assert (Hin : c ∈ clusters) by (by eapply list_elem_of_lookup_2).
  destruct (group_result_elem set_iter _ _ _ c (Hen _) Hg Hin)
    as (C & r0 & ms & _ & _ & Hnd & Hlen2 & ->).
  simpl in Hsz, Hnames.
  assert (Hcount : Py.len (cd_members cd) = Py.len ms).
  { unfold Py.len. f_equal.
    rewrite <- (length_map md_filename), Hnames.
    apply Permutation_length, sorted_Permutation. }
  split; [lia|]. split; [lia|]. split; [lia|].
  split; [rewrite Hnames; apply sorted_Sorted|].
  split; [by rewrite Hnames, sorted_Permutation|]. done.
Qed.

(** The two lists of a report agree: the two documents of every reported
    pair are members of one reported cluster, every member of a reported
    cluster is a document of some reported pair, and the report has no
    cluster exactly when it has no pair. *)
Theorem report_pairs_clustered fs metadata_json choice_line types_line r :
  (forall l, enumerates (set_iter l) l) ->
  main encode chunk_max_sim set_iter rt fs metadata_json choice_line types_line
    = Report r ->
  (forall pd, pd ∈ r_pairs r ->
     exists cd, cd ∈ r_clusters r /\
       pd_doc1 pd ∈ map md_filename (cd_members cd) /\
       pd_doc2 pd ∈ map md_filename (cd_members cd)) /\
  (forall cd m, cd ∈ r_clusters r -> m ∈ cd_members cd ->
     exists pd, pd ∈ r_pairs r /\
       (md_filename m = pd_doc1 pd \/ md_filename m = pd_doc2 pd)) /\
  (r_pairs r = [] <-> r_clusters r = []).
Proof.
  intros Hen (documents & Hload & Hrun)%main_report.
  apply run_documents_report in Hrun
    as (emb & found & clusters & Hlen & He & Hf & Hdisj & Hpairs & Hmk).
  destruct (make_clusters_entries _ _ _ _ _ Hmk) as [Hlen' Hent].
  pose proof (run_pairs_wf chunk_max_sim fs emb documents _ _ _ found Hload Hf)
    as [Hdistinct _].
  set (ps := sort_pairs found) in *.
  assert (Hone : forall pd, pd ∈ r_pairs r ->
            exists cd, cd ∈ r_clusters r /\
              pd_doc1 pd ∈ map md_filename (cd_members cd) /\
              pd_doc2 pd ∈ map md_filename (cd_members cd)).
  { intros pd Hpd. rewrite Hpairs in Hpd.
    apply list_elem_of_fmap in Hpd as (p & -> & Hp). simpl.
    destruct Hdisj as [[Hnil _]|[_ Hg]]; [rewrite Hnil in Hp; by apply not_elem_of_nil in Hp|].
    destruct (group_similar_documents_clusters _ _ _ _ Hg) as (C & Hc & Hperm).
    pose proof (clusters_of_some _ _ _ _ (Hen _) Hc) as Hwf.
    destruct (well_clustered_covers ps C (doc1 p) (doc2 p) Hwf)
      as (r0 & ms & Hin & H1 & H2 & Hms);
      [by apply connected_edge|by apply Hdistinct|].
    assert (Hcl : cluster_info (pair_lookup ps) ms ∈ clusters).
    { rewrite Hperm. apply elem_of_format_clusters. by exists r0, ms. }
    apply list_elem_of_lookup_1 in Hcl as [k Hk].
    destruct (lookup_lt_is_Some_2 (r_clusters r) k) as [cd Hcd].
    { rewrite Hlen'. by eapply lookup_lt_Some. }
    destruct (Hent k cd Hcd) as (c & Hc' & _ & _ & Hnames & _).
    rewrite Hk in Hc'. injection Hc' as <-. simpl in Hnames.
    exists cd. split; [by eapply list_elem_of_lookup_2|].
    rewrite Hnames, !sorted_Permutation. done. }
  split; [done|]. split.
  - intros cd m Hcd Hm.
    apply list_elem_of_lookup_1 in Hcd as [k Hk].
    destruct (Hent k cd Hk) as (c & Hc & _ & _ & Hnames & _).
    destruct Hdisj as [[_ ->]|[_ Hg]]; [done|].
    assert (Hin : c ∈ clusters) by (by eapply list_elem_of_lookup_2).
    destruct (group_result_elem set_iter _ _ _ c (Hen _) Hg Hin)
      as (C & r0 & ms & (_ & Hdocs & _) & Hin' & _ & _ & ->).
    simpl in Hnames.
    assert (Hname : md_filename m ∈ ms).
    { rewrite <- (sorted_Permutation ms), <- Hnames.
      apply list_elem_of_fmap. by exists m. }
    assert (Hend : md_filename m ∈ endpoints ps).
    { apply Hdocs, elem_of_cluster_docs. eauto. }
    apply elem_of_endpoints in Hend as (p & Hp & Hd).
    exists (make_pair_data (default ∅ metadata_json) p). split; [|done].
    rewrite Hpairs. apply list_elem_of_fmap. by exists p.
  - split.
    + intros Hnil. rewrite Hpairs in Hnil. apply fmap_nil_inv in Hnil.
      destruct Hdisj as [[_ ->]|[Hne _]]; [|done].
      simpl in Hmk. by injection Hmk as <-.
    + intros Hnil. destruct (r_pairs r) as [|pd pds] eqn:Hr; [done|].
      destruct (Hone pd) as (cd & Hcd & _); [left|].
      rewrite Hnil in Hcd. by apply not_elem_of_nil in Hcd.
Qed.
End ReportExtra.

Lemma main_outcome_witness :
  (main Fixture.encode Fixture.chunk_max_sim Fixture.set_iter (Fixture.quiet 1000)
     Fixture.fs_one None "1" "" = NoReport) /\
  (main Fixture.encode Fixture.chunk_max_sim Fixture.set_iter
     (Fixture.provider_fails "b.txt" 1000) Fixture.fs None "1" "" = Raised) /\
  exists r,
    main Fixture.encode Fixture.chunk_max_sim Fixture.set_iter (Fixture.quiet 1000)
      Fixture.fs None "1" "" = Report r.
Proof.
  split; [|split].
  - apply (proj1 (main_outcome Fixture.encode Fixture.chunk_max_sim Fixture.set_iter
                    (Fixture.quiet 1000) Fixture.fs_one None "1" ""
                    remove_dups_enumerates)).
    right. split; [reflexivity|]. split; [reflexivity|].
    eexists. split; [reflexivity|]. vm_compute. reflexivity.
  - vm_compute. reflexivity.
  - apply (proj2 (proj2 (main_outcome Fixture.encode Fixture.chunk_max_sim
                           Fixture.set_iter (Fixture.quiet 1000) Fixture.fs None
                           "1" "" remove_dups_enumerates))
             [("a.txt", Document "alpha" "docx");
              ("b.txt", Document "alpha" "unknown")]).
    + reflexivity.
    + vm_compute. discriminate.
    + repeat split; reflexivity.
    + simpl. lia.
Defined.

Lemma report_pairs_sorted_witness :
  exists r,
    main Fixture.encode Fixture.chunk_max_sim Fixture.set_iter (Fixture.quiet 1000) Fixture.fs None "1" ""
      = Report r /\
    (forall (i j : nat) pd pd',
       (i < j)%nat -> r_pairs r !! i = Some pd -> r_pairs r !! j = Some pd' ->
       (pd_similarity pd' <= pd_similarity pd)%Q) /\
    (forall pd, pd ∈ r_pairs r -> (6 # 10 <= pd_similarity pd)%Q).
Proof.
  eexists. split; [vm_compute; reflexivity|].
  apply (report_pairs_sorted Fixture.encode Fixture.chunk_max_sim Fixture.set_iter (Fixture.quiet 1000)
           Fixture.fs None "1" "").
  vm_compute; reflexivity.
Defined.

Lemma report_mode_types_witness :
  exists r,
    main Fixture.encode Fixture.chunk_max_sim Fixture.set_iter (Fixture.quiet 1000) Fixture.fs None
      " 3 " "docx, unknown" = Report r /\
    length (r_pairs r) = 1%nat /\
    (Py.strip " 3 " = "3" ->
     forall pd, pd ∈ r_pairs r ->
       pd_type1 pd <> pd_type2 pd /\ pd_cross_format pd = true /\
       pd_type1 pd ∈ map Py.strip (Py.split_on "," (Py.strip "docx, unknown")) /\
       pd_type2 pd ∈ map Py.strip (Py.split_on "," (Py.strip "docx, unknown"))).
Proof.
  eexists. split; [vm_compute; reflexivity|]. split; [reflexivity|].
  apply (report_mode_types Fixture.encode Fixture.chunk_max_sim Fixture.set_iter (Fixture.quiet 1000)
           Fixture.fs None " 3 " "docx, unknown").
  vm_compute; reflexivity.
Defined.

Lemma report_clusters_witness :
  exists r documents,
    main Fixture.encode Fixture.chunk_max_sim Fixture.set_iter (Fixture.quiet 1000) Fixture.fs None "1" ""
      = Report r /\
    length (r_clusters r) = 1%nat /\
    load_all_documents Fixture.fs "extracted_text" = Some documents /\
    forall (k : nat) cd, r_clusters r !! k = Some cd ->
      cd_cluster_id cd = Z.of_nat k + 1 /\
      cd_size cd = Py.len (cd_members cd) /\ 2 <= cd_size cd /\
      Sorted String.le (map md_filename (cd_members cd)) /\
      NoDup (map md_filename (cd_members cd)) /\
      (forall m, m ∈ cd_members cd ->
         md_metadata m = metadata_get (default ∅ None) (md_filename m) /\
         exists d, (md_filename m, d) ∈ documents /\ md_type m = doc_type d) /\
      (forall (k' : nat) cd',
         (k < k')%nat -> r_clusters r !! k' = Some cd' -> cd_size cd' <= cd_size cd).
Proof.
  assert (Hm : exists r,
            main Fixture.encode Fixture.chunk_max_sim Fixture.set_iter (Fixture.quiet 1000) Fixture.fs
              None "1" "" = Report r /\ length (r_clusters r) = 1%nat).
  { eexists. split; [vm_compute; reflexivity|reflexivity]. }
  destruct Hm as (r & Hr & Hone).
  destruct (report_clusters Fixture.encode Fixture.chunk_max_sim Fixture.set_iter (Fixture.quiet 1000)
              Fixture.fs None "1" "" r remove_dups_enumerates Hr)
    as (documents & Hload & Hall).
  exists r, documents. split; [exact Hr|]. split; [exact Hone|].
  split; [exact Hload|exact Hall].
Defined.

Lemma report_pairs_clustered_witness :
  exists r,
    main Fixture.encode Fixture.chunk_max_sim Fixture.set_iter (Fixture.quiet 1000) Fixture.fs None "1" ""
      = Report r /\
    (forall pd, pd ∈ r_pairs r ->
       exists cd, cd ∈ r_clusters r /\
         pd_doc1 pd ∈ map md_filename (cd_members cd) /\
         pd_doc2 pd ∈ map md_filename (cd_members cd)) /\
    (forall cd m, cd ∈ r_clusters r -> m ∈ cd_members cd ->
       exists pd, pd ∈ r_pairs r /\
         (md_filename m = pd_doc1 pd \/ md_filename m = pd_doc2 pd)) /\
    (r_pairs r = [] <-> r_clusters r = []).
Proof.
  eexists. split; [vm_compute; reflexivity|].
  apply (report_pairs_clustered Fixture.encode Fixture.chunk_max_sim
           Fixture.set_iter (Fixture.quiet 1000) Fixture.fs None "1" "").
  - apply remove_dups_enumerates.
  - vm_compute; reflexivity.
Defined.

Section ReportExact.
Context {Emb : Type}.
Variable encode : list string -> Emb.
Variable chunk_max_sim : Emb -> Emb -> Q.
Variable set_iter : list string -> list string.
Variable rt : runtime.

(** The embedding a run holds for a loaded document is that of the chunks
    of its text. *)
Lemma embed_all_entry documents doc_embeddings name d chunks :
  NoDup (map fst documents) ->
  embed_all encode rt documents ∅ = Some doc_embeddings ->
  (name, d) ∈ documents ->
  chunk_text (length (Py.split (doc_text d))) (doc_text d)
    default_chunk_size default_overlap = Some chunks ->
  doc_embeddings !! name = Some (encode chunks).
Proof.
  intros Hnd He Hin Hch.
  destruct (embed_all_chunks encode rt documents ∅ doc_embeddings name He)
    as (d' & chunks' & Hin' & Hch' & Hemb).
  { apply list_elem_of_fmap. by exists (name, d). }
  rewrite (keys_functional documents name d d' Hnd Hin Hin') in Hch.
  rewrite Hch in Hch'. by injection Hch' as <-.
Qed.

(** The pair list of a report holds exactly one entry for every two
    loaded documents, taken in the order they were loaded, that pass the
    filter of the mode chosen and whose chunk embeddings reach the
    threshold 0.6: the entry names the two, with their types, the rounded
    similarity, its tier, the cross-format flag and their metadata. *)
Theorem report_pairs_exact fs metadata_json choice_line types_line documents r :
  load_all_documents fs "extracted_text" = Some documents ->
  main encode chunk_max_sim set_iter rt fs metadata_json choice_line types_line
    = Report r ->
  forall pd, pd ∈ r_pairs r <->
    exists l1 n1 d1 l2 n2 d2 l3 c1 c2,
      documents = l1 ++ (n1, d1) :: l2 ++ (n2, d2) :: l3 /\
      candidate (fst (choose_mode choice_line types_line))
        (snd (choose_mode choice_line types_line)) (doc_type d1) (doc_type d2)
        = true /\
      chunk_text (length (Py.split (doc_text d1))) (doc_text d1)
        default_chunk_size default_overlap = Some c1 /\
      chunk_text (length (Py.split (doc_text d2))) (doc_text d2)
        default_chunk_size default_overlap = Some c2 /\
      (6 # 10 <= chunk_max_sim (encode c1) (encode c2))%Q /\
      pd = PairData n1 n2 (doc_type d1) (doc_type d2)
             (round4 (chunk_max_sim (encode c1) (encode c2)))
             (pair_level (chunk_max_sim (encode c1) (encode c2)))
             (negb (bool_decide (doc_type d1 = doc_type d2)))
             (metadata_get (default ∅ metadata_json) n1)
             (metadata_get (default ∅ metadata_json) n2).
Proof.
  intros Hload Hmain.
  apply main_report in Hmain as (documents' & Hload' & Hmain).
  rewrite Hload in Hload'. injection Hload' as <-.
  apply run_documents_report in Hmain
    as (emb & found & clusters & Hlen & He & Hf & _ & Hpairs & _).
  pose proof (load_all_documents_keys _ _ _ Hload) as Hnd.
  intros pd. rewrite Hpairs. split.
  - intros (p & -> & Hp)%list_elem_of_fmap.
    unfold sort_pairs in Hp. rewrite sort_by_Permutation in Hp.
    destruct (find_similar_pairs_elem _ _ _ _ _ _ _ _ Hf Hp)
      as (l1 & [n1 d1] & l2 & [n2 d2] & l3 & Hdocs & Hc).
    apply compare_docs_retained in Hc as (Hcand & e1 & e2 & H1 & H2 & Hq & ->).
    destruct (chunk_text_terminates (doc_text d1) default_chunk_size default_overlap
                (length (Py.split (doc_text d1)))) as [c1 Hc1]; [done|lia|].
    destruct (chunk_text_terminates (doc_text d2) default_chunk_size default_overlap
                (length (Py.split (doc_text d2)))) as [c2 Hc2]; [done|lia|].
    assert (Hin1 : (n1, d1) ∈ documents).
    { rewrite Hdocs, elem_of_app, elem_of_cons. auto. }
    assert (Hin2 : (n2, d2) ∈ documents).
    { rewrite Hdocs, elem_of_app, elem_of_cons, elem_of_app, elem_of_cons. auto. }
    rewrite (embed_all_entry _ _ _ _ _ Hnd He Hin1 Hc1) in H1.
    rewrite (embed_all_entry _ _ _ _ _ Hnd He Hin2 Hc2) in H2.
    injection H1 as <-. injection H2 as <-.
    by exists l1, n1, d1, l2, n2, d2, l3, c1, c2.
  - intros (l1 & n1 & d1 & l2 & n2 & d2 & l3 & c1 & c2
            & Hdocs & Hcand & Hc1 & Hc2 & Hq & ->).
    assert (Hin1 : (n1, d1) ∈ documents).
    { rewrite Hdocs, elem_of_app, elem_of_cons. auto. }
    assert (Hin2 : (n2, d2) ∈ documents).
    { rewrite Hdocs, elem_of_app, elem_of_cons, elem_of_app, elem_of_cons. auto. }
    pose proof (embed_all_entry _ _ _ _ _ Hnd He Hin1 Hc1) as H1.
    pose proof (embed_all_entry _ _ _ _ _ Hnd He Hin2 Hc2) as H2.
    rewrite Hdocs in Hf.
    pose proof (candidate_retained chunk_max_sim emb default_threshold _ _
                  l1 n1 d1 l2 n2 d2 l3 _ _ found Hcand H1 H2 Hq Hf) as Hp.
    apply list_elem_of_fmap. eexists. split; [|unfold sort_pairs;
      rewrite sort_by_Permutation; exact Hp]. done.
Qed.
End ReportExact.

Lemma report_pairs_exact_witness :
  exists documents r,
    load_all_documents Fixture.fs "extracted_text" = Some documents /\
    main Fixture.encode Fixture.chunk_max_sim Fixture.set_iter (Fixture.quiet 1000) Fixture.fs None "1" ""
      = Report r /\
    r_pairs r <> [] /\
    forall pd, pd ∈ r_pairs r <->
      exists l1 n1 d1 l2 n2 d2 l3 c1 c2,
        documents = l1 ++ (n1, d1) :: l2 ++ (n2, d2) :: l3 /\
        candidate (fst (choose_mode "1" "")) (snd (choose_mode "1" ""))
          (doc_type d1) (doc_type d2) = true /\
        chunk_text (length (Py.split (doc_text d1))) (doc_text d1)
          default_chunk_size default_overlap = Some c1 /\
        chunk_text (length (Py.split (doc_text d2))) (doc_text d2)
          default_chunk_size default_overlap = Some c2 /\
        (6 # 10 <= Fixture.chunk_max_sim (Fixture.encode c1) (Fixture.encode c2))%Q /\
        pd = PairData n1 n2 (doc_type d1) (doc_type d2)
               (round4 (Fixture.chunk_max_sim (Fixture.encode c1) (Fixture.encode c2)))
               (pair_level (Fixture.chunk_max_sim (Fixture.encode c1) (Fixture.encode c2)))
               (negb (bool_decide (doc_type d1 = doc_type d2)))
               (metadata_get (default ∅ None) n1)
               (metadata_get (default ∅ None) n2).
Proof.
  eexists _, _. split; [reflexivity|]. split; [vm_compute; reflexivity|].
  split; [discriminate|].
  apply (report_pairs_exact Fixture.encode Fixture.chunk_max_sim Fixture.set_iter (Fixture.quiet 1000)
           Fixture.fs None "1" "").
  - reflexivity.
  - vm_compute; reflexivity.
Defined.
